(** * py_depthsampling: deconvolution, bootstrap, vertex selection

    A shallow embedding of the numeric core of the [py_depthsampling]
    scripts.  numpy arrays are modelled as a shape together with an index
    function, numpy's broadcasting and its exceptions are written out, and
    the arithmetic is kept abstract (class [Scalar]) so that the structural
    theorems hold for any number system, binary64 included.  The
    executable instance is [num], the exact rationals with a NaN. *)

From Stdlib Require Import String List ZArith QArith Qcanon Qcabs Qround.
From Stdlib Require Import Qabs Lia Lqa Bool Arith Sorted Permutation.
Import ListNotations.

Set Implicit Arguments.

Close Scope Qc_scope.
Close Scope Q_scope.
Open Scope nat_scope.

(** ** Python exceptions as an error monad *)

Inductive exn : Type :=
| ValueError
| IndexError
| NameError.

Inductive result (A : Type) : Type :=
| Ok (a : A)
| Raise (e : exn).

Arguments Ok {A} a.
Arguments Raise {A} e.

Definition bind {A B : Type} (m : result A) (k : A -> result B) : result B :=
  match m with
  | Ok a => k a
  | Raise e => Raise e
  end.

Notation "x <- m ;; k" := (bind m (fun x => k))
  (at level 61, m at next level, right associativity).

(** ** Scalars *)

(** What the scripts do with a float: literals, the four operations, the
    strict comparison, the NaN test and rounding down to an integer. *)
Class Scalar (F : Type) : Type := {
  lit : Q -> F;
  fadd : F -> F -> F;
  fsub : F -> F -> F;
  fmul : F -> F -> F;
  fdiv : F -> F -> F;
  fltb : F -> F -> bool;
  fisnan : F -> bool;
  ffloor : F -> Z
}.

Declare Scope scalar_scope.
Delimit Scope scalar_scope with F.
Infix "+" := fadd : scalar_scope.
Infix "-" := fsub : scalar_scope.
Infix "*" := fmul : scalar_scope.
Infix "/" := fdiv : scalar_scope.

(** The executable instance: exact rationals with one NaN ([None]), which
    every operation propagates and which division by zero produces.
    Rounding and the infinities of binary64 are not modelled. *)
Definition num : Type := option Qc.

Definition num_lift2 (op : Qc -> Qc -> Qc) (x y : num) : num :=
  match x, y with
  | Some a, Some b => Some (op a b)
  | _, _ => None
  end.

Definition num_div (x y : num) : num :=
  match x, y with
  | Some a, Some b => if Qc_eq_dec b (Q2Qc 0) then None else Some (Qcdiv a b)
  | _, _ => None
  end.

Definition num_ltb (x y : num) : bool :=
  match x, y with
  | Some a, Some b => if Qclt_le_dec a b then true else false
  | _, _ => false
  end.

Definition num_isnan (x : num) : bool :=
  match x with Some _ => false | None => true end.

(** [floor(nan).astype(int64)] is the smallest 64-bit integer. *)
Definition num_floor (x : num) : Z :=
  match x with
  | Some a => Qfloor (this a)
  | None => (- 2 ^ 63)%Z
  end.

#[export] Instance num_Scalar : Scalar num := {
  lit := fun q => Some (Q2Qc q);
  fadd := num_lift2 Qcplus;
  fsub := num_lift2 Qcminus;
  fmul := num_lift2 Qcmult;
  fdiv := num_div;
  fltb := num_ltb;
  fisnan := num_isnan;
  ffloor := num_floor
}.

(** ** numpy arrays: a shape and an index function *)

Record ndarray2 (A : Type) : Type := {
  shape2 : nat * nat;
  data2 : nat -> nat -> A
}.

Record ndarray3 (A : Type) : Type := {
  shape3 : nat * nat * nat;
  data3 : nat -> nat -> nat -> A
}.

Definition dim3_0 {A} (a : ndarray3 A) : nat := fst (fst (shape3 a)).
Definition dim3_1 {A} (a : ndarray3 A) : nat := snd (fst (shape3 a)).
Definition dim3_2 {A} (a : ndarray3 A) : nat := snd (shape3 a).

(** [np.zeros((n0, n1, n2))] *)
Definition zeros3 {F} `{Scalar F} (s : nat * nat * nat) : ndarray3 F :=
  {| shape3 := s; data3 := fun _ _ _ => lit 0%Q |}.

(** Arrays written out as nested lists, for concrete inputs and outputs. *)
Definition of_list2 {A} (dflt : A) (l : list (list A)) : ndarray2 A :=
  {| shape2 := (List.length l, List.length (hd [] l));
     data2 := fun i j => nth j (nth i l []) dflt |}.

Definition of_list3 {A} (dflt : A) (l : list (list (list A))) : ndarray3 A :=
  {| shape3 := (List.length l, List.length (hd [] l),
                List.length (hd [] (hd [] l)));
     data3 := fun i j k => nth k (nth j (nth i l []) []) dflt |}.

Definition to_list2 {A} (a : ndarray2 A) : list (list A) :=
  map (fun i => map (data2 a i) (seq 0 (snd (shape2 a))))
      (seq 0 (fst (shape2 a))).

Definition to_list3 {A} (a : ndarray3 A) : list (list (list A)) :=
  map (fun i => map (fun j => map (data3 a i j) (seq 0 (dim3_2 a)))
                    (seq 0 (dim3_1 a)))
      (seq 0 (dim3_0 a)).

(** Broadcasting of one axis: equal lengths, or one of them is 1. *)
Definition bdim (n m : nat) : result nat :=
  if n =? m then Ok n
  else if n =? 1 then Ok m
  else if m =? 1 then Ok n
  else Raise ValueError.

(** Index into an axis of length [n] that is broadcast: an axis of length 1
    is read at 0 whatever the index. *)
Definition bidx (n i : nat) : nat := if n =? 1 then 0 else i.

(** The entry of a two-dimensional value at an index of the shape it is
    broadcast to. *)
Definition bget {A} (v : ndarray2 A) (i c : nat) : A :=
  data2 v (bidx (fst (shape2 v)) i) (bidx (snd (shape2 v)) c).

(** [a[:, :, k]]: the two-dimensional slice at depth index [k]. *)
Definition slice3 {A} (a : ndarray3 A) (k : nat) : result (ndarray2 A) :=
  if k <? dim3_2 a
  then Ok {| shape2 := fst (shape3 a); data2 := fun i c => data3 a i c k |}
  else Raise IndexError.

(** [a[None, :, k]]: column [k] of a two-dimensional array with a new first
    axis of length 1.  ([a[:, k]], one-dimensional, broadcasts against a
    two-dimensional operand in the same way: it is aligned on the last axis.) *)
Definition slice2_None {A} (a : ndarray2 A) (k : nat) : result (ndarray2 A) :=
  if k <? snd (shape2 a)
  then Ok {| shape2 := (1, fst (shape2 a)); data2 := fun _ c => data2 a c k |}
  else Raise IndexError.

(** A binary operation applied elementwise with broadcasting. *)
Definition broadcast2 {A} (op : A -> A -> A) (x y : ndarray2 A)
  : result (ndarray2 A) :=
  n0 <- bdim (fst (shape2 x)) (fst (shape2 y)) ;;
  n1 <- bdim (snd (shape2 x)) (snd (shape2 y)) ;;
  Ok {| shape2 := (n0, n1);
        data2 := fun i c =>
          op (data2 x (bidx (fst (shape2 x)) i) (bidx (snd (shape2 x)) c))
             (data2 y (bidx (fst (shape2 y)) i) (bidx (snd (shape2 y)) c)) |}.

(** A Python float times an array. *)
Definition scale2 {F} `{Scalar F} (s : F) (x : ndarray2 F) : ndarray2 F :=
  {| shape2 := shape2 x; data2 := fun i c => (s * data2 x i c)%F |}.

(** [a[:, :, k] = v]: the value is broadcast to the slice's shape, which an
    axis of the value can only do when it has the slice's length or length 1. *)
Definition assign3 {A} (a : ndarray3 A) (k : nat) (v : ndarray2 A)
  : result (ndarray3 A) :=
  if k <? dim3_2 a then
    if ((fst (shape2 v) =? dim3_0 a) || (fst (shape2 v) =? 1))
       && ((snd (shape2 v) =? dim3_1 a) || (snd (shape2 v) =? 1))
    then Ok {| shape3 := shape3 a;
               data3 := fun i c d =>
                 if d =? k
                 then bget v i c
                 else data3 a i c d |}
    else Raise ValueError
  else Raise IndexError.

(** ** drain_model_decon_04.py *)

Section Deconv04.

Context {F : Type} `{Scalar F}.

Local Open Scope scalar_scope.

(** One subtraction term of the source, [(p / q) * aryNrnRnd[:, :, j] *
    aryNseRnd[:, :, k]]. *)
Definition drain_term (p q : Q) (aryNrnRnd aryNseRnd : ndarray3 F)
    (j k : nat) : result (ndarray2 F) :=
  nrn <- slice3 aryNrnRnd j ;;
  nse <- slice3 aryNseRnd k ;;
  broadcast2 fmul (scale2 (lit p / lit q) nrn) nse.

Arguments drain_term (p q)%_Q_scope aryNrnRnd aryNseRnd (j k)%_nat_scope.

Definition sub2 (x : ndarray2 F) (t : result (ndarray2 F))
  : result (ndarray2 F) :=
  y <- t ;; broadcast2 fsub x y.

Definition deconv_04 (varNumCon : Z) (aryEmp5 : ndarray2 F)
    (aryNseRnd : ndarray3 F) : result (ndarray3 F) :=
  (* Number of random-noise iterations: *)
  let varNumIt := dim3_0 aryNseRnd in
  (* Array for corrected depth profiles: *)
  let aryNrnRnd :=
    zeros3 (varNumIt, fst (shape2 aryEmp5), snd (shape2 aryEmp5)) in
  (* Layer VI: *)
  e0 <- slice2_None aryEmp5 0 ;;
  aryNrnRnd <- assign3 aryNrnRnd 0 e0 ;;
  (* Layer V: *)
  e1 <- slice2_None aryEmp5 1 ;;
  v1 <- sub2 e1 (drain_term 0.6 1.9 aryNrnRnd aryNseRnd 0 1) ;;
  aryNrnRnd <- assign3 aryNrnRnd 1 v1 ;;
  (* Layer IV: *)
  e2 <- slice2_None aryEmp5 2 ;;
  v2 <- sub2 e2 (drain_term 0.3 1.5 aryNrnRnd aryNseRnd 1 2) ;;
  v2 <- sub2 v2 (drain_term 0.6 1.9 aryNrnRnd aryNseRnd 0 2) ;;
  aryNrnRnd <- assign3 aryNrnRnd 2 v2 ;;
  (* Layer II/III: *)
  e3 <- slice2_None aryEmp5 3 ;;
  v3 <- sub2 e3 (drain_term 1.3 2.2 aryNrnRnd aryNseRnd 2 3) ;;
  v3 <- sub2 v3 (drain_term 0.3 1.5 aryNrnRnd aryNseRnd 1 3) ;;
  v3 <- sub2 v3 (drain_term 0.5 1.9 aryNrnRnd aryNseRnd 0 3) ;;
  aryNrnRnd <- assign3 aryNrnRnd 3 v3 ;;
  (* Layer I: *)
  e4 <- slice2_None aryEmp5 4 ;;
  v4 <- sub2 e4 (drain_term 0.7 1.7 aryNrnRnd aryNseRnd 3 4) ;;
  v4 <- sub2 v4 (drain_term 1.3 2.2 aryNrnRnd aryNseRnd 2 4) ;;
  v4 <- sub2 v4 (drain_term 0.3 1.5 aryNrnRnd aryNseRnd 1 4) ;;
  v4 <- sub2 v4 (drain_term 0.5 1.9 aryNrnRnd aryNseRnd 0 4) ;;
  aryNrnRnd <- assign3 aryNrnRnd 4 v4 ;;
  Ok aryNrnRnd.

(** The mixing coefficients that the source writes into its formulas, by
    the layer [k] being corrected and the deeper layer [j]. *)
Definition ratio (k j : nat) : F :=
  match k, j with
  | 1, 0 => lit 0.6%Q / lit 1.9%Q
  | 2, 1 => lit 0.3%Q / lit 1.5%Q
  | 2, 0 => lit 0.6%Q / lit 1.9%Q
  | 3, 2 => lit 1.3%Q / lit 2.2%Q
  | 3, 1 => lit 0.3%Q / lit 1.5%Q
  | 3, 0 => lit 0.5%Q / lit 1.9%Q
  | 4, 3 => lit 0.7%Q / lit 1.7%Q
  | 4, 2 => lit 1.3%Q / lit 2.2%Q
  | 4, 1 => lit 0.3%Q / lit 1.5%Q
  | 4, 0 => lit 0.5%Q / lit 1.9%Q
  | _, _ => lit 0%Q
  end.

(** Layer [k] from the deeper layers: the observed value minus, from the
    next deeper layer down to the deepest, the corrected value of that
    layer times its coefficient, the product passed through [factor]. *)
Definition back_substitute (factor : F -> F) (observed : F)
    (corrected : nat -> F) (k : nat) : F :=
  fold_left (fun acc j => acc - factor (ratio k j * corrected j))
    (rev (seq 0 k)) observed.

(** The scheme in the words of the specification: every term is a deeper
    layer's corrected value times a fixed ratio, nothing else. *)
Definition plain_scheme (observed : F) (corrected : nat -> F) (k : nat) : F :=
  back_substitute (fun t => t) observed corrected k.

(** The scheme of model 4: every term of layer [k] is moreover multiplied
    by the noise factor [nse] of that layer. *)
Definition noisy_scheme (nse : F) (observed : F) (corrected : nat -> F)
    (k : nat) : F :=
  back_substitute (fun t => t * nse) observed corrected k.

(** The scheme with a factor of its own for every term, in the words of the
    specification of model 4: the term of the deeper layer [j] in the
    correction of layer [k] is multiplied by [factor k j]. *)
Definition independent_scheme (factor : nat -> nat -> F) (observed : F)
    (corrected : nat -> F) (k : nat) : F :=
  fold_left
    (fun acc j => acc - (ratio k j * corrected j) * factor k j)
    (rev (seq 0 k)) observed.

(** The entry of the noise array that iteration [i] uses for condition [c]
    at depth index [k]; one row of noise serves every condition when the
    array has a single one. *)
Definition noise_factor (aryNseRnd : ndarray3 F) (i c k : nat) : F :=
  data3 aryNseRnd i (bidx (dim3_1 aryNseRnd) c) k.

End Deconv04.

(** ** numpy reductions over one axis, on the list of the axis' entries *)

Section Numpy.

Context {F : Type} `{Scalar F}.

Local Open Scope scalar_scope.

Definition of_nat (n : nat) : F := lit (inject_Z (Z.of_nat n)).

(** [np.sum] *)
Definition np_sum (l : list F) : F := fold_left fadd l (lit 0%Q).

(** [np.mean]: over an empty axis this is [0 / 0], NaN. *)
Definition np_mean (l : list F) : F := np_sum l / of_nat (length l).

Definition fmin (a b : F) : F :=
  if fisnan a then a else if fisnan b then b else if fltb b a then b else a.

Definition fmax (a b : F) : F :=
  if fisnan a then a else if fisnan b then b else if fltb a b then b else a.

(** [np.min], [np.max]: an empty axis has no minimum. *)
Definition np_min (l : list F) : result F :=
  match l with
  | [] => Raise ValueError
  | x :: xs => Ok (fold_left fmin xs x)
  end.

Definition np_max (l : list F) : result F :=
  match l with
  | [] => Raise ValueError
  | x :: xs => Ok (fold_left fmax xs x)
  end.

(** Sorting as numpy orders floats: ascending, NaN last. *)
Fixpoint insert (x : F) (l : list F) : list F :=
  match l with
  | [] => [x]
  | y :: l' => if fltb y x || fisnan x then y :: insert x l' else x :: l
  end.

Definition np_sort (l : list F) : list F := fold_right insert [] l.

(** [l[i:j]] *)
Definition slice (l : list F) (i j : nat) : list F :=
  firstn (j - i)%nat (skipn i l).

(** [np.median]: the mean of the middle entry, or of the two middle
    entries, of the sorted axis; NaN when the axis holds a NaN or is
    empty. *)
Definition np_median (l : list F) : F :=
  let part := np_sort l in
  let sz := length l in
  let szh := (sz / 2)%nat in
  if existsb fisnan l then lit 0%Q / lit 0%Q
  else if Nat.odd sz then np_mean (slice part szh (szh + 1)%nat)
  else np_mean (slice part (szh - 1)%nat (szh + 1)%nat).

(** One percentile of a non-empty axis, linear interpolation between the
    two neighbours of the fractional index [q / 100 * (n - 1)]. *)
Definition percentile1 (l : list F) (q : F) : F :=
  let ap := np_sort l in
  let Nx := length l in
  let indices := (q / lit 100%Q) * of_nat (Nx - 1)%nat in
  let indices_below := Z.to_nat (ffloor indices) in
  let indices_above := Nat.min (indices_below + 1)%nat (Nx - 1)%nat in
  let weights_above := indices - of_nat indices_below in
  let weights_below := lit 1%Q - weights_above in
  let nan := lit 0%Q / lit 0%Q in
  if existsb fisnan l then nan
  else nth indices_below ap nan * weights_below
       + nth indices_above ap nan * weights_above.

(** [np.linspace(start, stop, num, endpoint=True)] *)
Definition linspace (start stop : F) (num : nat) : list F :=
  let div := (num - 1)%nat in
  let delta := stop - start in
  let step := delta / of_nat div in
  let y := map (fun i => if 0 <? div then of_nat i * step + start
                         else of_nat i * delta + start) (seq 0 num) in
  if 1 <? num then removelast y ++ [stop] else y.

End Numpy.

(** *** What a median and a percentile of numbers are

    The two statistics as numpy documents them, on exact numbers, stated
    on any ascending arrangement of the values and not on the way
    [np_sort], [np_median] and [percentile1] compute. *)

(** [m] is the median of [ql]: the middle one of the values in ascending
    order, or half the sum of the two middle ones. *)
Definition median_of (ql : list Qc) (m : Qc) : Prop :=
  exists srt : list Qc,
    Permutation srt ql /\ StronglySorted Qcle srt /\
    let n := List.length ql in
    m = if Nat.odd n then nth (n / 2) srt (Q2Qc 0)
        else ((nth (n / 2 - 1) srt (Q2Qc 0) + nth (n / 2) srt (Q2Qc 0))
              / Q2Qc 2)%Qc.

(** [v] is the percentile [q] of [ql], by linear interpolation: with the
    values in ascending order, the value at the fractional index
    [q / 100 * (n - 1)], taken on the line between the two entries next
    to it. *)
Definition percentile_of (ql : list Qc) (q v : Qc) : Prop :=
  exists srt : list Qc,
    Permutation srt ql /\ StronglySorted Qcle srt /\
    let n := List.length ql in
    let t := (q / Q2Qc 100 * Q2Qc (inject_Z (Z.of_nat (n - 1))))%Qc in
    let below := Z.to_nat (Qfloor (this t)) in
    let above := Nat.min (below + 1) (n - 1) in
    let frac := (t - Q2Qc (inject_Z (Z.of_nat below)))%Qc in
    v = (nth below srt (Q2Qc 0) * (Q2Qc 1 - frac)
         + nth above srt (Q2Qc 0) * frac)%Qc.

(** ** drain_model_Huber2017.py: the per-subject resampling *)

(** The [method] argument of [scipy.interpolate.griddata]. *)
Inductive interp_method : Type :=
| nearest
| linear
| cubic.

(** A call [griddata(points, values, xi, method=...)]. *)
Record griddata_call (F : Type) : Type := {
  points : list F;
  values : list F;
  xi : list F;
  method : interp_method
}.

Section Huber2017.

Context {F : Type} `{Scalar F}.

Local Open Scope scalar_scope.
Local Open Scope string_scope.

(** The relative position of the five layers, by region.  With any other
    region neither branch assigns the name and its first use fails. *)
Definition vecPosMdl (strRoi : string) : result (list F) :=
  if String.eqb strRoi "v1" then
    Ok [lit 0.1%Q; lit 0.25%Q; lit 0.5%Q; lit 0.8%Q; lit 0.95%Q]
  else if String.eqb strRoi "v2" then
    let vecPosMdl :=
      [lit 160.0%Q; lit 590.0%Q; lit 1110.0%Q; lit 1400.0%Q; lit 1620.0%Q] in
    Ok (map (fun x => x / lit 1700.0%Q) vecPosMdl)
  else Raise NameError.

(** Position of empirical datapoints. *)
Definition vecPosEmp (strRoi : string) (varNumDpth : nat) : result (list F) :=
  vecPosMdl <- vecPosMdl strRoi ;;
  lo <- np_min vecPosMdl ;;
  hi <- np_max vecPosMdl ;;
  Ok (linspace lo hi varNumDpth).

(** Sampling points for equi-volume space. *)
Definition vecIntpEqui (strRoi : string) (varNumDpth : nat)
  : result (list F) :=
  vecPosMdl <- vecPosMdl strRoi ;;
  lo <- np_min vecPosMdl ;;
  hi <- np_max vecPosMdl ;;
  Ok (linspace lo hi varNumDpth).

(** Interpolation (downsampling) of one empirical profile: the call
    [griddata(vecPosEmp, aryEmpBold[idxSub, idxCon, :], vecPosMdl,
    method='cubic')] that the script makes, by its arguments.  [griddata]
    is scipy's; what it does with the arguments, and whether it returns
    (its cubic method wants four data points or more, and a value for
    every one of them), is not embedded: [Ok] says that the script
    reaches the call, with these arguments. *)
Definition downsample (strRoi : string) (varNumDpth : nat)
    (aryEmpBold_row : list F) : result (griddata_call F) :=
  vecPosMdl <- vecPosMdl strRoi ;;
  vecPosEmp <- vecPosEmp strRoi varNumDpth ;;
  Ok {| points := vecPosEmp; values := aryEmpBold_row; xi := vecPosMdl;
        method := cubic |}.

(** Interpolation back into equi-volume space: the call
    [griddata(vecPosMdl, aryDecon5[idxSub, idxCon, :], vecIntpEqui,
    method='cubic')], by its arguments, as for [downsample]. *)
Definition upsample (strRoi : string) (varNumDpth : nat)
    (aryDecon5_row : list F) : result (griddata_call F) :=
  vecPosMdl <- vecPosMdl strRoi ;;
  vecIntpEqui <- vecIntpEqui strRoi varNumDpth ;;
  Ok {| points := vecPosMdl; values := aryDecon5_row; xi := vecIntpEqui;
        method := cubic |}.

(** [np.random.randn(n0, n1, n2)]: the generator's draws, in the shape
    asked for. *)
Definition randn (draws : nat -> nat -> nat -> F) (s : nat * nat * nat)
  : ndarray3 F :=
  {| shape3 := s; data3 := draws |}.

(** [np.multiply(a, x)] and [np.add(a, x)] with a scalar [x]. *)
Definition np_multiply (a : ndarray3 F) (x : F) : ndarray3 F :=
  {| shape3 := shape3 a; data3 := fun i c d => data3 a i c d * x |}.

Definition np_add (a : ndarray3 F) (x : F) : ndarray3 F :=
  {| shape3 := shape3 a; data3 := fun i c d => data3 a i c d + x |}.

(** Random noise for model 4: generated, scaled by the standard deviation,
    centred at one. *)
Definition aryNseRnd_model4 (draws : nat -> nat -> nat -> F)
    (varNumIt varNumCon varNumDpth : nat) (varNseRndSd : F) : ndarray3 F :=
  let aryNseRnd := randn draws (varNumIt, varNumCon, varNumDpth) in
  let aryNseRnd := np_multiply aryNseRnd varNseRndSd in
  np_add aryNseRnd (lit 1.0%Q).

End Huber2017.

(** ** boot/boot_plot.py *)

Record ndarray4 (A : Type) : Type := {
  shape4 : nat * nat * nat * nat;
  data4 : nat -> nat -> nat -> nat -> A
}.

(** What [boot_plot] hands to [plt_dpth_prfl]: the data to plot, the two
    dimensions and the bounds of the confidence interval.  (The further
    arguments of the call are constants of the figure.) *)
Record plt_dpth_prfl_call (F : Type) : Type := {
  aryData : ndarray2 F;
  plt_varNumDpth : nat;
  plt_varNumCon : nat;
  aryCnfLw : ndarray2 F;
  aryCnfUp : ndarray2 F
}.

Section BootPlot.

Context {F : Type} `{Scalar F}.

(** [np.random.randint(0, high=high, size=(n0, n1))].  [rng] holds the
    generator's raw draws; the result lies in [0, high).  A negative
    dimension is refused.  A size without any entry gives the empty array,
    whatever the range; otherwise an empty range is refused. *)
Definition randint (rng : nat -> nat -> nat) (high : nat) (size : Z * nat)
  : result (ndarray2 nat) :=
  if (fst size <? 0)%Z then Raise ValueError
  else if (high =? 0) && negb (Z.to_nat (fst size) * snd size =? 0)
  then Raise ValueError
  else Ok {| shape2 := (Z.to_nat (fst size), snd size);
             data2 := fun i s => rng i s mod high |}.

(** [np.zeros((n0, n1, n2, n3))] *)
Definition zeros4 (s : nat * nat * nat * nat) : ndarray4 F :=
  {| shape4 := s; data4 := fun _ _ _ _ => lit 0%Q |}.

(** [a[vecRnd, :, :]]: the entries of the first axis picked by an index
    vector of length [n]. *)
Definition take_axis0 (a : ndarray3 F) (n : nat) (vecRnd : nat -> nat)
  : ndarray3 F :=
  {| shape3 := (n, dim3_1 a, dim3_2 a);
     data3 := fun s c d => data3 a (vecRnd s) c d |}.

(** [a[idxIt, :, :, :] = v], for [v] of the shape of the slice. *)
Definition set_axis0 (a : ndarray4 F) (idxIt : nat) (v : ndarray3 F)
  : ndarray4 F :=
  {| shape4 := shape4 a;
     data4 := fun i s c d =>
       if i =? idxIt then data3 v s c d else data4 a i s c d |}.

(** [np.median(a, axis=1)] of a four-dimensional array. *)
Definition median_axis1 (a : ndarray4 F) : ndarray3 F :=
  let '(n0, n1, n2, n3) := shape4 a in
  {| shape3 := (n0, n2, n3);
     data3 := fun i c d =>
       np_median (map (fun s => data4 a i s c d) (seq 0 n1)) |}.

(** [np.median(a, axis=0)] of a three-dimensional array. *)
Definition median_axis0 (a : ndarray3 F) : ndarray2 F :=
  {| shape2 := (dim3_1 a, dim3_2 a);
     data2 := fun c d =>
       np_median (map (fun s => data3 a s c d) (seq 0 (dim3_0 a))) |}.

(** numpy's test of a percentile, [not (0 <= q <= 100)]: a NaN fails it
    as a number below 0 or above 100 does. *)
Definition out_of_range (x : F) : bool :=
  fisnan x || fltb x (lit 0%Q) || fltb (lit 100%Q) x.

(** [np.percentile(a, (q0, q1), axis=0)]: the percentiles are checked
    first; an empty axis has nothing to take the neighbours from. *)
Definition np_percentile (a : ndarray3 F) (q : F * F)
  : result (ndarray3 F) :=
  if out_of_range (fst q) || out_of_range (snd q) then Raise ValueError
  else if dim3_0 a =? 0 then Raise IndexError
  else Ok {| shape3 := (2, dim3_1 a, dim3_2 a);
             data3 := fun k c d =>
               percentile1 (map (fun i => data3 a i c d) (seq 0 (dim3_0 a)))
                 (if k =? 0 then fst q else snd q) |}.

(** [a[k, :, :]] *)
Definition index_axis0 (a : ndarray3 F) (k : nat) : ndarray2 F :=
  {| shape2 := (dim3_1 a, dim3_2 a); data2 := fun c d => data3 a k c d |}.

(** The function for an array argument [objDpth].  It returns [None]; what
    it produces is the call of the plotting function, which is the value
    here. *)
Definition boot_plot (rng : nat -> nat -> nat) (objDpth : ndarray3 F)
    (varNumIt : Z) (varConLw varConUp : F)
  : result (plt_dpth_prfl_call F) :=
  let aryDpth := objDpth in
  (* Get number of subjects from input array: *)
  let varNumSub := dim3_0 aryDpth in
  (* Get number of conditions from input array: *)
  let varNumCon := dim3_1 aryDpth in
  (* Get number of depth levels from input array: *)
  let varNumDpth := dim3_2 aryDpth in
  (* How many subjects to sample on each iteration: *)
  let varNumSmp := varNumSub in
  (* Random array with subject indicies for bootstrapping: *)
  aryRnd <- randint rng varNumSub (varNumIt, varNumSmp) ;;
  (* Array for bootstrap samples: *)
  let aryBoo :=
    zeros4 (Z.to_nat varNumIt, varNumSub, varNumCon, varNumDpth) in
  (* Loop through bootstrap iterations: *)
  let aryBoo :=
    fold_left
      (fun aryBoo idxIt =>
         (* Indices of current bootstrap sample: *)
         let vecRnd := data2 aryRnd idxIt in
         (* Put current bootstrap sample into array: *)
         set_axis0 aryBoo idxIt (take_axis0 aryDpth varNumSmp vecRnd))
      (seq 0 (Z.to_nat varNumIt)) aryBoo in
  (* Median for each bootstrap sample: *)
  let aryBooMed := median_axis1 aryBoo in
  (* Percentile bootstrap for median: *)
  aryPrct <- np_percentile aryBooMed (varConLw, varConUp) ;;
  (* Empirical median: *)
  let aryEmpMed := median_axis0 aryDpth in
  Ok {| aryData := aryEmpMed;
        plt_varNumDpth := varNumDpth;
        plt_varNumCon := varNumCon;
        aryCnfLw := index_axis0 aryPrct 0;
        aryCnfUp := index_axis0 aryPrct 1 |}.

End BootPlot.

(** ** The permutation test's p-value *)

Module PeakDiff.

Local Open Scope Qc_scope.

(** Modelled from the spec: [peak_diff] of
    [py_depthsampling.permutation.peak_pos_perm_diff] is not among the
    sources, [permutation_peak.py] only calls it.  The number of
    permutation statistics whose absolute value is greater than or equal to
    the absolute empirical statistic. *)
Definition exceed_count (vecPermDiff : list Qc) (varEmpDiff : Qc) : nat :=
  List.length
    (filter (fun x => if Qclt_le_dec (Qcabs x) (Qcabs varEmpDiff)
                      then false else true) vecPermDiff).

(** Modelled from the spec: the two-sided p-value that the missing
    [peak_diff] returns, one plus the count above over one plus the number
    of permutation statistics. *)
Definition p_value (vecPermDiff : list Qc) (varEmpDiff : Qc) : Qc :=
  (1 + Q2Qc (inject_Z (Z.of_nat (exceed_count vecPermDiff varEmpDiff))))
  / (1 + Q2Qc (inject_Z (Z.of_nat (List.length vecPermDiff)))).

End PeakDiff.

(** ** ds_slctVrtcs.py *)

(** [l[i] = x] for an index in range. *)
Fixpoint list_set {A : Type} (l : list A) (i : nat) (x : A) : list A :=
  match l, i with
  | [], _ => []
  | _ :: l', 0 => x :: l'
  | y :: l', S i' => y :: list_set l' i' x
  end.

Fixpoint mapM {A B : Type} (f : A -> result B) (l : list A)
  : result (list B) :=
  match l with
  | [] => Ok []
  | x :: l' => y <- f x ;; ys <- mapM f l' ;; Ok (y :: ys)
  end.

(** [np.sum] of a boolean vector. *)
Definition np_sum_bool (v : list bool) : nat :=
  List.length (filter (fun b => b) v).

(** [np.logical_and] of two vectors, with broadcasting. *)
Definition np_logical_and (a b : list bool) : result (list bool) :=
  if List.length a =? List.length b
  then Ok (map (fun p => fst p && snd p) (combine a b))
  else if List.length a =? 1 then Ok (map (andb (hd false a)) b)
  else if List.length b =? 1 then Ok (map (fun x => x && hd false b) a)
  else Raise ValueError.

(** An index as numpy reads it on an axis of length [n]: a negative one
    counts from the end. *)
Definition norm_index (n : nat) (i : Z) : result nat :=
  if ((0 <=? i) && (i <? Z.of_nat n))%Z then Ok (Z.to_nat i)
  else if ((- Z.of_nat n <=? i) && (i <? 0))%Z
       then Ok (Z.to_nat (i + Z.of_nat n))
       else Raise IndexError.

(** [v[idx] = True] for an index vector [idx]. *)
Definition set_true (v : list bool) (idx : list Z) : result (list bool) :=
  js <- mapM (norm_index (List.length v)) idx ;;
  Ok (fold_left (fun v j => list_set v j true) js v).

(** The positions of the true entries. *)
Fixpoint flatnonzero_from (k : nat) (v : list bool) : list nat :=
  match v with
  | [] => []
  | b :: v' =>
      if b then k :: flatnonzero_from (S k) v' else flatnonzero_from (S k) v'
  end.

Definition flatnonzero (v : list bool) : list nat := flatnonzero_from 0 v.

(** [a[vecInc, :]]: the rows at which the boolean vector is true; the vector
    must have one entry per row. *)
Definition mask_rows {A : Type} (a : ndarray2 A) (vecInc : list bool)
  : result (ndarray2 A) :=
  if List.length vecInc =? fst (shape2 a)
  then Ok {| shape2 := (List.length (flatnonzero vecInc), snd (shape2 a));
             data2 := fun r c => data2 a (nth r (flatnonzero vecInc) 0) c |}
  else Raise IndexError.

(** The empty two-dimensional array. *)
Definition zeros2_0 {F : Type} `{Scalar F} : ndarray2 F :=
  {| shape2 := (0, 0); data2 := fun _ _ => lit 0%Q |}.

(** A list of counts that never goes up. *)
Fixpoint non_increasing (l : list nat) : Prop :=
  match l with
  | a :: (b :: _) as t => b <= a /\ non_increasing t
  | _ => True
  end.

(** A vector AND-ed with another keeps its length and loses entries, unless
    it has length 1 and is broadcast to a longer one. *)
Definition and_like (v v' : list bool) : Prop :=
  (List.length v' = List.length v /\ np_sum_bool v' <= np_sum_bool v)
  \/ (List.length v = 1 /\ List.length v' <> 1).

(** [v'] is the logical AND of the vectors [v] and [t] as numpy forms it:
    entry by entry, a vector of length 1 standing in for every entry of
    the other. *)
Definition anded (v t v' : list bool) : Prop :=
  List.length v'
  = (if List.length v =? 1 then List.length t else List.length v) /\
  forall i, i < List.length v' ->
    nth i v' false
    = nth (bidx (List.length v) i) v false
      && nth (bidx (List.length t) i) t false.

(** A selection state, the inclusion vector and the history of counts, whose
    last count is the count of the vector. *)
Definition count_ok (st : list bool * list nat) : Prop :=
  snd st <> [] /\ last (snd st) 0 = np_sum_bool (fst st).

(** What the function returns, and the values that [varNumInc] took in turn
    (the function prints them when [idxPrc] is 0). *)
Record slct_result (F : Type) : Type := {
  ret_lstDpthData01 : list (ndarray2 F);
  ret_varNumInc : nat;
  ret_vecInc : list bool;
  hist_varNumInc : list nat
}.

Section SlctVrtcs.

Context {F : Type} `{Scalar F}.

Local Open Scope scalar_scope.

(** Row [i] of a two-dimensional array. *)
Definition row (a : ndarray2 F) (i : nat) : list F :=
  map (data2 a i) (seq 0 (snd (shape2 a))).

(** [np.mean(a, axis=1)] *)
Definition mean_axis1 (a : ndarray2 F) : list F :=
  map (fun i => np_mean (row a i)) (seq 0 (fst (shape2 a))).

(** [np.min(a, axis=1)]: refused when the rows are empty. *)
Definition min_axis1 (a : ndarray2 F) : result (list F) :=
  if snd (shape2 a) =? 0 then Raise ValueError
  else mapM (fun i => np_min (row a i)) (seq 0 (fst (shape2 a))).

(** [np.greater(v, thr)] and [np.less(v, thr)] *)
Definition np_greater (v : list F) (thr : F) : list bool :=
  map (fun x => fltb thr x) v.

Definition np_less (v : list F) (thr : F) : list bool :=
  map (fun x => fltb x thr) v.

(** [x.astype(np.int64)]: rounding towards zero. *)
Definition astype_int64 (x : F) : Z :=
  if fltb x (lit 0%Q) then Z.opp (ffloor (lit 0%Q - x)) else ffloor x.

(** [a[:, 1].astype(np.int64)] *)
Definition column1_int64 (a : ndarray2 F) : result (list Z) :=
  if 1 <? snd (shape2 a)
  then Ok (map (fun i => astype_int64 (data2 a i 1)) (seq 0 (fst (shape2 a))))
  else Raise IndexError.

(** The inclusion vector and [varNumInc], after criterion 1. *)
Definition criterion1 (varOrigNumVtkVrtc : nat) (aryRoiVrtx : ndarray2 F)
  : result (list bool) :=
  vecRoiIdx <- column1_int64 aryRoiVrtx ;;
  (* re-initialise the inclusion vector and set it to 'True' only for
     vertices contained within the ROI: *)
  let vecInc := repeat false varOrigNumVtkVrtc in
  set_true vecInc vecRoiIdx.

Definition criterion2 (vecInc : list bool) (arySlct02 : ndarray2 F)
    (varThrSlct02 : F) : result (list bool) :=
  (* Get mean value across cortical depths: *)
  let vecMneSlct02 := mean_axis1 arySlct02 in
  (* Check whether vertex values are above the exclusion threshold: *)
  let vecSlct02 := np_greater vecMneSlct02 varThrSlct02 in
  np_logical_and vecInc vecSlct02.

Definition criterion3 (vecInc : list bool) (arySlct03 : ndarray2 F)
    (varThrSlct03 : F) : result (list bool) :=
  (* Get minimum value across cortical depths: *)
  vecMneSlct03 <- min_axis1 arySlct03 ;;
  (* Check whether vertex values are above the exclusion threshold: *)
  let vecSlct03 := np_greater vecMneSlct03 varThrSlct03 in
  np_logical_and vecInc vecSlct03.

Definition criterion4 (vecInc : list bool) (arySlct04 : ndarray2 F)
    (varThrSlct04 : F) : result (list bool) :=
  let vecMneSlct04 := mean_axis1 arySlct04 in
  let vecSlct04 := np_less vecMneSlct04 varThrSlct04 in
  np_logical_and vecInc vecSlct04.

(** A criterion that is switched on updates the inclusion vector and
    [varNumInc]; the history takes the new count. *)
Definition apply_criterion (lgcSlct : bool)
    (crit : list bool -> result (list bool))
    (st : list bool * list nat) : result (list bool * list nat) :=
  if lgcSlct then
    vecInc <- crit (fst st) ;;
    let varNumInc := np_sum_bool vecInc in
    Ok (vecInc, snd st ++ [varNumInc])
  else Ok st.

(** The loop through conditions, [for idxIn in range(0, varNumCon)]. *)
Fixpoint apply_inclusion (vecInc : list bool)
    (lstDpthData01 : list (ndarray2 F)) (idxs : list nat)
  : result (list (ndarray2 F)) :=
  match idxs with
  | [] => Ok lstDpthData01
  | idxIn :: idxs' =>
      match nth_error lstDpthData01 idxIn with
      | None => Raise IndexError
      | Some aryTmp =>
          (* Selcet vertices that survived all previous inclusion
             criteria: *)
          aryTmp <- mask_rows aryTmp vecInc ;;
          (* Put array back into list: *)
          apply_inclusion vecInc (list_set lstDpthData01 idxIn aryTmp) idxs'
      end
  end.

Definition funcSlctVrtcs (varNumCon : Z)
    (lstDpthData01 : list (ndarray2 F))
    (lgcSlct01 : bool) (aryRoiVrtx : ndarray2 F)
    (lgcSlct02 : bool) (arySlct02 : ndarray2 F) (varThrSlct02 : F)
    (lgcSlct03 : bool) (arySlct03 : ndarray2 F) (varThrSlct03 : F)
    (lgcSlct04 : bool) (arySlct04 : ndarray2 F) (varThrSlct04 : F)
    (idxPrc : Z) : result (slct_result F) :=
  (* Original number of vertices in mesh: *)
  varOrigNumVtkVrtc <-
    match lstDpthData01 with
    | [] => Raise IndexError
    | a :: _ => Ok (fst (shape2 a))
    end ;;
  (* Vertex inclusion vector: *)
  let vecInc := repeat true varOrigNumVtkVrtc in
  (* Initialise number of included vertices: *)
  let varNumInc := np_sum_bool vecInc in
  let st := (vecInc, [varNumInc]) in
  st <- apply_criterion lgcSlct01
          (fun _ => criterion1 varOrigNumVtkVrtc aryRoiVrtx) st ;;
  st <- apply_criterion lgcSlct02
          (fun vecInc => criterion2 vecInc arySlct02 varThrSlct02) st ;;
  st <- apply_criterion lgcSlct03
          (fun vecInc => criterion3 vecInc arySlct03 varThrSlct03) st ;;
  st <- apply_criterion lgcSlct04
          (fun vecInc => criterion4 vecInc arySlct04 varThrSlct04) st ;;
  let vecInc := fst st in
  (* Apply inclusion-vector to data: *)
  lstDpthData01 <-
    apply_inclusion vecInc lstDpthData01 (seq 0 (Z.to_nat varNumCon)) ;;
  Ok {| ret_lstDpthData01 := lstDpthData01;
        ret_varNumInc := last (snd st) 0;
        ret_vecInc := vecInc;
        hist_varNumInc := snd st |}.

End SlctVrtcs.

(** ** Concrete inputs *)

Module Examples.

Definition q (x : Q) : num := Some (Q2Qc x).

(** Two conditions at five depth levels. *)
Definition aryEmp5 : ndarray2 num :=
  of_list2 None [[q 1; q 1; q 1; q 1; q 1]; [q 2; q 3; q 4; q 5; q 6]].

(** Two iterations of noise: every factor is 1 in the first and 2 in the
    second. *)
Definition aryNseRnd : ndarray3 num :=
  of_list3 None
    [[[q 1; q 1; q 1; q 1; q 1]; [q 1; q 1; q 1; q 1; q 1]];
     [[q 2; q 2; q 2; q 2; q 2]; [q 2; q 2; q 2; q 2; q 2]]].

(** The same noise with another factor at depth index 0. *)
Definition aryNseRnd' : ndarray3 num :=
  of_list3 None
    [[[q 7; q 1; q 1; q 1; q 1]; [q 8; q 1; q 1; q 1; q 1]];
     [[q 9; q 2; q 2; q 2; q 2]; [q 3; q 2; q 2; q 2; q 2]]].

(** Raw draws of the generator, one per iteration, condition and depth
    level. *)
Definition draws (i c d : nat) : num :=
  q (inject_Z (Z.of_nat (i + d)) - inject_Z (Z.of_nat (2 * c))).

(** One condition, with signal in the deepest layer only. *)
Definition aryEmp5_deep : ndarray2 num :=
  of_list2 None [[q 19; q 0; q 0; q 0; q 0]].

(** A factor for every term: 5 for the term of layer V, 1 and 2 for the two
    terms of layer IV, 1 elsewhere. *)
Definition term_factor (k j : nat) : num :=
  match k, j with
  | 1, 0 => q 5
  | 2, 0 => q 2
  | _, _ => q 1
  end.

(** Three subjects, one condition, two depth levels. *)
Definition aryDpth : ndarray3 num :=
  of_list3 None [[[q 1; q 5]]; [[q 2; q 3]]; [[q 4; q 9]]].

(** Raw draws of the generator for the subject indices. *)
Definition rng (i s : nat) : nat := 2 * i + s * s.

End Examples.

(** A call of [funcSlctVrtcs] on a mesh of four vertices, with two data
    arrays, the region, and criteria 2 and 3 switched on. *)
Module SlctExample.

Import Examples.

Definition lstDpthData01 : list (ndarray2 num) :=
  [of_list2 None [[q 1; q 2]; [q 3; q 4]; [q 5; q 6]; [q 7; q 8]];
   of_list2 None [[q 9; q 8]; [q 7; q 6]; [q 5; q 4]; [q 3; q 2]]].

(** Vertices 0, 1 and 3 are in the region. *)
Definition aryRoiVrtx : ndarray2 num :=
  of_list2 None [[q 0; q 0]; [q 0; q 1]; [q 0; q 3]].

(** Means 5, 1/2, 3, 2 against the threshold 1. *)
Definition arySlct02 : ndarray2 num :=
  of_list2 None [[q 4; q 6]; [q 0; q 1]; [q 3; q 3]; [q 1; q 3]].

(** Minima 2, 2, 2, 0 against the threshold 1. *)
Definition arySlct03 : ndarray2 num :=
  of_list2 None [[q 2; q 6]; [q 2; q 5]; [q 3; q 2]; [q 0; q 3]].

Definition call : result (slct_result num) :=
  funcSlctVrtcs 2 lstDpthData01 true aryRoiVrtx true arySlct02 (q 1)
    true arySlct03 (q 1) false arySlct03 (q 0) 0.

(** The same call with [varNumCon] one less than the number of arrays. *)
Definition call_one : result (slct_result num) :=
  funcSlctVrtcs 1 lstDpthData01 true aryRoiVrtx true arySlct02 (q 1)
    true arySlct03 (q 1) false arySlct03 (q 0) 0.

(** A mesh of a single vertex, no array to cut ([varNumCon] zero) and
    criterion 2 with an array of four rows. *)
Definition lstOneVertex : list (ndarray2 num) :=
  [of_list2 None [[q 1; q 2]]].

Definition call_broadcast : result (slct_result num) :=
  funcSlctVrtcs 0 lstOneVertex false aryRoiVrtx true arySlct02 (q 1)
    false arySlct03 (q 1) false arySlct03 (q 0) 0.

(** What a call returns, if it returns. *)
Definition returned (c : result (slct_result num)) : slct_result num :=
  match c with
  | Ok r => r
  | Raise _ =>
      {| ret_lstDpthData01 := []; ret_varNumInc := 0; ret_vecInc := [];
         hist_varNumInc := [] |}
  end.

Definition ret : slct_result num :=
  match call with
  | Ok r => r
  | Raise _ =>
      {| ret_lstDpthData01 := []; ret_varNumInc := 0; ret_vecInc := [];
         hist_varNumInc := [] |}
  end.

End SlctExample.

(** Further concrete inputs. *)
(** ** drain_model_Huber2017.py: bootstrap samples for the peak positions *)

Section PeakBoot.

Context {F : Type} `{Scalar F}.

(** [np.mean(a[vecRnd, idxCon, :], axis=0)] for an index vector of length
    [n]: one mean per depth level.  An index beyond the array is
    refused. *)
Definition mean_resampled (a : ndarray3 F) (n : nat) (vecRnd : nat -> nat)
    (idxCon : nat) : result (list F) :=
  if forallb (fun s => vecRnd s <? dim3_0 a) (seq 0 n)
     && (idxCon <? dim3_1 a)
  then Ok (map (fun d =>
                  np_mean (map (fun s => data3 a (vecRnd s) idxCon d)
                               (seq 0 n)))
               (seq 0 (dim3_2 a)))
  else Raise IndexError.

(** [a[idxIt, :] = v]; a vector of length 1 is broadcast. *)
Definition set_row (a : ndarray2 F) (idxIt : nat) (v : list F)
  : result (ndarray2 F) :=
  if negb (idxIt <? fst (shape2 a)) then Raise IndexError
  else if (List.length v =? snd (shape2 a)) || (List.length v =? 1)
  then Ok {| shape2 := shape2 a;
             data2 := fun i d =>
               if i =? idxIt then nth (bidx (List.length v) d) v (lit 0%Q)
               else data2 a i d |}
  else Raise ValueError.

(** The loop that creates the array with bootstrap samples for one
    condition, from the array [ary] of single-subject profiles (before or
    after deconvolution). *)
Definition fill_aryBoo (aryRnd : ndarray2 nat) (ary : ndarray3 F)
    (varNumSub : nat) (varNumIt : nat) (idxCon : nat) (aryBoo : ndarray2 F)
  : result (ndarray2 F) :=
  fold_left
    (fun acc idxIt =>
       aryBoo <- acc ;;
       (* Take mean across subjects in bootstrap samples: *)
       v <- mean_resampled ary varNumSub (data2 aryRnd idxIt) idxCon ;;
       set_row aryBoo idxIt v)
    (seq 0 varNumIt) (Ok aryBoo).

End PeakBoot.

(** ** permutation_peak.py: the loop through the comparisons *)

(** Number of samples, the number of rows of the data frame. *)
Definition varNumSmpl (lenMetaCon lenMdl lenRoi lenDiff : nat) : nat :=
  lenMetaCon * lenMdl * lenRoi * lenDiff.

(** The loop through metaconditions, models, ROIs and comparisons, for
    lists of the given lengths.  The permutation test that the body calls
    is not part of these sources; kept are the counter [idxSmpl] and, for
    each pass through the body, the row label [idxSmpl] that the body
    writes to, with the four loop indices of the pass. *)
Definition peak_loop (lenMetaCon lenMdl lenRoi lenDiff : nat)
  : nat * list (nat * (nat * nat * nat * nat)) :=
  (* Counter for samples: *)
  let idxSmpl := 0 in
  fold_left
    (fun st idxMtaCn =>
       fold_left
         (fun st idxMdl =>
            fold_left
              (fun st idxRoi =>
                 fold_left
                   (fun st idxDiff =>
                      let idxSmpl := fst st in
                      (* Result to data frame: *)
                      let written :=
                        snd st
                        ++ [(idxSmpl, (idxMtaCn, idxMdl, idxRoi, idxDiff))] in
                      (* Increment counter: *)
                      (idxSmpl + 1, written))
                   (seq 0 lenDiff) st)
              (seq 0 lenRoi) st)
         (seq 0 lenMdl) st)
    (seq 0 lenMetaCon) (idxSmpl, []).

Module MoreExamples.

Import Examples.

(** One condition at six depth levels, and one iteration of noise for it. *)
Definition aryEmp6 : ndarray2 num :=
  of_list2 None [[q 2; q 3; q 4; q 5; q 6; q 99]].

Definition aryNse6 : ndarray3 num :=
  of_list3 None [[[q 0; q 2; q 2; q 2; q 2; q 7]]].

(** Two iterations of noise with every factor 1. *)
Definition aryNseOne : ndarray3 num :=
  of_list3 None
    [[[q 1; q 1; q 1; q 1; q 1]; [q 1; q 1; q 1; q 1; q 1]];
     [[q 1; q 1; q 1; q 1; q 1]; [q 1; q 1; q 1; q 1; q 1]]].

(** Three subjects, one condition, two depth levels: the subjects agree at
    the first depth level, and have at the second the values that the
    subjects of the first example have at the first. *)
Definition aryDpthB : ndarray3 num :=
  of_list3 None [[[q 7; q 1]]; [[q 7; q 2]]; [[q 7; q 4]]].

(** The BOLD profile of the script, from white matter to CSF, on its
    original scale: twenty depth levels. *)
Definition aryEmpBold_row : list num :=
  map (fun z => q (inject_Z z * 0.01))
    [190; 203; 307; 385; 414; 440; 471; 473; 454; 459;
     483; 516; 613; 757; 915; 1026; 1105; 1051; 865; 627]%Z.

(** A profile at the five layers. *)
Definition aryDecon5_row : list num := [q 1; q 2; q 3; q 4; q 5].

(** No subject, one condition, two depth levels. *)
Definition aryNoSubject : ndarray3 num :=
  {| shape3 := (0, 1, 2); data3 := fun _ _ _ => q 0 |}.

(** Three times the two profiles of the first example. *)
Definition aryEmp5_times3 : ndarray2 num :=
  of_list2 None [[q 3; q 3; q 3; q 3; q 3]; [q 6; q 9; q 12; q 15; q 18]].

(** The value of a finite number. *)
Definition value (x : num) : Qc :=
  match x with
  | Some v => v
  | None => Q2Qc 0
  end.

End MoreExamples.

(** * Properties *)

Unset Implicit Arguments.

(** ** The error monad *)

Lemma bind_Ok_inv {A B : Type} (m : result A) (k : A -> result B) (b : B) :
  bind m k = Ok b -> exists a, m = Ok a /\ k a = Ok b.
Proof.
  destruct m as [a | e]; simpl; intros H; [eauto | discriminate].
Qed.

(** Break a successful bind into its two steps. *)
Ltac bind_inv H :=
  let a := fresh "a" in
  let Ha := fresh "Hstep" in
  apply bind_Ok_inv in H; destruct H as (a & Ha & H).

Ltac ok_inv H := injection H as H; try subst.

Ltac bind_as H a Ha :=
  apply bind_Ok_inv in H; destruct H as (a & Ha & H).

(** ** Broadcasting *)

Lemma bidx_lt (n i : nat) : i < n -> bidx n i = i.
Proof.
  unfold bidx; intros Hi.
  destruct (Nat.eqb_spec n 1); [lia | reflexivity].
Qed.

Lemma bdim_refl (n : nat) : bdim n n = Ok n.
Proof. unfold bdim; now rewrite Nat.eqb_refl. Qed.

Lemma bdim_1_l (n : nat) : bdim 1 n = Ok n.
Proof.
  unfold bdim; destruct (Nat.eqb_spec 1 n); [now subst | reflexivity].
Qed.

Lemma bdim_1_r (n : nat) : bdim n 1 = Ok n.
Proof.
  unfold bdim; destruct (Nat.eqb_spec n 1); [reflexivity |].
  destruct (Nat.eqb_spec n 1); [lia | reflexivity].
Qed.

Lemma bdim_Ok (n m r : nat) :
  bdim n m = Ok r -> (n = m /\ r = n) \/ (n = 1 /\ r = m) \/ (m = 1 /\ r = n).
Proof.
  unfold bdim.
  destruct (Nat.eqb_spec n m); [intros [= <-]; auto |].
  destruct (Nat.eqb_spec n 1); [intros [= <-]; auto |].
  destruct (Nat.eqb_spec m 1); [intros [= <-]; auto | discriminate].
Qed.

(** Reading an operand through the broadcast shape and then through its own
    is reading it through its own. *)
Lemma bidx_bdim_l (n m r i : nat) :
  bdim n m = Ok r -> bidx n (bidx r i) = bidx n i.
Proof.
  intros Hb; apply bdim_Ok in Hb; unfold bidx.
  destruct (Nat.eqb_spec n 1); [reflexivity |].
  destruct (Nat.eqb_spec r 1); [lia | reflexivity].
Qed.

Lemma bidx_bdim_r (n m r i : nat) :
  bdim n m = Ok r -> bidx m (bidx r i) = bidx m i.
Proof.
  intros Hb; apply bdim_Ok in Hb; unfold bidx.
  destruct (Nat.eqb_spec m 1); [reflexivity |].
  destruct (Nat.eqb_spec r 1); [lia | reflexivity].
Qed.

Lemma broadcast2_Ok {A} (op : A -> A -> A) (x y z : ndarray2 A) :
  broadcast2 op x y = Ok z ->
  bdim (fst (shape2 x)) (fst (shape2 y)) = Ok (fst (shape2 z)) /\
  bdim (snd (shape2 x)) (snd (shape2 y)) = Ok (snd (shape2 z)) /\
  forall i c, bget z i c = op (bget x i c) (bget y i c).
Proof.
  unfold broadcast2; intros Hz.
  bind_inv Hz; bind_inv Hz; ok_inv Hz; simpl.
  repeat split; try assumption.
  intros i c; unfold bget; simpl.
  now rewrite (bidx_bdim_l _ _ _ _ Hstep), (bidx_bdim_r _ _ _ _ Hstep),
    (bidx_bdim_l _ _ _ _ Hstep0), (bidx_bdim_r _ _ _ _ Hstep0).
Qed.

Lemma slice3_Ok {A} (a : ndarray3 A) (k : nat) (s : ndarray2 A) :
  slice3 a k = Ok s ->
  k < dim3_2 a /\ shape2 s = fst (shape3 a) /\
  forall i c, data2 s i c = data3 a i c k.
Proof.
  unfold slice3; destruct (Nat.ltb_spec k (dim3_2 a)); [| discriminate].
  intros Hs; ok_inv Hs; simpl; auto.
Qed.

Lemma slice2_None_Ok {A} (a : ndarray2 A) (k : nat) (s : ndarray2 A) :
  slice2_None a k = Ok s ->
  k < snd (shape2 a) /\ shape2 s = (1, fst (shape2 a)) /\
  forall i c, data2 s i c = data2 a c k.
Proof.
  unfold slice2_None; destruct (Nat.ltb_spec k (snd (shape2 a)));
    [| discriminate].
  intros Hs; ok_inv Hs; simpl; auto.
Qed.

Lemma assign3_Ok {A} (a : ndarray3 A) (k : nat) (v : ndarray2 A)
    (a' : ndarray3 A) :
  assign3 a k v = Ok a' ->
  k < dim3_2 a /\ shape3 a' = shape3 a /\
  (fst (shape2 v) = dim3_0 a \/ fst (shape2 v) = 1) /\
  (snd (shape2 v) = dim3_1 a \/ snd (shape2 v) = 1) /\
  forall i c d, data3 a' i c d = if d =? k then bget v i c else data3 a i c d.
Proof.
  unfold assign3; destruct (Nat.ltb_spec k (dim3_2 a)); [| discriminate].
  destruct (_ && _) eqn:Hshape; [| discriminate].
  intros Ha; ok_inv Ha; simpl.
  apply andb_prop in Hshape; destruct Hshape as [H0 H1].
  apply orb_prop in H0; apply orb_prop in H1.
  rewrite !Nat.eqb_eq in H0, H1; auto.
Qed.

(** ** deconv_04 *)

Section Deconv04_Props.

Context {F : Type} `{Scalar F}.

Local Open Scope scalar_scope.

(** One subtraction of a draining term, entry by entry. *)
Lemma sub2_drain_Ok (x z : ndarray2 F) (p q : Q) (nrn nse : ndarray3 F)
    (j k : nat) :
  sub2 x (drain_term p q nrn nse j k) = Ok z ->
  j < dim3_2 nrn /\ k < dim3_2 nse /\
  (exists t0 t1,
      bdim (dim3_0 nrn) (dim3_0 nse) = Ok t0 /\
      bdim (dim3_1 nrn) (dim3_1 nse) = Ok t1 /\
      bdim (fst (shape2 x)) t0 = Ok (fst (shape2 z)) /\
      bdim (snd (shape2 x)) t1 = Ok (snd (shape2 z))) /\
  forall i c,
    bget z i c
    = bget x i c
      - (lit p / lit q
         * data3 nrn (bidx (dim3_0 nrn) i) (bidx (dim3_1 nrn) c) j)
        * data3 nse (bidx (dim3_0 nse) i) (bidx (dim3_1 nse) c) k.
Proof.
  unfold sub2, drain_term; intros Hz.
  bind_inv Hz; bind_inv Hstep; bind_inv Hstep.
  apply slice3_Ok in Hstep0, Hstep1.
  destruct Hstep0 as (Hj & Hsn & Hdn), Hstep1 as (Hk & Hss & Hds).
  apply broadcast2_Ok in Hstep, Hz.
  destruct Hstep as (Ht0 & Ht1 & Ht), Hz as (Hz0 & Hz1 & Hz).
  simpl in Ht0, Ht1; rewrite Hsn, Hss in Ht0, Ht1.
  repeat split; try assumption.
  - exists (fst (shape2 a)), (snd (shape2 a)); auto.
  - intros i c; rewrite Hz, Ht; unfold bget; simpl.
    now rewrite Hdn, Hds, Hsn, Hss.
Qed.


(** What a successful run computes, entry by entry. *)
Lemma deconv_04_Ok_inv (varNumCon : Z) (aryEmp5 : ndarray2 F)
    (aryNseRnd out : ndarray3 F) :
  deconv_04 varNumCon aryEmp5 aryNseRnd = Ok out ->
  shape3 out
  = (dim3_0 aryNseRnd, fst (shape2 aryEmp5), snd (shape2 aryEmp5)) /\
  4 < snd (shape2 aryEmp5) /\ 4 < dim3_2 aryNseRnd /\
  (dim3_1 aryNseRnd = fst (shape2 aryEmp5) \/ dim3_1 aryNseRnd = 1) /\
  forall i c, i < dim3_0 aryNseRnd -> c < fst (shape2 aryEmp5) ->
    let o := data3 out i c in
    let e := data2 aryEmp5 c in
    let n := noise_factor aryNseRnd i c in
    o 0 = e 0 /\
    o 1 = e 1 - (lit 0.6%Q / lit 1.9%Q * o 0) * n 1 /\
    o 2 = e 2 - (lit 0.3%Q / lit 1.5%Q * o 1) * n 2
              - (lit 0.6%Q / lit 1.9%Q * o 0) * n 2 /\
    o 3 = e 3 - (lit 1.3%Q / lit 2.2%Q * o 2) * n 3
              - (lit 0.3%Q / lit 1.5%Q * o 1) * n 3
              - (lit 0.5%Q / lit 1.9%Q * o 0) * n 3 /\
    o 4 = e 4 - (lit 0.7%Q / lit 1.7%Q * o 3) * n 4
              - (lit 1.3%Q / lit 2.2%Q * o 2) * n 4
              - (lit 0.3%Q / lit 1.5%Q * o 1) * n 4
              - (lit 0.5%Q / lit 1.9%Q * o 0) * n 4 /\
    forall d, 4 < d -> o d = lit 0%Q.
Proof.
  unfold deconv_04; intros Hd.
  bind_as Hd e0 He0. bind_as Hd n1 Hn1.
  bind_as Hd e1 He1. bind_as Hd v1 Hv1. bind_as Hd n2 Hn2.
  bind_as Hd e2 He2. bind_as Hd v2a Hv2a. bind_as Hd v2 Hv2.
  bind_as Hd n3 Hn3.
  bind_as Hd e3 He3. bind_as Hd v3a Hv3a. bind_as Hd v3b Hv3b.
  bind_as Hd v3 Hv3. bind_as Hd n4 Hn4.
  bind_as Hd e4 He4. bind_as Hd v4a Hv4a. bind_as Hd v4b Hv4b.
  bind_as Hd v4c Hv4c. bind_as Hd v4 Hv4. bind_as Hd n5 Hn5.
  ok_inv Hd.
  apply slice2_None_Ok in He0, He1, He2, He3, He4.
  destruct He0 as (_ & Se0 & De0), He1 as (_ & Se1 & De1),
    He2 as (_ & Se2 & De2), He3 as (_ & Se3 & De3),
    He4 as (Hcols & Se4 & De4).
  apply assign3_Ok in Hn1, Hn2, Hn3, Hn4, Hn5.
  destruct Hn1 as (_ & S1 & _ & _ & D1), Hn2 as (_ & S2 & _ & _ & D2),
    Hn3 as (_ & S3 & _ & _ & D3), Hn4 as (_ & S4 & _ & _ & D4),
    Hn5 as (_ & S5 & _ & Hv4s & D5).
  simpl in S1; rewrite S1 in S2; rewrite S2 in S3; rewrite S3 in S4;
    rewrite S4 in S5.
  apply sub2_drain_Ok in Hv1, Hv2a, Hv2, Hv3a, Hv3b, Hv3, Hv4a, Hv4b,
    Hv4c, Hv4.
  destruct Hv1 as (_ & _ & _ & B1), Hv2a as (_ & _ & _ & B2a),
    Hv2 as (_ & _ & _ & B2), Hv3a as (_ & _ & _ & B3a),
    Hv3b as (_ & _ & _ & B3b), Hv3 as (_ & _ & _ & B3),
    Hv4a as (_ & _ & _ & B4a), Hv4b as (_ & _ & _ & B4b),
    Hv4c as (_ & _ & _ & B4c), Hv4 as (_ & Hnse & Hbc & B4).
  split; [exact S5 |]. split; [exact Hcols |]. split; [exact Hnse |].
  split.
  { destruct Hbc as (t0 & t1 & _ & Hb1 & _ & Hb2).
    unfold dim3_1 in Hb1, Hv4s |- *; rewrite S4 in Hb1, Hv4s;
      cbn [fst snd] in Hb1, Hv4s.
    apply bdim_Ok in Hb1, Hb2; lia. }
  intros i c Hi Hc; cbv zeta; unfold noise_factor.
  specialize (B1 i c); specialize (B2a i c); specialize (B2 i c);
    specialize (B3a i c); specialize (B3b i c); specialize (B3 i c);
    specialize (B4a i c); specialize (B4b i c); specialize (B4c i c);
    specialize (B4 i c).
  assert (A : forall a : ndarray3 F,
             shape3 a = (dim3_0 aryNseRnd, fst (shape2 aryEmp5),
                         snd (shape2 aryEmp5)) ->
             bidx (dim3_0 a) i = i /\ bidx (dim3_1 a) c = c).
  { intros a Sa; unfold dim3_0 at 1; unfold dim3_1; rewrite Sa;
      cbn [fst snd].
    split; now apply bidx_lt. }
  destruct (A _ S1) as [A10 A11], (A _ S2) as [A20 A21],
    (A _ S3) as [A30 A31], (A _ S4) as [A40 A41].
  pose proof (bidx_lt _ _ Hi) as Ai.
  rewrite A10, A11, Ai in B1.
  rewrite A20, A21, Ai in B2a, B2.
  rewrite A30, A31, Ai in B3a, B3b, B3.
  rewrite A40, A41, Ai in B4a, B4b, B4c, B4.
  assert (E0 : forall a : ndarray2 F,
             shape2 a = (1, fst (shape2 aryEmp5)) ->
             bget a i c = data2 a 0 c).
  { intros a Sa; unfold bget; rewrite Sa; cbn [fst snd].
    now rewrite (bidx_lt _ _ Hc). }
  rewrite (E0 _ Se1), De1 in B1. rewrite (E0 _ Se2), De2 in B2a.
  rewrite (E0 _ Se3), De3 in B3a. rewrite (E0 _ Se4), De4 in B4a.
  assert (O0 : data3 n1 i c 0 = data2 aryEmp5 c 0).
  { now rewrite D1, (E0 _ Se0), De0. }
  assert (O1 : data3 n2 i c 1 = bget v1 i c) by now rewrite D2.
  assert (O2 : data3 n3 i c 2 = bget v2 i c) by now rewrite D3.
  assert (O3 : data3 n4 i c 3 = bget v3 i c) by now rewrite D4.
  assert (O4 : data3 out i c 4 = bget v4 i c) by now rewrite D5.
  assert (K4 : forall d, d <> 4 -> data3 out i c d = data3 n4 i c d).
  { intros d Hd4; rewrite D5.
    destruct (Nat.eqb_spec d 4); [contradiction | reflexivity]. }
  assert (K3 : forall d, d <> 3 -> data3 n4 i c d = data3 n3 i c d).
  { intros d Hd3; rewrite D4.
    destruct (Nat.eqb_spec d 3); [contradiction | reflexivity]. }
  assert (K2 : forall d, d <> 2 -> data3 n3 i c d = data3 n2 i c d).
  { intros d Hd2; rewrite D3.
    destruct (Nat.eqb_spec d 2); [contradiction | reflexivity]. }
  assert (K1 : forall d, d <> 1 -> data3 n2 i c d = data3 n1 i c d).
  { intros d Hd1; rewrite D2.
    destruct (Nat.eqb_spec d 1); [contradiction | reflexivity]. }
  assert (P0 : data3 out i c 0 = data3 n1 i c 0).
  { rewrite K4, K3, K2, K1 by lia; reflexivity. }
  assert (P1 : data3 out i c 1 = data3 n2 i c 1).
  { rewrite K4, K3, K2 by lia; reflexivity. }
  assert (P2 : data3 out i c 2 = data3 n3 i c 2).
  { rewrite K4, K3 by lia; reflexivity. }
  assert (P3 : data3 out i c 3 = data3 n4 i c 3).
  { rewrite K4 by lia; reflexivity. }
  assert (Q10 : data3 n2 i c 0 = data3 n1 i c 0) by (apply K1; lia).
  assert (Q20 : data3 n3 i c 0 = data3 n1 i c 0).
  { rewrite K2, K1 by lia; reflexivity. }
  assert (Q21 : data3 n3 i c 1 = data3 n2 i c 1) by (apply K2; lia).
  assert (Q30 : data3 n4 i c 0 = data3 n1 i c 0).
  { rewrite K3, K2, K1 by lia; reflexivity. }
  assert (Q31 : data3 n4 i c 1 = data3 n2 i c 1).
  { rewrite K3, K2 by lia; reflexivity. }
  assert (Q32 : data3 n4 i c 2 = data3 n3 i c 2) by (apply K3; lia).
  rewrite P0, P1, P2, P3, O4.
  rewrite Q10 in B2. rewrite Q20 in B3. rewrite Q21 in B3b.
  rewrite Q30 in B4. rewrite Q31 in B4c. rewrite Q32 in B4b.
  repeat split.
  - exact O0.
  - rewrite O1; exact B1.
  - rewrite O2, B2, B2a; reflexivity.
  - rewrite O3, B3, B3b, B3a; reflexivity.
  - rewrite B4, B4c, B4b, B4a; reflexivity.
  - intros d Hd; rewrite K4, K3, K2, K1, D1 by lia.
    destruct (Nat.eqb_spec d 0); [lia | reflexivity].
Qed.


Lemma slice2_None_total (a : ndarray2 F) (k : nat) :
  k < snd (shape2 a) ->
  exists s, slice2_None a k = Ok s /\ shape2 s = (1, fst (shape2 a)).
Proof.
  intros Hk; unfold slice2_None.
  destruct (Nat.ltb_spec k (snd (shape2 a))); [| lia].
  eexists; split; reflexivity.
Qed.

Lemma assign3_total (a : ndarray3 F) (k : nat) (v : ndarray2 F) :
  k < dim3_2 a ->
  fst (shape2 v) = dim3_0 a \/ fst (shape2 v) = 1 ->
  snd (shape2 v) = dim3_1 a \/ snd (shape2 v) = 1 ->
  exists a', assign3 a k v = Ok a' /\ shape3 a' = shape3 a.
Proof.
  intros Hk H0 H1; unfold assign3.
  destruct (Nat.ltb_spec k (dim3_2 a)); [| lia].
  assert (Hs : ((fst (shape2 v) =? dim3_0 a) || (fst (shape2 v) =? 1))
               && ((snd (shape2 v) =? dim3_1 a) || (snd (shape2 v) =? 1))
               = true).
  { apply andb_true_intro; split; apply orb_true_intro;
      rewrite !Nat.eqb_eq; assumption. }
  rewrite Hs; eexists; split; reflexivity.
Qed.

Lemma sub2_drain_total (x : ndarray2 F) (p q : Q) (nrn nse : ndarray3 F)
    (j k : nat) :
  j < dim3_2 nrn -> k < dim3_2 nse ->
  dim3_0 nse = dim3_0 nrn ->
  dim3_1 nse = dim3_1 nrn \/ dim3_1 nse = 1 ->
  fst (shape2 x) = 1 \/ fst (shape2 x) = dim3_0 nrn ->
  snd (shape2 x) = dim3_1 nrn ->
  exists z, sub2 x (drain_term p q nrn nse j k) = Ok z /\
            shape2 z = (dim3_0 nrn, dim3_1 nrn).
Proof.
  intros Hj Hk H0 H1 Hx0 Hx1.
  unfold sub2, drain_term, slice3, broadcast2.
  destruct (Nat.ltb_spec j (dim3_2 nrn)); [| lia].
  destruct (Nat.ltb_spec k (dim3_2 nse)); [| lia].
  cbn [bind scale2 shape2].
  fold (dim3_0 nrn) (dim3_1 nrn) (dim3_0 nse) (dim3_1 nse).
  rewrite H0, bdim_refl; cbn [bind].
  assert (B1 : bdim (dim3_1 nrn) (dim3_1 nse) = Ok (dim3_1 nrn)).
  { destruct H1 as [-> | ->]; [apply bdim_refl | apply bdim_1_r]. }
  rewrite B1; cbn [bind shape2 fst snd].
  assert (B0 : bdim (fst (shape2 x)) (dim3_0 nrn) = Ok (dim3_0 nrn)).
  { destruct Hx0 as [-> | ->]; [apply bdim_1_l | apply bdim_refl]. }
  rewrite B0, Hx1, bdim_refl; cbn [bind].
  eexists; split; reflexivity.
Qed.

Ltac shape_side :=
  match goal with
  | Hs : shape2 ?v = _ |- context [shape2 ?v] =>
      rewrite Hs; cbn [fst snd]; auto
  end.

(** The function returns on every input of the documented shapes: five
    depth levels (or more) in both arrays and, in the noise array, a row
    per condition or a single row. *)
Lemma deconv_04_total (varNumCon : Z) (aryEmp5 : ndarray2 F)
    (aryNseRnd : ndarray3 F) :
  4 < snd (shape2 aryEmp5) -> 4 < dim3_2 aryNseRnd ->
  dim3_1 aryNseRnd = fst (shape2 aryEmp5) \/ dim3_1 aryNseRnd = 1 ->
  exists out, deconv_04 varNumCon aryEmp5 aryNseRnd = Ok out.
Proof.
  intros He Hn Hc; unfold deconv_04.
  set (z := zeros3 _).
  assert (Sz : shape3 z = (dim3_0 aryNseRnd, fst (shape2 aryEmp5),
                           snd (shape2 aryEmp5))) by reflexivity.
  clearbody z.
  assert (step_e : forall k, k < 5 ->
    exists s, slice2_None aryEmp5 k = Ok s /\
              shape2 s = (1, fst (shape2 aryEmp5))).
  { intros k Hk; apply slice2_None_total; lia. }
  assert (step_a : forall (a : ndarray3 F) k v,
    shape3 a = shape3 z -> k < 5 ->
    (fst (shape2 v) = 1 \/ fst (shape2 v) = dim3_0 aryNseRnd) ->
    snd (shape2 v) = fst (shape2 aryEmp5) ->
    exists a', assign3 a k v = Ok a' /\ shape3 a' = shape3 z).
  { intros a k v Sa Hk Hv0 Hv1.
    destruct (assign3_total a k v) as (a' & Ha' & Sa').
    - unfold dim3_2; rewrite Sa, Sz; cbn; lia.
    - unfold dim3_0 at 1; rewrite Sa, Sz; cbn [fst snd]; tauto.
    - unfold dim3_1; rewrite Sa, Sz; cbn [fst snd]; tauto.
    - exists a'; split; [assumption | congruence]. }
  assert (step_v : forall (a : ndarray3 F) x p q j k,
    shape3 a = shape3 z -> j < 5 -> k < 5 ->
    (fst (shape2 x) = 1 \/ fst (shape2 x) = dim3_0 aryNseRnd) ->
    snd (shape2 x) = fst (shape2 aryEmp5) ->
    exists v, sub2 x (drain_term p q a aryNseRnd j k) = Ok v /\
              shape2 v = (dim3_0 aryNseRnd, fst (shape2 aryEmp5))).
  { intros a x p q j k Sa Hj Hk Hx0 Hx1.
    assert (D0 : dim3_0 a = dim3_0 aryNseRnd).
    { unfold dim3_0 at 1; rewrite Sa, Sz; reflexivity. }
    assert (D1 : dim3_1 a = fst (shape2 aryEmp5)).
    { unfold dim3_1; rewrite Sa, Sz; reflexivity. }
    destruct (sub2_drain_total x p q a aryNseRnd j k) as (v & Hv & Sv);
      rewrite ?D0, ?D1; try tauto; try lia.
    - unfold dim3_2; rewrite Sa, Sz; cbn; lia.
    - exists v; split; [assumption | now rewrite Sv, D0, D1]. }
  repeat
    match goal with
    | |- exists _, bind (slice2_None _ ?k) _ = _ =>
        let e := fresh "e" in
        let He := fresh "He" in
        destruct (step_e k) as (e & He & ?); [lia |];
        rewrite He; cbn [bind]
    | |- exists _, bind (assign3 ?a ?k ?v) _ = _ =>
        let n := fresh "n" in
        let Hn := fresh "Hn" in
        destruct (step_a a k v) as (n & Hn & ?);
        [first [reflexivity | assumption] | lia
        | shape_side | shape_side |];
        rewrite Hn; cbn [bind]
    | |- exists _, bind (sub2 ?x (drain_term ?p ?q ?a _ ?j ?k)) _ = _ =>
        let v := fresh "v" in
        let Hv := fresh "Hv" in
        destruct (step_v a x p q j k) as (v & Hv & ?);
        [first [reflexivity | assumption] | lia | lia
        | shape_side | shape_side |];
        rewrite Hv; cbn [bind]
    end.
  eexists; reflexivity.
Qed.


(** Every layer of a successful run follows the scheme of model 4. *)
Lemma deconv_04_noisy_scheme (varNumCon : Z) (aryEmp5 : ndarray2 F)
    (aryNseRnd out : ndarray3 F) :
  deconv_04 varNumCon aryEmp5 aryNseRnd = Ok out ->
  forall i c k,
    i < dim3_0 aryNseRnd -> c < fst (shape2 aryEmp5) -> k < 5 ->
    data3 out i c k
    = noisy_scheme (noise_factor aryNseRnd i c k) (data2 aryEmp5 c k)
        (data3 out i c) k.
Proof.
  intros Hd i c k Hi Hc Hk.
  destruct (deconv_04_Ok_inv _ _ _ _ Hd) as (_ & _ & _ & _ & Hinv).
  destruct (Hinv i c Hi Hc) as (E0 & E1 & E2 & E3 & E4 & _).
  do 5 (destruct k as [| k]; [assumption |]); lia.
Qed.

(** Two runs whose inputs agree up to depth index [k] agree at [k]. *)
Lemma deconv_04_prefix (vn vn' : Z) (emp emp' : ndarray2 F)
    (nse nse' out out' : ndarray3 F) (k : nat) :
  deconv_04 vn emp nse = Ok out ->
  deconv_04 vn' emp' nse' = Ok out' ->
  shape2 emp' = shape2 emp -> shape3 nse' = shape3 nse ->
  (forall c d, d <= k -> data2 emp' c d = data2 emp c d) ->
  (forall i c d, 0 < d <= k -> data3 nse' i c d = data3 nse i c d) ->
  forall i c, i < dim3_0 nse -> c < fst (shape2 emp) ->
    data3 out' i c k = data3 out i c k.
Proof.
  intros Hd Hd' Se Sn He Hn i c Hi Hc.
  destruct (deconv_04_Ok_inv _ _ _ _ Hd) as (_ & _ & _ & _ & Hinv).
  destruct (deconv_04_Ok_inv _ _ _ _ Hd') as (_ & _ & _ & _ & Hinv').
  assert (Hi' : i < dim3_0 nse') by (unfold dim3_0; now rewrite Sn).
  assert (Hc' : c < fst (shape2 emp')) by now rewrite Se.
  destruct (Hinv i c Hi Hc) as (E0 & E1 & E2 & E3 & E4 & Ez).
  destruct (Hinv' i c Hi' Hc') as (E0' & E1' & E2' & E3' & E4' & Ez').
  assert (Hf : forall d, 0 < d <= k ->
               noise_factor nse' i c d = noise_factor nse i c d).
  { intros d Hd0; unfold noise_factor, dim3_1; rewrite Sn; now apply Hn. }
  assert (P0 : data3 out' i c 0 = data3 out i c 0).
  { rewrite E0, E0'; apply He; lia. }
  destruct k as [| k]; [exact P0 |].
  assert (P1 : data3 out' i c 1 = data3 out i c 1).
  { rewrite E1, E1', P0, He, Hf by lia; reflexivity. }
  destruct k as [| k]; [exact P1 |].
  assert (P2 : data3 out' i c 2 = data3 out i c 2).
  { rewrite E2, E2', P0, P1, He, Hf by lia; reflexivity. }
  destruct k as [| k]; [exact P2 |].
  assert (P3 : data3 out' i c 3 = data3 out i c 3).
  { rewrite E3, E3', P0, P1, P2, He, Hf by lia; reflexivity. }
  destruct k as [| k]; [exact P3 |].
  destruct k as [| k].
  - rewrite E4, E4', P0, P1, P2, P3, He, Hf by lia; reflexivity.
  - rewrite Ez, Ez' by lia; reflexivity.
Qed.

(** C2.  For every profile with five depth levels and every noise array
    that fits it, the function returns, and the corrected value at the
    deepest layer (depth index 0) is the observed value at that layer, in
    every iteration and for every condition. *)
Theorem deconv_04_deepest_layer_unchanged (varNumCon : Z)
    (aryEmp5 : ndarray2 F) (aryNseRnd : ndarray3 F) :
  4 < snd (shape2 aryEmp5) -> 4 < dim3_2 aryNseRnd ->
  dim3_1 aryNseRnd = fst (shape2 aryEmp5) \/ dim3_1 aryNseRnd = 1 ->
  exists out,
    deconv_04 varNumCon aryEmp5 aryNseRnd = Ok out /\
    forall i c, i < dim3_0 aryNseRnd -> c < fst (shape2 aryEmp5) ->
      data3 out i c 0 = data2 aryEmp5 c 0.
Proof.
  intros He Hn Hc.
  destruct (deconv_04_total varNumCon aryEmp5 aryNseRnd He Hn Hc)
    as (out & Hout).
  exists out; split; [assumption |].
  intros i c Hi Hci.
  destruct (deconv_04_Ok_inv _ _ _ _ Hout) as (_ & _ & _ & _ & Hinv).
  now destruct (Hinv i c Hi Hci) as (E0 & _).
Qed.


(** C9.  The output at the deepest layer (depth index 0) is the same in
    all iterations and does not depend on the noise array: for two noise
    arrays of the same shape both runs return and their deepest-layer
    slices coincide, across iterations too; and the noise at depth index 0
    is never read, two noise arrays that differ only there give the same
    output. *)
Theorem deconv_04_deepest_layer_noise_independent (varNumCon : Z)
    (aryEmp5 : ndarray2 F) (aryNseRnd aryNseRnd' : ndarray3 F) :
  4 < snd (shape2 aryEmp5) -> 4 < dim3_2 aryNseRnd ->
  dim3_1 aryNseRnd = fst (shape2 aryEmp5) \/ dim3_1 aryNseRnd = 1 ->
  shape3 aryNseRnd' = shape3 aryNseRnd ->
  exists out out',
    deconv_04 varNumCon aryEmp5 aryNseRnd = Ok out /\
    deconv_04 varNumCon aryEmp5 aryNseRnd' = Ok out' /\
    shape3 out' = shape3 out /\
    (forall i i' c,
        i < dim3_0 aryNseRnd -> i' < dim3_0 aryNseRnd ->
        c < fst (shape2 aryEmp5) ->
        data3 out i c 0 = data3 out' i' c 0) /\
    ((forall i c d, 0 < d -> data3 aryNseRnd' i c d = data3 aryNseRnd i c d) ->
     forall i c d, i < dim3_0 aryNseRnd -> c < fst (shape2 aryEmp5) ->
       data3 out' i c d = data3 out i c d).
Proof.
  intros He Hn Hc Hs.
  assert (Hn' : 4 < dim3_2 aryNseRnd') by (unfold dim3_2; now rewrite Hs).
  assert (Hc' : dim3_1 aryNseRnd' = fst (shape2 aryEmp5)
                \/ dim3_1 aryNseRnd' = 1)
    by (unfold dim3_1 in *; now rewrite Hs).
  destruct (deconv_04_total varNumCon aryEmp5 aryNseRnd He Hn Hc)
    as (out & Hout).
  destruct (deconv_04_total varNumCon aryEmp5 aryNseRnd' He Hn' Hc')
    as (out' & Hout').
  exists out, out'; split; [assumption |]; split; [assumption |].
  destruct (deconv_04_Ok_inv _ _ _ _ Hout) as (S & _ & _ & _ & Hinv).
  destruct (deconv_04_Ok_inv _ _ _ _ Hout') as (S' & _ & _ & _ & Hinv').
  split; [| split].
  - rewrite S, S'; unfold dim3_0; now rewrite Hs.
  - intros i i' c Hi Hi' Hci.
    assert (Hi'' : i' < dim3_0 aryNseRnd') by (unfold dim3_0; now rewrite Hs).
    destruct (Hinv i c Hi Hci) as (E0 & _).
    destruct (Hinv' i' c Hi'' Hci) as (E0' & _).
    now rewrite E0, E0'.
  - intros Hagree i c d Hi Hci.
    apply (deconv_04_prefix varNumCon varNumCon aryEmp5 aryEmp5
             aryNseRnd aryNseRnd' out out' d); auto.
    intros i0 c0 d0 Hd0; apply Hagree; lia.
Qed.

(** C1, as amended.  Every run on a profile with five depth levels
    returns, and computes the layers from the deepest to the most
    superficial: the corrected value of a layer is its observed value
    minus, for each deeper layer, from the next deeper one down to the
    deepest, that layer's corrected value times its fixed coefficient and
    times the noise factor of the layer being corrected.  No layer reads a
    shallower one: two runs whose inputs agree up to a depth index agree
    at that index. *)
Theorem deconv_04_back_substitution (varNumCon : Z) (aryEmp5 : ndarray2 F)
    (aryNseRnd : ndarray3 F) :
  4 < snd (shape2 aryEmp5) -> 4 < dim3_2 aryNseRnd ->
  dim3_1 aryNseRnd = fst (shape2 aryEmp5) \/ dim3_1 aryNseRnd = 1 ->
  exists out,
    deconv_04 varNumCon aryEmp5 aryNseRnd = Ok out /\
    (forall i c k,
        i < dim3_0 aryNseRnd -> c < fst (shape2 aryEmp5) -> k < 5 ->
        data3 out i c k
        = noisy_scheme (noise_factor aryNseRnd i c k) (data2 aryEmp5 c k)
            (data3 out i c) k) /\
    (forall (aryEmp5' : ndarray2 F) (aryNseRnd' out' : ndarray3 F) k,
        deconv_04 varNumCon aryEmp5' aryNseRnd' = Ok out' ->
        shape2 aryEmp5' = shape2 aryEmp5 ->
        shape3 aryNseRnd' = shape3 aryNseRnd ->
        (forall c d, d <= k -> data2 aryEmp5' c d = data2 aryEmp5 c d) ->
        (forall i c d, d <= k ->
                       data3 aryNseRnd' i c d = data3 aryNseRnd i c d) ->
        forall i c, i < dim3_0 aryNseRnd -> c < fst (shape2 aryEmp5) ->
          data3 out' i c k = data3 out i c k).
Proof.
  intros He Hn Hc.
  destruct (deconv_04_total varNumCon aryEmp5 aryNseRnd He Hn Hc)
    as (out & Hout).
  exists out; split; [assumption |]; split.
  - exact (deconv_04_noisy_scheme _ _ _ _ Hout).
  - intros aryEmp5' aryNseRnd' out' k Hout' Se Sn Hae Han i c Hi Hci.
    apply (deconv_04_prefix varNumCon varNumCon aryEmp5 aryEmp5'
             aryNseRnd aryNseRnd' out out' k); auto.
    intros i0 c0 d0 Hd0; apply Han; lia.
Qed.

(** C3, as amended.  With the noise of model 4, made of the generator's
    draws scaled by the standard deviation and centred at one, the function
    returns an array whose first, iteration, dimension is the number of noise
    iterations, and in iteration [i] every subtraction term of layer [k] is
    multiplied by that iteration's factor for the layer and condition,
    [draws i c k * varNseRndSd + 1.0]: one factor for each iteration,
    condition and layer, which the terms of the layer share. *)
Theorem deconv_04_noise_iterations (draws : nat -> nat -> nat -> F)
    (varNseRndSd : F) (varNumCon : Z) (aryEmp5 : ndarray2 F)
    (varNumIt varNumDpth : nat) :
  4 < snd (shape2 aryEmp5) -> 4 < varNumDpth ->
  exists out,
    deconv_04 varNumCon aryEmp5
      (aryNseRnd_model4 draws varNumIt (fst (shape2 aryEmp5)) varNumDpth
         varNseRndSd) = Ok out /\
    shape3 out = (varNumIt, fst (shape2 aryEmp5), snd (shape2 aryEmp5)) /\
    forall i c k,
      i < varNumIt -> c < fst (shape2 aryEmp5) -> k < 5 ->
      data3 out i c k
      = back_substitute
          (fun t => t * (draws i c k * varNseRndSd + lit 1.0%Q))
          (data2 aryEmp5 c k) (data3 out i c) k.
Proof.
  intros He Hn.
  set (nse := aryNseRnd_model4 _ _ _ _ _).
  assert (Sn : shape3 nse = (varNumIt, fst (shape2 aryEmp5), varNumDpth))
    by reflexivity.
  destruct (deconv_04_total varNumCon aryEmp5 nse He) as (out & Hout).
  { unfold dim3_2; now rewrite Sn. }
  { left; unfold dim3_1; now rewrite Sn. }
  exists out; split; [assumption |].
  destruct (deconv_04_Ok_inv _ _ _ _ Hout) as (S & _ & _ & _ & _).
  split; [rewrite S; unfold dim3_0; now rewrite Sn |].
  intros i c k Hi Hci Hk.
  rewrite (deconv_04_noisy_scheme _ _ _ _ Hout i c k) at 1;
    [| unfold dim3_0; rewrite Sn; exact Hi | exact Hci | exact Hk].
  unfold noisy_scheme, noise_factor, dim3_1; rewrite Sn; cbn [fst snd].
  now rewrite (bidx_lt _ _ Hci).
Qed.

End Deconv04_Props.

(** Concrete runs, on the exact rationals. *)

(** Two numbers with the same reduced fraction are equal. *)
Lemma num_eq_this (x y : num) :
  option_map this x = option_map this y -> x = y.
Proof.
  destruct x as [x |], y as [y |]; simpl; intros E; try discriminate;
    [| reflexivity].
  injection E as E; f_equal; apply Qc_is_canon; rewrite E; reflexivity.
Qed.


Lemma num_Some_inj (a b : Qc) : @Some Qc a = Some b -> a = b.
Proof. now intros [= ->]. Qed.

Lemma deconv_04_deepest_layer_unchanged_witness :
  (4 < snd (shape2 Examples.aryEmp5) /\
   4 < dim3_2 Examples.aryNseRnd /\
   (dim3_1 Examples.aryNseRnd = fst (shape2 Examples.aryEmp5)
    \/ dim3_1 Examples.aryNseRnd = 1)) /\
  exists out,
    deconv_04 2%Z Examples.aryEmp5 Examples.aryNseRnd = Ok out /\
    forall i c, i < dim3_0 Examples.aryNseRnd ->
                c < fst (shape2 Examples.aryEmp5) ->
      data3 out i c 0 = data2 Examples.aryEmp5 c 0.
Proof.
  assert (H0 : 4 < snd (shape2 Examples.aryEmp5)) by (simpl; lia).
  assert (H1 : 4 < dim3_2 Examples.aryNseRnd) by (vm_compute; lia).
  assert (H2 : dim3_1 Examples.aryNseRnd = fst (shape2 Examples.aryEmp5)
               \/ dim3_1 Examples.aryNseRnd = 1) by (left; reflexivity).
  split; [auto |].
  exact (deconv_04_deepest_layer_unchanged 2%Z Examples.aryEmp5
           Examples.aryNseRnd H0 H1 H2).
Defined.

Lemma deconv_04_deepest_layer_noise_independent_witness :
  (4 < snd (shape2 Examples.aryEmp5) /\
   4 < dim3_2 Examples.aryNseRnd /\
   (dim3_1 Examples.aryNseRnd = fst (shape2 Examples.aryEmp5)
    \/ dim3_1 Examples.aryNseRnd = 1) /\
   shape3 Examples.aryNseRnd' = shape3 Examples.aryNseRnd) /\
  exists out out',
    deconv_04 2%Z Examples.aryEmp5 Examples.aryNseRnd = Ok out /\
    deconv_04 2%Z Examples.aryEmp5 Examples.aryNseRnd' = Ok out' /\
    shape3 out' = shape3 out /\
    (forall i i' c,
        i < dim3_0 Examples.aryNseRnd -> i' < dim3_0 Examples.aryNseRnd ->
        c < fst (shape2 Examples.aryEmp5) ->
        data3 out i c 0 = data3 out' i' c 0) /\
    ((forall i c d, 0 < d -> data3 Examples.aryNseRnd' i c d
                             = data3 Examples.aryNseRnd i c d) ->
     forall i c d, i < dim3_0 Examples.aryNseRnd ->
                   c < fst (shape2 Examples.aryEmp5) ->
       data3 out' i c d = data3 out i c d).
Proof.
  assert (H0 : 4 < snd (shape2 Examples.aryEmp5)) by (simpl; lia).
  assert (H1 : 4 < dim3_2 Examples.aryNseRnd) by (vm_compute; lia).
  assert (H2 : dim3_1 Examples.aryNseRnd = fst (shape2 Examples.aryEmp5)
               \/ dim3_1 Examples.aryNseRnd = 1) by (left; reflexivity).
  assert (H3 : shape3 Examples.aryNseRnd' = shape3 Examples.aryNseRnd)
    by reflexivity.
  split; [auto |].
  exact (deconv_04_deepest_layer_noise_independent 2%Z Examples.aryEmp5
           Examples.aryNseRnd Examples.aryNseRnd' H0 H1 H2 H3).
Defined.

(** C1 as stated fails: in the second iteration of the example every noise
    factor is 2, and layer V of the first condition is [1 - (0.6 / 1.9) * 1
    * 2 = 7/19], not the [1 - (0.6 / 1.9) * 1 = 13/19] of the plain
    scheme. *)
Lemma deconv_04_plain_scheme_counterexample :
  exists out,
    deconv_04 2%Z Examples.aryEmp5 Examples.aryNseRnd = Ok out /\
    data3 out 1 0 1 = Examples.q (7 # 19) /\
    plain_scheme (data2 Examples.aryEmp5 0 1) (data3 out 1 0) 1
    = Examples.q (13 # 19) /\
    data3 out 1 0 1
    <> plain_scheme (data2 Examples.aryEmp5 0 1) (data3 out 1 0) 1.
Proof.
  assert (H0 : 4 < snd (shape2 Examples.aryEmp5)) by (simpl; lia).
  assert (H1 : 4 < dim3_2 Examples.aryNseRnd) by (vm_compute; lia).
  assert (H2 : dim3_1 Examples.aryNseRnd = fst (shape2 Examples.aryEmp5)
               \/ dim3_1 Examples.aryNseRnd = 1) by (left; reflexivity).
  destruct (deconv_04_total 2%Z Examples.aryEmp5 Examples.aryNseRnd H0 H1 H2)
    as (out & Hout).
  exists out; split; [exact Hout |].
  destruct (deconv_04_Ok_inv _ _ _ _ Hout) as (_ & _ & _ & _ & Hinv).
  destruct (Hinv 1 0) as (E0 & E1 & _); [vm_compute; lia | simpl; lia |].
  unfold plain_scheme, back_substitute; cbn [seq rev app fold_left ratio].
  rewrite E1, E0.
  assert (A : (data2 Examples.aryEmp5 0 1
               - lit 0.6%Q / lit 1.9%Q * data2 Examples.aryEmp5 0 0
                 * noise_factor Examples.aryNseRnd 1 0 1)%F
              = Examples.q (7 # 19)).
  { apply num_eq_this; vm_compute; reflexivity. }
  assert (B : (data2 Examples.aryEmp5 0 1
               - lit 0.6%Q / lit 1.9%Q * data2 Examples.aryEmp5 0 0)%F
              = Examples.q (13 # 19)).
  { apply num_eq_this; vm_compute; reflexivity. }
  rewrite A, B; repeat split.
  intros E; apply (f_equal (option_map this)) in E; vm_compute in E.
  discriminate E.
Qed.

Lemma deconv_04_back_substitution_witness :
  (4 < snd (shape2 Examples.aryEmp5) /\
   4 < dim3_2 Examples.aryNseRnd /\
   (dim3_1 Examples.aryNseRnd = fst (shape2 Examples.aryEmp5)
    \/ dim3_1 Examples.aryNseRnd = 1)) /\
  exists out,
    deconv_04 2%Z Examples.aryEmp5 Examples.aryNseRnd = Ok out /\
    (forall i c k,
        i < dim3_0 Examples.aryNseRnd ->
        c < fst (shape2 Examples.aryEmp5) -> k < 5 ->
        data3 out i c k
        = noisy_scheme (noise_factor Examples.aryNseRnd i c k)
            (data2 Examples.aryEmp5 c k) (data3 out i c) k) /\
    (forall (aryEmp5' : ndarray2 num) (aryNseRnd' out' : ndarray3 num) k,
        deconv_04 2%Z aryEmp5' aryNseRnd' = Ok out' ->
        shape2 aryEmp5' = shape2 Examples.aryEmp5 ->
        shape3 aryNseRnd' = shape3 Examples.aryNseRnd ->
        (forall c d, d <= k ->
                     data2 aryEmp5' c d = data2 Examples.aryEmp5 c d) ->
        (forall i c d, d <= k ->
                       data3 aryNseRnd' i c d
                       = data3 Examples.aryNseRnd i c d) ->
        forall i c, i < dim3_0 Examples.aryNseRnd ->
                    c < fst (shape2 Examples.aryEmp5) ->
          data3 out' i c k = data3 out i c k).
Proof.
  assert (H0 : 4 < snd (shape2 Examples.aryEmp5)) by (simpl; lia).
  assert (H1 : 4 < dim3_2 Examples.aryNseRnd) by (vm_compute; lia).
  assert (H2 : dim3_1 Examples.aryNseRnd = fst (shape2 Examples.aryEmp5)
               \/ dim3_1 Examples.aryNseRnd = 1) by (left; reflexivity).
  split; [auto |].
  exact (deconv_04_back_substitution 2%Z Examples.aryEmp5
           Examples.aryNseRnd H0 H1 H2).
Defined.

(** C3 as stated fails: the terms of one layer do not have factors of their
    own.  With 19 in the deepest layer and nothing above, the factor 5 on the
    term of layer V gives -30 there, and the factors 1 and 2 on the two terms
    of layer IV would give [0 + 6 - 12 = -6]; the function multiplies both
    terms by one factor and gives [0 + 6 x - 6 x = 0], whatever the noise. *)
Lemma deconv_04_shared_factor_counterexample :
  independent_scheme Examples.term_factor (Examples.q 0)
    (fun j => nth j [Examples.q 19; Examples.q (-30)] None) 2
  = Examples.q (-6) /\
  forall (aryNseRnd out : ndarray3 num),
    shape3 aryNseRnd = (1, 1, 5) ->
    deconv_04 1%Z Examples.aryEmp5_deep aryNseRnd = Ok out ->
    ~ (data3 out 0 0 1
       = independent_scheme Examples.term_factor
           (data2 Examples.aryEmp5_deep 0 1) (data3 out 0 0) 1 /\
       data3 out 0 0 2
       = independent_scheme Examples.term_factor
           (data2 Examples.aryEmp5_deep 0 2) (data3 out 0 0) 2).
Proof.
  split; [apply num_eq_this; vm_compute; reflexivity |].
  intros aryNseRnd out Hs Hrun [H1 H2].
  destruct (deconv_04_Ok_inv _ _ _ _ Hrun) as (_ & _ & _ & _ & Hinv).
  destruct (Hinv 0 0) as (E0 & _ & E2 & _);
    [unfold dim3_0; rewrite Hs; cbn; lia | cbn; lia |].
  unfold independent_scheme in H1, H2.
  cbn [seq rev app fold_left ratio] in H1, H2.
  rewrite E0 in H1.
  assert (V1 : data3 out 0 0 1 = Examples.q (-30)).
  { rewrite H1; apply num_eq_this; vm_compute; reflexivity. }
  rewrite V1, E0 in H2, E2.
  assert (V2 : data3 out 0 0 2 = Examples.q (-6)).
  { rewrite H2; apply num_eq_this; vm_compute; reflexivity. }
  assert (C1 : (lit 0.3%Q / lit 1.5%Q * Examples.q (-30))%F
               = Some (- Q2Qc 6)%Qc).
  { apply num_eq_this; vm_compute; reflexivity. }
  assert (C0 : (lit 0.6%Q / lit 1.9%Q * data2 Examples.aryEmp5_deep 0 0)%F
               = Some (Q2Qc 6)).
  { apply num_eq_this; vm_compute; reflexivity. }
  assert (Z2 : data2 Examples.aryEmp5_deep 0 2 = Some (Q2Qc 0))
    by (apply num_eq_this; vm_compute; reflexivity).
  rewrite C1, C0, Z2, V2 in E2.
  destruct (noise_factor aryNseRnd 0 0 2) as [x |];
    cbn [fsub fmul num_Scalar num_lift2] in E2; [| discriminate].
  apply num_Some_inj in E2.
  assert (R : (Q2Qc 0 - - Q2Qc 6 * x - Q2Qc 6 * x = Q2Qc 0)%Qc) by ring.
  rewrite R in E2; apply (f_equal this) in E2; vm_compute in E2.
  discriminate E2.
Qed.

Lemma deconv_04_noise_iterations_witness :
  (4 < snd (shape2 Examples.aryEmp5) /\ 4 < 20) /\
  exists out,
    deconv_04 2%Z Examples.aryEmp5
      (aryNseRnd_model4 Examples.draws 3 (fst (shape2 Examples.aryEmp5)) 20
         (Examples.q 0.15)) = Ok out /\
    shape3 out
    = (3, fst (shape2 Examples.aryEmp5), snd (shape2 Examples.aryEmp5)) /\
    forall i c k,
      i < 3 -> c < fst (shape2 Examples.aryEmp5) -> k < 5 ->
      data3 out i c k
      = back_substitute
          (fun t => (t * (Examples.draws i c k * Examples.q 0.15
                          + lit 1.0%Q))%F)
          (data2 Examples.aryEmp5 c k) (data3 out i c) k.
Proof.
  assert (H0 : 4 < snd (shape2 Examples.aryEmp5)) by (simpl; lia).
  assert (H1 : 4 < 20) by lia.
  split; [auto |].
  exact (deconv_04_noise_iterations Examples.draws (Examples.q 0.15) 2%Z
           Examples.aryEmp5 3 20 H0 H1).
Defined.

(** ** drain_model_Huber2017.py: the layer positions and the two grids *)

Section Huber2017_Props.

Context {F : Type} `{Scalar F}.

Local Open Scope scalar_scope.
Local Open Scope string_scope.

(** C8.  The layer positions are the fixed vector [0.1, 0.25, 0.5, 0.8,
    0.95] for region v1 and, for the extrastriate region v2, the absolute
    depths [160, 590, 1110, 1400, 1620] each divided by the thickness
    1700; the vector is a function of the region string alone (the script
    defines it for no other region: there the name stays unbound). *)
Theorem vecPosMdl_by_region :
  vecPosMdl "v1"
  = Ok [lit 0.1%Q; lit 0.25%Q; lit 0.5%Q; lit 0.8%Q; lit 0.95%Q] /\
  vecPosMdl "v2"
  = Ok [lit 160.0%Q / lit 1700.0%Q; lit 590.0%Q / lit 1700.0%Q;
        lit 1110.0%Q / lit 1700.0%Q; lit 1400.0%Q / lit 1700.0%Q;
        lit 1620.0%Q / lit 1700.0%Q] /\
  vecPosMdl (F := F) "v3" = Raise NameError.
Proof. repeat split. Qed.

(** The two grids are one expression of the region and of the number of
    depth levels. *)
Lemma vecIntpEqui_vecPosEmp (strRoi : string) (varNumDpth : nat) :
  vecIntpEqui (F := F) strRoi varNumDpth = vecPosEmp strRoi varNumDpth.
Proof. reflexivity. Qed.

Lemma linspace_length (start stop : F) (num : nat) :
  List.length (linspace start stop num) = num.
Proof.
  unfold linspace.
  set (y := map _ (seq 0 num)).
  assert (Hy : List.length y = num)
    by (unfold y; now rewrite length_map, length_seq).
  destruct (Nat.ltb_spec 1 num); [| assumption].
  rewrite length_app; cbn [List.length].
  destruct y as [| y0 y']; [simpl in Hy; lia |].
  assert (Hr : List.length (removelast (y0 :: y')) = List.length y').
  { clear. revert y0; induction y' as [| z y' IH]; intros y0;
      [reflexivity |].
    change (removelast (y0 :: z :: y')) with (y0 :: removelast (z :: y')).
    cbn [List.length]; now rewrite IH. }
  rewrite Hr; simpl in Hy; lia.
Qed.

End Huber2017_Props.

(** *** The grid on the exact rationals *)

Lemma Q2Qc_of_nat_neq_0 (m : nat) :
  0 < m -> Q2Qc (inject_Z (Z.of_nat m)) <> Q2Qc 0.
Proof.
  intros Hm E; apply Q2Qc_eq_iff in E.
  unfold Qeq in E; simpl in E; lia.
Qed.

Lemma removelast_map_seq {A : Type} (f : nat -> A) (n : nat) :
  removelast (map f (seq 0 (S n))) = map f (seq 0 n).
Proof.
  rewrite seq_S, map_app; cbn [map]; apply removelast_last.
Qed.

Lemma nth_map_seq {A : Type} (f : nat -> A) (n i : nat) (d : A) :
  i < n -> nth i (map f (seq 0 n)) d = f i.
Proof.
  intros Hi.
  rewrite (nth_indep _ d (f 0)) by now rewrite length_map, length_seq.
  now rewrite map_nth, seq_nth.
Qed.

(** With at least two samples the grid starts at [start], ends at [stop]
    and has the constant step [(stop - start) / (num - 1)]. *)
Lemma linspace_nth (a b : Qc) (n i : nat) :
  2 <= n -> i < n ->
  nth i (linspace (Some a) (Some b) n) None
  = (of_nat i * ((Some b - Some a) / of_nat (n - 1)) + Some a)%F.
Proof.
  intros Hn Hi; unfold linspace.
  destruct (Nat.ltb_spec 1 n); [| lia].
  destruct (Nat.ltb_spec 0 (n - 1)); [| lia].
  destruct n as [| m]; [lia |].
  rewrite removelast_map_seq.
  replace (S m - 1) with m by lia.
  destruct (Nat.lt_ge_cases i m) as [Him | Him].
  - rewrite app_nth1 by now rewrite length_map, length_seq.
    now rewrite nth_map_seq.
  - assert (i = m) by lia; subst i.
    rewrite app_nth2 by (rewrite length_map, length_seq; lia).
    rewrite length_map, length_seq, Nat.sub_diag; cbn [nth].
    unfold of_nat; cbn [lit fsub fdiv fmul fadd num_Scalar num_lift2 num_div].
    destruct (Qc_eq_dec _ _) as [E | E];
      [exfalso; revert E; apply Q2Qc_of_nat_neq_0; lia |].
    cbn [num_lift2]; f_equal; field; exact E.
Qed.

Section Huber2017_num.

Local Open Scope scalar_scope.
Local Open Scope string_scope.

(** C7.  For both regions and any number (two or more) of depth levels,
    the interpolation down to the five layers and the interpolation back
    are calls of [griddata] with the same method, cubic; the points the
    second call interpolates to are the very grid that the first call
    takes as the positions of the empirical data, and the layer positions
    are the target of the first and the source of the second.  That grid
    has [varNumDpth] points with a constant step, the first the smallest
    and the last the largest layer position. *)
Theorem resampling_same_grid_and_method (strRoi : string)
    (varNumDpth : nat) (aryEmpBold_row aryDecon5_row : list num) :
  strRoi = "v1" \/ strRoi = "v2" -> 2 <= varNumDpth ->
  exists fwd bwd pos lo hi,
    downsample strRoi varNumDpth aryEmpBold_row = Ok fwd /\
    upsample strRoi varNumDpth aryDecon5_row = Ok bwd /\
    method fwd = cubic /\ method bwd = cubic /\
    xi bwd = points fwd /\
    points bwd = xi fwd /\
    values fwd = aryEmpBold_row /\ values bwd = aryDecon5_row /\
    vecPosMdl strRoi = Ok pos /\ xi fwd = pos /\
    np_min pos = Ok lo /\ np_max pos = Ok hi /\
    lo = hd None pos /\ hi = last pos None /\
    List.length (xi bwd) = varNumDpth /\
    nth 0 (xi bwd) None = lo /\
    nth (varNumDpth - 1) (xi bwd) None = hi /\
    forall i, i < varNumDpth ->
      nth i (xi bwd) None
      = of_nat i * ((hi - lo) / of_nat (varNumDpth - 1)) + lo.
Proof.
  intros Hroi Hn.
  assert (Hpos : exists pos a b,
             vecPosMdl (F := num) strRoi = Ok pos /\
             np_min pos = Ok (Some a) /\ np_max pos = Ok (Some b) /\
             Some a = hd None pos /\ Some b = last pos None).
  { destruct Hroi as [-> | ->].
    - exists [lit 0.1%Q; lit 0.25%Q; lit 0.5%Q; lit 0.8%Q; lit 0.95%Q],
        (Q2Qc 0.1), (Q2Qc 0.95).
      split; [reflexivity |].
      repeat split; try (f_equal; apply num_eq_this; vm_compute; reflexivity).
    - eexists _, (Q2Qc (160 # 1700)), (Q2Qc (1620 # 1700)).
      split; [reflexivity |].
      repeat split; try (f_equal; apply num_eq_this; vm_compute; reflexivity);
        apply num_eq_this; vm_compute; reflexivity. }
  destruct Hpos as (pos & a & b & Hp & Hlo & Hhi & Ha & Hb).
  assert (Hgrid : vecPosEmp (F := num) strRoi varNumDpth
                  = Ok (linspace (Some a) (Some b) varNumDpth)).
  { unfold vecPosEmp; rewrite Hp; cbn [bind]; rewrite Hlo, Hhi;
      reflexivity. }
  exists {| points := linspace (Some a) (Some b) varNumDpth;
            values := aryEmpBold_row; xi := pos; method := cubic |},
    {| points := pos; values := aryDecon5_row;
       xi := linspace (Some a) (Some b) varNumDpth; method := cubic |},
    pos, (Some a), (Some b).
  split.
  { unfold downsample; rewrite Hp; cbn [bind]; rewrite Hgrid; reflexivity. }
  split.
  { unfold upsample; rewrite Hp; cbn [bind].
    rewrite vecIntpEqui_vecPosEmp, Hgrid; reflexivity. }
  cbn [method xi points values].
  repeat (split; [first [reflexivity | assumption] |]).
  split; [apply linspace_length |].
  assert (Hnth := linspace_nth a b varNumDpth).
  split; [| split].
  - rewrite Hnth by lia.
    unfold of_nat; cbn [lit fsub fdiv fmul fadd num_Scalar num_lift2 num_div].
    destruct (Qc_eq_dec _ _) as [E | E];
      [exfalso; revert E; apply Q2Qc_of_nat_neq_0; lia |].
    cbn [num_lift2]; f_equal.
    change (Q2Qc (inject_Z (Z.of_nat 0))) with (Q2Qc 0); field; exact E.
  - rewrite Hnth by lia.
    unfold of_nat; cbn [lit fsub fdiv fmul fadd num_Scalar num_lift2 num_div].
    destruct (Qc_eq_dec _ _) as [E | E];
      [exfalso; revert E; apply Q2Qc_of_nat_neq_0; lia |].
    cbn [num_lift2]; f_equal; field; exact E.
  - intros i Hi; now apply Hnth.
Qed.

End Huber2017_num.

Lemma resampling_same_grid_and_method_witness :
  (("v1" = "v1" \/ "v1" = "v2")%string /\ 2 <= 20) /\
  exists fwd bwd pos lo hi,
    downsample "v1" 20 MoreExamples.aryEmpBold_row = Ok fwd /\
    upsample "v1" 20 MoreExamples.aryDecon5_row = Ok bwd /\
    method fwd = cubic /\ method bwd = cubic /\
    xi bwd = points fwd /\
    points bwd = xi fwd /\
    values fwd = MoreExamples.aryEmpBold_row /\
    values bwd = MoreExamples.aryDecon5_row /\
    vecPosMdl "v1" = Ok pos /\ xi fwd = pos /\
    np_min pos = Ok lo /\ np_max pos = Ok hi /\
    lo = hd None pos /\ hi = last pos None /\
    List.length (xi bwd) = 20 /\
    nth 0 (xi bwd) None = lo /\
    nth (20 - 1) (xi bwd) None = hi /\
    forall i, i < 20 ->
      nth i (xi bwd) None
      = (of_nat i * ((hi - lo) / of_nat (20 - 1)) + lo)%F.
Proof.
  assert (H0 : ("v1" = "v1" \/ "v1" = "v2")%string) by (left; reflexivity).
  assert (H1 : 2 <= 20) by lia.
  split; [auto |].
  exact (resampling_same_grid_and_method "v1" 20
           MoreExamples.aryEmpBold_row MoreExamples.aryDecon5_row H0 H1).
Defined.

(** ** The permutation p-value *)

Module PeakDiffProps.

Import PeakDiff.

Lemma exceed_count_le (vecPermDiff : list Qc) (varEmpDiff : Qc) :
  exceed_count vecPermDiff varEmpDiff <= List.length vecPermDiff.
Proof. unfold exceed_count; apply filter_length_le. Qed.

(** The value as a quotient of rationals. *)
Lemma p_value_this (vecPermDiff : list Qc) (varEmpDiff : Qc) :
  (this (p_value vecPermDiff varEmpDiff)
   == (1 + inject_Z (Z.of_nat (exceed_count vecPermDiff varEmpDiff)))
      / (1 + inject_Z (Z.of_nat (List.length vecPermDiff))))%Q.
Proof.
  unfold p_value, Qcdiv, Qcmult, Qcinv, Qcplus, Q2Qc; cbn [this].
  rewrite !Qred_correct; reflexivity.
Qed.

(** C6.  The two-sided p-value is exactly the fraction (1 + number of
    permutation statistics whose absolute value is at least the absolute
    empirical statistic) over (1 + number of permutation statistics); it
    is never zero: it is positive, and at most one. *)
Theorem p_value_exact_and_nonzero (vecPermDiff : list Qc)
    (varEmpDiff : Qc) :
  p_value vecPermDiff varEmpDiff
  = Q2Qc (Z.of_nat (1 + exceed_count vecPermDiff varEmpDiff)
          # Pos.of_succ_nat (List.length vecPermDiff)) /\
  exceed_count vecPermDiff varEmpDiff
  = List.length
      (filter (fun x => if Qclt_le_dec (Qcabs x) (Qcabs varEmpDiff)
                        then false else true) vecPermDiff) /\
  p_value vecPermDiff varEmpDiff <> Q2Qc 0 /\
  (Q2Qc 0 < p_value vecPermDiff varEmpDiff)%Qc /\
  (p_value vecPermDiff varEmpDiff <= Q2Qc 1)%Qc.
Proof.
  pose proof (exceed_count_le vecPermDiff varEmpDiff) as Hle.
  pose proof (p_value_this vecPermDiff varEmpDiff) as Hp.
  set (c := exceed_count vecPermDiff varEmpDiff) in *.
  set (n := List.length vecPermDiff) in *.
  assert (Hfrac : (this (p_value vecPermDiff varEmpDiff)
                   == Z.of_nat (1 + c) # Pos.of_succ_nat n)%Q).
  { rewrite Hp, (Qmake_Qdiv (Z.of_nat (1 + c)) (Pos.of_succ_nat n)).
    assert (E1 : (1 + inject_Z (Z.of_nat c) == inject_Z (Z.of_nat (1 + c)))%Q).
    { rewrite Nat2Z.inj_add, inject_Z_plus; reflexivity. }
    assert (E2 : (1 + inject_Z (Z.of_nat n)
                  == inject_Z (Z.pos (Pos.of_succ_nat n)))%Q).
    { rewrite Zpos_P_of_succ_nat, <- Z.add_1_l, inject_Z_plus;
        reflexivity. }
    now rewrite E1, E2. }
  assert (Hpos : (0 < this (p_value vecPermDiff varEmpDiff))%Q).
  { rewrite Hfrac; unfold Qlt; cbn [Qnum Qden]; lia. }
  assert (Hone : (this (p_value vecPermDiff varEmpDiff) <= 1)%Q).
  { rewrite Hfrac; unfold Qle; cbn [Qnum Qden].
    rewrite Zpos_P_of_succ_nat; lia. }
  split; [| split; [reflexivity | split; [| split]]].
  - apply Qc_is_canon; cbn [this Q2Qc]; now rewrite Qred_correct.
  - intros E; rewrite E in Hpos; now apply Qlt_irrefl in Hpos.
  - exact Hpos.
  - exact Hone.
Qed.

End PeakDiffProps.

(** ** boot_plot *)

Section BootPlot_Props.

Context {F : Type} `{Scalar F}.

(** The bootstrap loop fills the slice of every iteration it runs through
    with the rows that the iteration's index vector picks. *)
Lemma boot_loop_data (aryDpth : ndarray3 F) (varNumSmp : nat)
    (aryRnd : ndarray2 nat) (its : list nat) (aryBoo : ndarray4 F)
    (it s c d : nat) :
  data4
    (fold_left
       (fun aryBoo idxIt =>
          set_axis0 aryBoo idxIt
            (take_axis0 aryDpth varNumSmp (data2 aryRnd idxIt)))
       its aryBoo) it s c d
  = if existsb (Nat.eqb it) its
    then data3 aryDpth (data2 aryRnd it s) c d
    else data4 aryBoo it s c d.
Proof.
  revert aryBoo; induction its as [| x its IH]; intros aryBoo;
    [reflexivity |].
  cbn [fold_left existsb]; rewrite IH.
  destruct (existsb (Nat.eqb it) its); [now rewrite orb_true_r |].
  rewrite orb_false_r; cbn [set_axis0 data4 take_axis0 data3].
  destruct (Nat.eqb_spec it x); [now subst |reflexivity].
Qed.

Lemma boot_loop_shape (aryDpth : ndarray3 F) (varNumSmp : nat)
    (aryRnd : ndarray2 nat) (its : list nat) (aryBoo : ndarray4 F) :
  shape4
    (fold_left
       (fun aryBoo idxIt =>
          set_axis0 aryBoo idxIt
            (take_axis0 aryDpth varNumSmp (data2 aryRnd idxIt)))
       its aryBoo)
  = shape4 aryBoo.
Proof.
  revert aryBoo; induction its as [| x its IH]; intros aryBoo;
    [reflexivity |].
  cbn [fold_left]; now rewrite IH.
Qed.

Lemma existsb_eqb_seq (n it : nat) :
  it < n -> existsb (Nat.eqb it) (seq 0 n) = true.
Proof.
  intros Hit; apply existsb_exists; exists it; split;
    [apply in_seq; lia | apply Nat.eqb_refl].
Qed.

(** The draw of the subject indices: as many per iteration as there are
    subjects, so that without subjects no draw is asked for. *)
Lemma randint_subjects (rng : nat -> nat -> nat) (n : nat) (varNumIt : Z) :
  (0 <= varNumIt)%Z ->
  randint rng n (varNumIt, n)
  = Ok {| shape2 := (Z.to_nat varNumIt, n);
          data2 := fun i s => rng i s mod n |}.
Proof.
  intros Hit; unfold randint; cbn [fst snd].
  destruct (Z.ltb_spec varNumIt 0); [lia |].
  destruct (Nat.eqb_spec n 0) as [-> | Hn]; [| reflexivity].
  now rewrite Nat.mul_0_r.
Qed.

(** What a run with acceptable arguments hands to the plotting function. *)
Lemma boot_plot_Ok (rng : nat -> nat -> nat) (aryDpth : ndarray3 F)
    (varNumIt : Z) (varConLw varConUp : F) :
  (0 < varNumIt)%Z ->
  out_of_range varConLw = false -> out_of_range varConUp = false ->
  exists call,
    boot_plot rng aryDpth varNumIt varConLw varConUp = Ok call /\
    let varNumSub := dim3_0 aryDpth in
    let aryBooMed it c d :=
      np_median
        (map (fun s => data3 aryDpth (rng it s mod varNumSub) c d)
             (seq 0 varNumSub)) in
    let across_iterations c d :=
      map (fun it => aryBooMed it c d) (seq 0 (Z.to_nat varNumIt)) in
    shape2 (aryData call) = (dim3_1 aryDpth, dim3_2 aryDpth) /\
    shape2 (aryCnfLw call) = (dim3_1 aryDpth, dim3_2 aryDpth) /\
    shape2 (aryCnfUp call) = (dim3_1 aryDpth, dim3_2 aryDpth) /\
    forall c d,
      data2 (aryCnfLw call) c d
      = percentile1 (across_iterations c d) varConLw /\
      data2 (aryCnfUp call) c d
      = percentile1 (across_iterations c d) varConUp /\
      data2 (aryData call) c d
      = np_median (map (fun s => data3 aryDpth s c d) (seq 0 varNumSub)).
Proof.
  intros Hit Hlw Hup.
  unfold boot_plot; rewrite randint_subjects by lia; cbn [bind].
  set (aryRnd := {| shape2 := _; data2 := _ |}).
  set (aryBoo := fold_left _ _ _).
  assert (Sboo : shape4 aryBoo
                 = (Z.to_nat varNumIt, dim3_0 aryDpth, dim3_1 aryDpth,
                    dim3_2 aryDpth)).
  { unfold aryBoo; now rewrite boot_loop_shape. }
  assert (Smed : shape3 (median_axis1 aryBoo)
                 = (Z.to_nat varNumIt, dim3_1 aryDpth, dim3_2 aryDpth)).
  { unfold median_axis1; now rewrite Sboo. }
  assert (Dmed : forall it c d, it < Z.to_nat varNumIt ->
             data3 (median_axis1 aryBoo) it c d
             = np_median
                 (map (fun s => data3 aryDpth
                                  (rng it s mod dim3_0 aryDpth) c d)
                      (seq 0 (dim3_0 aryDpth)))).
  { intros it c d Hlt; unfold median_axis1; rewrite Sboo; cbn [data3].
    f_equal; apply map_ext; intros s.
    unfold aryBoo; rewrite boot_loop_data, existsb_eqb_seq by assumption.
    reflexivity. }
  assert (SM0 : dim3_0 (median_axis1 aryBoo) = Z.to_nat varNumIt)
    by (unfold dim3_0 at 1; now rewrite Smed).
  assert (SM1 : dim3_1 (median_axis1 aryBoo) = dim3_1 aryDpth)
    by (unfold dim3_1 at 1; now rewrite Smed).
  assert (SM2 : dim3_2 (median_axis1 aryBoo) = dim3_2 aryDpth)
    by (unfold dim3_2 at 1; now rewrite Smed).
  unfold np_percentile; cbn [fst snd]; rewrite Hlw, Hup; cbn [orb].
  rewrite SM0, SM1, SM2.
  destruct (Nat.eqb_spec (Z.to_nat varNumIt) 0); [lia |].
  cbn [bind]; eexists; split; [reflexivity |].
  cbn [aryData aryCnfLw aryCnfUp index_axis0 shape2 data2 median_axis0
       shape3 data3 Nat.eqb].
  split; [reflexivity |]. split; [reflexivity |]. split; [reflexivity |].
  intros c d; repeat split.
  - f_equal; apply map_ext_in; intros it Hin; apply in_seq in Hin.
    apply Dmed; lia.
  - f_equal; apply map_ext_in; intros it Hin; apply in_seq in Hin.
    apply Dmed; lia.
Qed.


(** C5, as amended.  The function checks no argument itself.  A
    percentile below 0 or above 100 is refused by [np.percentile] with a
    ValueError and a negative number of iterations by [np.random.randint]
    with a ValueError; zero iterations are refused by nothing: the loop
    runs no round and the percentile over the empty iteration axis fails
    with an IndexError.  With percentiles that are numbers from 0 to 100
    and one iteration or more the function raises nothing, whatever the
    array of profiles. *)
Theorem boot_plot_failure_modes (rng : nat -> nat -> nat)
    (aryDpth : ndarray3 F) (varNumIt : Z) (varConLw varConUp : F) :
  (fltb varConLw (lit 0%Q) || fltb (lit 100%Q) varConLw
   || fltb varConUp (lit 0%Q) || fltb (lit 100%Q) varConUp = true ->
   boot_plot rng aryDpth varNumIt varConLw varConUp = Raise ValueError) /\
  ((varNumIt < 0)%Z ->
   boot_plot rng aryDpth varNumIt varConLw varConUp = Raise ValueError) /\
  (varNumIt = 0%Z ->
   out_of_range varConLw || out_of_range varConUp = false ->
   boot_plot rng aryDpth varNumIt varConLw varConUp = Raise IndexError) /\
  ((0 < varNumIt)%Z ->
   out_of_range varConLw || out_of_range varConUp = false ->
   exists call,
     boot_plot rng aryDpth varNumIt varConLw varConUp = Ok call).
Proof.
  repeat split.
  - intros Hq.
    assert (Hq' : out_of_range varConLw || out_of_range varConUp = true).
    { unfold out_of_range.
      destruct (fltb varConLw (lit 0%Q)), (fltb (lit 100%Q) varConLw),
        (fltb varConUp (lit 0%Q)), (fltb (lit 100%Q) varConUp);
        cbn [orb] in Hq; try discriminate Hq;
        now rewrite ?orb_true_r. }
    unfold boot_plot, randint; cbn [fst snd].
    destruct (varNumIt <? 0)%Z; [reflexivity |].
    destruct ((dim3_0 aryDpth =? 0)
              && negb (Z.to_nat varNumIt * dim3_0 aryDpth =? 0));
      [reflexivity |].
    cbn [bind]; unfold np_percentile; cbn [fst snd].
    now rewrite Hq'.
  - intros Hneg; unfold boot_plot, randint; cbn [fst snd].
    destruct (Z.ltb_spec varNumIt 0); [reflexivity | lia].
  - intros -> Hq; unfold boot_plot.
    rewrite randint_subjects by lia.
    cbn [bind Z.to_nat seq fold_left].
    unfold np_percentile; cbn [fst snd]; now rewrite Hq.
  - intros Hit Hq; apply orb_false_elim in Hq; destruct Hq as [Hl Hu].
    destruct (boot_plot_Ok rng aryDpth varNumIt varConLw varConUp
                Hit Hl Hu) as (call & Hcall & _).
    now exists call.
Qed.

End BootPlot_Props.

(** C5 as stated fails at zero iterations: nothing refuses the argument; the
    run goes through randint, the empty loop and the median, and only the
    percentile over the empty iteration axis fails, with an IndexError and
    not with the ValueError by which numpy refuses an argument. *)
Lemma boot_plot_zero_iterations_counterexample :
  (0 <= 0)%Z /\
  boot_plot Examples.rng Examples.aryDpth 0 (Examples.q 2.5)
    (Examples.q 97.5) = Raise IndexError /\
  boot_plot Examples.rng Examples.aryDpth 0 (Examples.q 2.5)
    (Examples.q 97.5) <> Raise ValueError.
Proof.
  assert (E : boot_plot Examples.rng Examples.aryDpth 0 (Examples.q 2.5)
                (Examples.q 97.5) = Raise IndexError)
    by (vm_compute; reflexivity).
  split; [lia |]; split; [exact E |].
  rewrite E; discriminate.
Qed.

Lemma boot_plot_failure_modes_witness :
  boot_plot Examples.rng Examples.aryDpth 4 (Examples.q (-1))
    (Examples.q 97.5) = Raise ValueError /\
  boot_plot Examples.rng Examples.aryDpth (-3) (Examples.q 2.5)
    (Examples.q 97.5) = Raise ValueError /\
  boot_plot Examples.rng Examples.aryDpth 0 (Examples.q 2.5)
    (Examples.q 97.5) = Raise IndexError /\
  (exists call,
     boot_plot Examples.rng Examples.aryDpth 4 (Examples.q 2.5)
       (Examples.q 97.5) = Ok call) /\
  (exists call,
     boot_plot Examples.rng MoreExamples.aryNoSubject 4 (Examples.q 2.5)
       (Examples.q 97.5) = Ok call).
Proof.
  assert (Hbad : fltb (Examples.q (-1)) (lit 0%Q)
                 || fltb (lit 100%Q) (Examples.q (-1))
                 || fltb (Examples.q 97.5) (lit 0%Q)
                 || fltb (lit 100%Q) (Examples.q 97.5) = true)
    by (vm_compute; reflexivity).
  assert (Hgood : out_of_range (Examples.q 2.5)
                  || out_of_range (Examples.q 97.5) = false)
    by (vm_compute; reflexivity).
  split; [| split; [| split; [| split]]].
  - exact (proj1 (boot_plot_failure_modes Examples.rng Examples.aryDpth 4
                    (Examples.q (-1)) (Examples.q 97.5)) Hbad).
  - refine (proj1 (proj2 (boot_plot_failure_modes Examples.rng
                            Examples.aryDpth (-3) (Examples.q 2.5)
                            (Examples.q 97.5))) _); lia.
  - exact (proj1 (proj2 (proj2 (boot_plot_failure_modes Examples.rng
                                  Examples.aryDpth 0 (Examples.q 2.5)
                                  (Examples.q 97.5))))
             eq_refl Hgood).
  - refine (proj2 (proj2 (proj2 (boot_plot_failure_modes Examples.rng
                                   Examples.aryDpth 4 (Examples.q 2.5)
                                   (Examples.q 97.5)))) _ Hgood); lia.
  - refine (proj2 (proj2 (proj2 (boot_plot_failure_modes Examples.rng
                                   MoreExamples.aryNoSubject 4
                                   (Examples.q 2.5) (Examples.q 97.5))))
              _ Hgood); lia.
Defined.

(** ** funcSlctVrtcs *)

Lemma np_sum_bool_repeat_true (n : nat) : np_sum_bool (repeat true n) = n.
Proof.
  unfold np_sum_bool; induction n as [| n IH]; [reflexivity |].
  cbn [repeat filter List.length]; now rewrite IH.
Qed.

Lemma np_sum_bool_le_length (v : list bool) :
  np_sum_bool v <= List.length v.
Proof. unfold np_sum_bool; apply filter_length_le. Qed.

Lemma length_flatnonzero_from (k : nat) (v : list bool) :
  List.length (flatnonzero_from k v) = np_sum_bool v.
Proof.
  unfold np_sum_bool; revert k; induction v as [| b v IH]; intros k;
    [reflexivity |].
  destruct b; cbn [flatnonzero_from filter List.length]; now rewrite IH.
Qed.

Lemma np_sum_bool_and_l (a b : list bool) :
  np_sum_bool (map (fun p => fst p && snd p) (combine a b)) <= np_sum_bool a.
Proof.
  unfold np_sum_bool; revert b; induction a as [| x a IH]; intros b;
    [simpl; lia |].
  destruct b as [| y b]; [simpl; lia |].
  specialize (IH b).
  destruct x, y; cbn [combine map fst snd andb filter List.length] in *; lia.
Qed.

Lemma np_sum_bool_and_const (a : list bool) (y : bool) :
  np_sum_bool (map (fun x => x && y) a) <= np_sum_bool a.
Proof.
  unfold np_sum_bool; induction a as [| x a IH]; [simpl; lia |].
  destruct x, y; cbn [map andb filter List.length] in *; lia.
Qed.

Lemma np_logical_and_Ok (a b r : list bool) :
  np_logical_and a b = Ok r -> and_like a r.
Proof.
  unfold np_logical_and, and_like.
  destruct (Nat.eqb_spec (List.length a) (List.length b)) as [E | E].
  - intros [= <-]; left; split; [| apply np_sum_bool_and_l].
    rewrite length_map, length_combine; lia.
  - destruct (Nat.eqb_spec (List.length a) 1) as [E1 | E1].
    + intros [= <-]; right; rewrite length_map; lia.
    + destruct (Nat.eqb_spec (List.length b) 1) as [E2 | E2];
        [| discriminate].
      intros [= <-]; left; split;
        [apply length_map | apply np_sum_bool_and_const].
Qed.

Lemma length_list_set {A : Type} (l : list A) (i : nat) (x : A) :
  List.length (list_set l i x) = List.length l.
Proof.
  revert i; induction l as [| y l IH]; intros i; [reflexivity |].
  destruct i; cbn [list_set List.length]; [reflexivity | now rewrite IH].
Qed.

Lemma nth_error_list_set_eq {A : Type} (l : list A) (i : nat) (x : A) :
  i < List.length l -> nth_error (list_set l i x) i = Some x.
Proof.
  revert i; induction l as [| y l IH]; intros i Hi; [simpl in Hi; lia |].
  destruct i; [reflexivity |].
  cbn [list_set nth_error]; apply IH; simpl in Hi; lia.
Qed.

Lemma nth_error_list_set_neq {A : Type} (l : list A) (i j : nat) (x : A) :
  i <> j -> nth_error (list_set l i x) j = nth_error l j.
Proof.
  revert i j; induction l as [| y l IH]; intros i j Hij; [reflexivity |].
  destruct i, j; cbn [list_set nth_error]; try reflexivity; [lia |].
  apply IH; lia.
Qed.

Lemma set_true_length (v v' : list bool) (idx : list Z) :
  set_true v idx = Ok v' -> List.length v' = List.length v.
Proof.
  unfold set_true; intros Hs; bind_inv Hs; ok_inv Hs.
  clear Hstep; revert v; induction a as [| j js IH]; intros v;
    [reflexivity |].
  cbn [fold_left]; now rewrite IH, length_list_set.
Qed.

Lemma non_increasing_snoc (h : list nat) (x : nat) :
  non_increasing h -> x <= last h 0 -> h <> [] -> non_increasing (h ++ [x]).
Proof.
  induction h as [| a h IH]; [congruence |].
  intros Hh Hx _; destruct h as [| b h'].
  - cbn in *; auto.
  - change ((a :: b :: h') ++ [x]) with (a :: ((b :: h') ++ [x])).
    destruct Hh as [Hba Hh].
    change (last (a :: b :: h') 0) with (last (b :: h') 0) in Hx.
    cbn [non_increasing app]; split; [exact Hba |].
    apply IH; [assumption | assumption | discriminate].
Qed.

Section SlctVrtcs_Props.

Context {F : Type} `{Scalar F}.

Lemma mask_rows_Ok (a a' : ndarray2 F) (vecInc : list bool) :
  mask_rows a vecInc = Ok a' ->
  List.length vecInc = fst (shape2 a) /\
  fst (shape2 a') = np_sum_bool vecInc.
Proof.
  unfold mask_rows.
  destruct (Nat.eqb_spec (List.length vecInc) (fst (shape2 a)));
    [| discriminate].
  intros [= <-]; split; [assumption |].
  apply length_flatnonzero_from.
Qed.

(** The loop through the conditions [k, k + m) of a list of [k + m]
    arrays: those arrays are cut to the included rows, the ones before are
    left as they are. *)
Lemma apply_inclusion_seq (vecInc : list bool) (m : nat) :
  forall (k : nat) (l l' : list (ndarray2 F)),
    k + m = List.length l ->
    apply_inclusion vecInc l (seq k m) = Ok l' ->
    List.length l' = List.length l /\
    (forall j a', k <= j -> nth_error l' j = Some a' ->
                  fst (shape2 a') = np_sum_bool vecInc) /\
    (forall j, j < k -> nth_error l' j = nth_error l j) /\
    (0 < m -> forall a, nth_error l k = Some a ->
                        List.length vecInc = fst (shape2 a)).
Proof.
  induction m as [| m IH]; intros k l l' Hlen Hrun.
  - cbn in Hrun; injection Hrun as <-; repeat split; try lia.
    intros j a' Hj Hnth.
    assert (j < List.length l) by (apply nth_error_Some; congruence).
    lia.
  - cbn [seq apply_inclusion] in Hrun.
    destruct (nth_error l k) as [a |] eqn:Hk; [| discriminate].
    bind_as Hrun a1 Hmask.
    apply mask_rows_Ok in Hmask; destruct Hmask as [Hv Hrows].
    apply IH in Hrun; [| rewrite length_list_set; lia].
    destruct Hrun as (Hl & Hafter & Hbefore & _).
    rewrite length_list_set in Hl.
    repeat split.
    + exact Hl.
    + intros j a' Hj Hnth.
      destruct (Nat.eq_dec j k) as [-> | Hjk].
      * rewrite Hbefore, nth_error_list_set_eq in Hnth by lia.
        now injection Hnth as <-.
      * apply (Hafter j); [lia | assumption].
    + intros j Hj; rewrite Hbefore by lia.
      apply nth_error_list_set_neq; lia.
    + intros _ a0 Ha0; congruence.
Qed.

Lemma apply_criterion_Ok (lgcSlct : bool)
    (crit : list bool -> result (list bool))
    (st st' : list bool * list nat) :
  apply_criterion lgcSlct crit st = Ok st' ->
  (lgcSlct = false /\ st' = st) \/
  (lgcSlct = true /\
   exists v, crit (fst st) = Ok v /\
             st' = (v, snd st ++ [np_sum_bool v])).
Proof.
  unfold apply_criterion; destruct lgcSlct; intros Hs.
  - right; split; [reflexivity |].
    bind_inv Hs; ok_inv Hs; eauto.
  - left; ok_inv Hs; auto.
Qed.

(** One of the criteria 2 to 4, switched on or off. *)
Lemma and_step (lgcSlct : bool) (crit : list bool -> result (list bool))
    (st st' : list bool * list nat) :
  (forall v v', crit v = Ok v' -> and_like v v') ->
  apply_criterion lgcSlct crit st = Ok st' ->
  count_ok st ->
  count_ok st' /\
  (List.length (fst st') = List.length (fst st)
   \/ (List.length (fst st) = 1 /\ List.length (fst st') <> 1)) /\
  (List.length (fst st') = List.length (fst st) ->
   non_increasing (snd st) -> non_increasing (snd st')).
Proof.
  intros Hcrit Hs [Hne Hlast].
  apply apply_criterion_Ok in Hs.
  destruct Hs as [[_ ->] | [_ (v & Hv & ->)]]; [unfold count_ok; auto |].
  apply Hcrit in Hv; cbn [fst snd]; unfold count_ok; cbn [fst snd].
  split; [split; [now destruct (snd st) | now rewrite last_last] |].
  split; [destruct Hv as [[Hl _] | Hv]; auto |].
  intros Hlen Hni; destruct Hv as [[_ Hsum] | [Hl1 Hl2]]; [| lia].
  apply non_increasing_snoc; [assumption | lia | assumption].
Qed.

Lemma criterion2_and_like (a : ndarray2 F) (thr : F) (v v' : list bool) :
  criterion2 v a thr = Ok v' -> and_like v v'.
Proof. unfold criterion2; apply np_logical_and_Ok. Qed.

Lemma criterion3_and_like (a : ndarray2 F) (thr : F) (v v' : list bool) :
  criterion3 v a thr = Ok v' -> and_like v v'.
Proof.
  unfold criterion3; intros Hc; bind_inv Hc.
  now apply np_logical_and_Ok in Hc.
Qed.

Lemma criterion4_and_like (a : ndarray2 F) (thr : F) (v v' : list bool) :
  criterion4 v a thr = Ok v' -> and_like v v'.
Proof. unfold criterion4; apply np_logical_and_Ok. Qed.

Lemma criterion1_length (n : nat) (a : ndarray2 F) (v : list bool) :
  criterion1 n a = Ok v -> List.length v = n.
Proof.
  unfold criterion1; intros Hc; bind_inv Hc.
  apply set_true_length in Hc; now rewrite repeat_length in Hc.
Qed.


End SlctVrtcs_Props.

(** The example run returns: four vertices, three in the region, two of them
    above the threshold of criterion 2, one of these above that of 3. *)
Lemma SlctExample_run :
  SlctExample.call = Ok SlctExample.ret /\
  hist_varNumInc SlctExample.ret = [4; 3; 2; 1] /\
  ret_vecInc SlctExample.ret = [true; false; false; false] /\
  ret_varNumInc SlctExample.ret = 1 /\
  map (fun a => fst (shape2 a)) (ret_lstDpthData01 SlctExample.ret) = [1; 1].
Proof. repeat split; vm_compute; reflexivity. Qed.


(** * Further properties *)

(** ** deconv_04: shapes, locality, and the noise-free case *)

Section Deconv04_More.

Context {F : Type} `{Scalar F}.

Local Open Scope scalar_scope.

(** X1.  The function returns exactly on the inputs of fitting shapes: five
    depth levels or more in the profile and in the noise, and in the noise
    one row per condition or a single row.  On every other input it
    raises. *)
Theorem deconv_04_returns_iff (varNumCon : Z) (aryEmp5 : ndarray2 F)
    (aryNseRnd : ndarray3 F) :
  (exists out, deconv_04 varNumCon aryEmp5 aryNseRnd = Ok out) <->
  (4 < snd (shape2 aryEmp5) /\ 4 < dim3_2 aryNseRnd /\
   (dim3_1 aryNseRnd = fst (shape2 aryEmp5) \/ dim3_1 aryNseRnd = 1)).
Proof.
  split.
  - intros (out & Hout).
    destruct (deconv_04_Ok_inv _ _ _ _ Hout) as (_ & He & Hn & Hc & _).
    auto.
  - intros (He & Hn & Hc); now apply deconv_04_total.
Qed.

(** X2.  The output has one slice per noise iteration and the conditions and
    depth levels of the profile; when the profile has more than five depth
    levels, the levels from the sixth on are left at zero. *)
Theorem deconv_04_shape_and_padding (varNumCon : Z) (aryEmp5 : ndarray2 F)
    (aryNseRnd : ndarray3 F) :
  4 < snd (shape2 aryEmp5) -> 4 < dim3_2 aryNseRnd ->
  dim3_1 aryNseRnd = fst (shape2 aryEmp5) \/ dim3_1 aryNseRnd = 1 ->
  exists out,
    deconv_04 varNumCon aryEmp5 aryNseRnd = Ok out /\
    shape3 out
    = (dim3_0 aryNseRnd, fst (shape2 aryEmp5), snd (shape2 aryEmp5)) /\
    forall i c d, i < dim3_0 aryNseRnd -> c < fst (shape2 aryEmp5) ->
                  4 < d -> data3 out i c d = lit 0%Q.
Proof.
  intros He Hn Hc.
  destruct (deconv_04_total varNumCon aryEmp5 aryNseRnd He Hn Hc)
    as (out & Hout).
  exists out; split; [assumption |].
  destruct (deconv_04_Ok_inv _ _ _ _ Hout) as (S & _ & _ & _ & Hinv).
  split; [exact S |].
  intros i c d Hi Hci Hd.
  destruct (Hinv i c Hi Hci) as (_ & _ & _ & _ & _ & Hz); now apply Hz.
Qed.

(** The output for one iteration and one condition is a function of the
    profile of that condition and of the noise of that iteration. *)
Lemma deconv_04_local_Ok (vn vn' : Z) (emp emp' : ndarray2 F)
    (nse nse' out out' : ndarray3 F) (i i' c c' : nat) :
  deconv_04 vn emp nse = Ok out ->
  deconv_04 vn' emp' nse' = Ok out' ->
  i < dim3_0 nse -> i' < dim3_0 nse' ->
  c < fst (shape2 emp) -> c' < fst (shape2 emp') ->
  (forall d, d <= 4 -> data2 emp' c' d = data2 emp c d) ->
  (forall d, 1 <= d <= 4 ->
             noise_factor nse' i' c' d = noise_factor nse i c d) ->
  forall d, data3 out' i' c' d = data3 out i c d.
Proof.
  intros Hd Hd' Hi Hi' Hc Hc' He Hn d.
  destruct (deconv_04_Ok_inv _ _ _ _ Hd) as (_ & _ & _ & _ & Hinv).
  destruct (deconv_04_Ok_inv _ _ _ _ Hd') as (_ & _ & _ & _ & Hinv').
  destruct (Hinv i c Hi Hc) as (E0 & E1 & E2 & E3 & E4 & Ez).
  destruct (Hinv' i' c' Hi' Hc') as (E0' & E1' & E2' & E3' & E4' & Ez').
  assert (P0 : data3 out' i' c' 0 = data3 out i c 0).
  { rewrite E0, E0'; apply He; lia. }
  assert (P1 : data3 out' i' c' 1 = data3 out i c 1).
  { rewrite E1, E1', P0, He, Hn by lia; reflexivity. }
  assert (P2 : data3 out' i' c' 2 = data3 out i c 2).
  { rewrite E2, E2', P0, P1, He, Hn by lia; reflexivity. }
  assert (P3 : data3 out' i' c' 3 = data3 out i c 3).
  { rewrite E3, E3', P0, P1, P2, He, Hn by lia; reflexivity. }
  assert (P4 : data3 out' i' c' 4 = data3 out i c 4).
  { rewrite E4, E4', P0, P1, P2, P3, He, Hn by lia; reflexivity. }
  do 5 (destruct d as [| d]; [assumption |]).
  rewrite Ez, Ez' by lia; reflexivity.
Qed.

(** X3.  Locality.  The output of iteration [i] for condition [c] depends
    only on the first five depth levels of the profile of that condition
    and on the noise of that iteration at depth indices 1 to 4: a second
    run, on a profile and a noise array of any fitting shapes, gives the
    same values at an iteration [i'] and a condition [c'] where it is given
    the same profile and the same noise factors.  Other conditions, other
    iterations, the noise at depth index 0 and beyond 4, and [varNumCon]
    play no part. *)
Theorem deconv_04_local (vn vn' : Z) (emp emp' : ndarray2 F)
    (nse nse' : ndarray3 F) (i i' c c' : nat) :
  4 < snd (shape2 emp) -> 4 < dim3_2 nse ->
  dim3_1 nse = fst (shape2 emp) \/ dim3_1 nse = 1 ->
  4 < snd (shape2 emp') -> 4 < dim3_2 nse' ->
  dim3_1 nse' = fst (shape2 emp') \/ dim3_1 nse' = 1 ->
  i < dim3_0 nse -> i' < dim3_0 nse' ->
  c < fst (shape2 emp) -> c' < fst (shape2 emp') ->
  (forall d, d <= 4 -> data2 emp' c' d = data2 emp c d) ->
  (forall d, 1 <= d <= 4 ->
             noise_factor nse' i' c' d = noise_factor nse i c d) ->
  exists out out',
    deconv_04 vn emp nse = Ok out /\
    deconv_04 vn' emp' nse' = Ok out' /\
    forall d, data3 out' i' c' d = data3 out i c d.
Proof.
  intros He Hn Hc He' Hn' Hc' Hi Hi' Hci Hci' Hae Han.
  destruct (deconv_04_total vn emp nse He Hn Hc) as (out & Hout).
  destruct (deconv_04_total vn' emp' nse' He' Hn' Hc') as (out' & Hout').
  exists out, out'; split; [assumption |]; split; [assumption |].
  now apply (deconv_04_local_Ok vn vn' emp emp' nse nse' out out' i i' c c').
Qed.

End Deconv04_More.

(** *** On the exact rationals *)

Lemma num_mul_1_r (x : num) : (x * lit 1%Q)%F = x.
Proof.
  destruct x as [a |]; [| reflexivity].
  cbn [fmul lit num_Scalar num_lift2]; f_equal; apply Qcmult_1_r.
Qed.

(** With every noise factor 1 the scheme of model 4 is the plain one. *)
Lemma noisy_scheme_unit (observed : num) (corrected : nat -> num) (k : nat) :
  k < 5 ->
  noisy_scheme (lit 1%Q) observed corrected k
  = plain_scheme observed corrected k.
Proof.
  intros Hk; unfold noisy_scheme, plain_scheme, back_substitute.
  do 5 (destruct k as [| k];
        [cbn [seq rev app fold_left]; now rewrite ?num_mul_1_r |]).
  lia.
Qed.

Lemma deconv_04_unit_noise_Ok (varNumCon : Z) (aryEmp5 : ndarray2 num)
    (aryNseRnd out : ndarray3 num) :
  deconv_04 varNumCon aryEmp5 aryNseRnd = Ok out ->
  (forall i c d, i < dim3_0 aryNseRnd -> c < dim3_1 aryNseRnd ->
                 1 <= d <= 4 -> data3 aryNseRnd i c d = lit 1%Q) ->
  forall i c k,
    i < dim3_0 aryNseRnd -> c < fst (shape2 aryEmp5) -> k < 5 ->
    data3 out i c k
    = plain_scheme (data2 aryEmp5 c k) (data3 out i c) k.
Proof.
  intros Hout Hone i c k Hi Hc Hk.
  rewrite (deconv_04_noisy_scheme _ _ _ _ Hout i c k Hi Hc Hk) at 1.
  destruct k as [| k]; [reflexivity |].
  destruct (deconv_04_Ok_inv _ _ _ _ Hout) as (_ & _ & _ & Hbc & _).
  unfold noise_factor; rewrite Hone; [now apply noisy_scheme_unit | | | lia].
  - exact Hi.
  - unfold bidx; destruct (Nat.eqb_spec (dim3_1 aryNseRnd) 1); lia.
Qed.

(** X4.  Model 4 with every noise factor equal to one is the plain
    deconvolution: each layer is its observed value minus, for every deeper
    layer, that layer's corrected value times its fixed coefficient. *)
Theorem deconv_04_unit_noise_is_plain (varNumCon : Z)
    (aryEmp5 : ndarray2 num) (aryNseRnd : ndarray3 num) :
  4 < snd (shape2 aryEmp5) -> 4 < dim3_2 aryNseRnd ->
  dim3_1 aryNseRnd = fst (shape2 aryEmp5) \/ dim3_1 aryNseRnd = 1 ->
  (forall i c d, i < dim3_0 aryNseRnd -> c < dim3_1 aryNseRnd ->
                 1 <= d <= 4 -> data3 aryNseRnd i c d = lit 1%Q) ->
  exists out,
    deconv_04 varNumCon aryEmp5 aryNseRnd = Ok out /\
    forall i c k,
      i < dim3_0 aryNseRnd -> c < fst (shape2 aryEmp5) -> k < 5 ->
      data3 out i c k
      = plain_scheme (data2 aryEmp5 c k) (data3 out i c) k.
Proof.
  intros He Hn Hc Hone.
  destruct (deconv_04_total varNumCon aryEmp5 aryNseRnd He Hn Hc)
    as (out & Hout).
  exists out; split; [assumption |].
  now apply (deconv_04_unit_noise_Ok varNumCon aryEmp5 aryNseRnd out).
Qed.

(** X5.  With a standard deviation of zero the noise of the script has no
    effect: whatever the (finite) draws of the generator, every iteration
    is the plain deconvolution of the profile. *)
Theorem deconv_04_zero_sd_is_plain (draws : nat -> nat -> nat -> num)
    (varNumCon : Z) (aryEmp5 : ndarray2 num) (varNumIt varNumDpth : nat) :
  4 < snd (shape2 aryEmp5) -> 4 < varNumDpth ->
  (forall i c d, exists z, draws i c d = Some z) ->
  exists out,
    deconv_04 varNumCon aryEmp5
      (aryNseRnd_model4 draws varNumIt (fst (shape2 aryEmp5)) varNumDpth
         (lit 0%Q)) = Ok out /\
    forall i c k,
      i < varNumIt -> c < fst (shape2 aryEmp5) -> k < 5 ->
      data3 out i c k
      = plain_scheme (data2 aryEmp5 c k) (data3 out i c) k.
Proof.
  intros He Hn Hfin.
  set (nse := aryNseRnd_model4 _ _ _ _ _).
  assert (Sn : shape3 nse = (varNumIt, fst (shape2 aryEmp5), varNumDpth))
    by reflexivity.
  destruct (deconv_04_total varNumCon aryEmp5 nse He) as (out & Hout).
  { unfold dim3_2; now rewrite Sn. }
  { left; unfold dim3_1; now rewrite Sn. }
  exists out; split; [assumption |].
  intros i c k Hi Hc Hk.
  apply (deconv_04_unit_noise_Ok varNumCon aryEmp5 nse out Hout);
    [| unfold dim3_0; now rewrite Sn | assumption | assumption].
  intros i0 c0 d _ _ _; unfold nse, aryNseRnd_model4, np_add, np_multiply, randn.
  cbn [data3]; destruct (Hfin i0 c0 d) as (z & ->).
  cbn [fmul fadd lit num_Scalar num_lift2]; f_equal.
  apply Qc_is_canon; cbn [this Qcplus Qcmult Q2Qc].
  rewrite !Qred_correct; ring.
Qed.

Lemma deconv_04_shape_and_padding_witness :
  (4 < snd (shape2 MoreExamples.aryEmp6) /\
   4 < dim3_2 MoreExamples.aryNse6 /\
   (dim3_1 MoreExamples.aryNse6 = fst (shape2 MoreExamples.aryEmp6)
    \/ dim3_1 MoreExamples.aryNse6 = 1)) /\
  exists out,
    deconv_04 1%Z MoreExamples.aryEmp6 MoreExamples.aryNse6 = Ok out /\
    shape3 out
    = (dim3_0 MoreExamples.aryNse6, fst (shape2 MoreExamples.aryEmp6),
       snd (shape2 MoreExamples.aryEmp6)) /\
    forall i c d, i < dim3_0 MoreExamples.aryNse6 ->
                  c < fst (shape2 MoreExamples.aryEmp6) ->
                  4 < d -> data3 out i c d = lit 0%Q.
Proof.
  assert (H0 : 4 < snd (shape2 MoreExamples.aryEmp6)) by (simpl; lia).
  assert (H1 : 4 < dim3_2 MoreExamples.aryNse6) by (vm_compute; lia).
  assert (H2 : dim3_1 MoreExamples.aryNse6
               = fst (shape2 MoreExamples.aryEmp6)
               \/ dim3_1 MoreExamples.aryNse6 = 1) by (left; reflexivity).
  split; [auto |].
  exact (deconv_04_shape_and_padding 1%Z MoreExamples.aryEmp6
           MoreExamples.aryNse6 H0 H1 H2).
Defined.

(** The second condition in the second iteration of the first example, and
    the one condition of the six-level example, see the same profile and
    the same noise. *)
Lemma deconv_04_local_witness :
  exists out out',
    deconv_04 2%Z Examples.aryEmp5 Examples.aryNseRnd = Ok out /\
    deconv_04 1%Z MoreExamples.aryEmp6 MoreExamples.aryNse6 = Ok out' /\
    forall d, data3 out' 0 0 d = data3 out 1 1 d.
Proof.
  apply (deconv_04_local 2%Z 1%Z Examples.aryEmp5 MoreExamples.aryEmp6
           Examples.aryNseRnd MoreExamples.aryNse6 1 0 1 0);
    try (vm_compute; lia); try (left; reflexivity).
  - intros d Hd; do 5 (destruct d as [| d]; [reflexivity |]); lia.
  - intros d Hd; destruct d as [| d]; [lia |].
    do 4 (destruct d as [| d]; [reflexivity |]); lia.
Defined.

Lemma deconv_04_unit_noise_is_plain_witness :
  exists out,
    deconv_04 2%Z Examples.aryEmp5 MoreExamples.aryNseOne = Ok out /\
    forall i c k,
      i < dim3_0 MoreExamples.aryNseOne ->
      c < fst (shape2 Examples.aryEmp5) -> k < 5 ->
      data3 out i c k
      = plain_scheme (data2 Examples.aryEmp5 c k) (data3 out i c) k.
Proof.
  apply (deconv_04_unit_noise_is_plain 2%Z Examples.aryEmp5
           MoreExamples.aryNseOne);
    try (vm_compute; lia); try (left; reflexivity).
  intros i c d Hi Hc Hd.
  destruct i as [| [| i]]; [| | vm_compute in Hi; lia];
    (destruct c as [| [| c]]; [| | vm_compute in Hc; lia]);
    (destruct d as [| d]; [lia |]);
    do 4 (destruct d as [| d]; [reflexivity |]); lia.
Defined.

Lemma deconv_04_zero_sd_is_plain_witness :
  exists out,
    deconv_04 2%Z Examples.aryEmp5
      (aryNseRnd_model4 Examples.draws 3 (fst (shape2 Examples.aryEmp5)) 20
         (lit 0%Q)) = Ok out /\
    forall i c k,
      i < 3 -> c < fst (shape2 Examples.aryEmp5) -> k < 5 ->
      data3 out i c k
      = plain_scheme (data2 Examples.aryEmp5 c k) (data3 out i c) k.
Proof.
  apply (deconv_04_zero_sd_is_plain Examples.draws 2%Z Examples.aryEmp5 3 20);
    try (vm_compute; lia).
  intros i c d; eexists; reflexivity.
Defined.

(** ** drain_model_Huber2017.py: regions and the reach of the grids *)

Section Huber2017_More.

Context {F : Type} `{Scalar F}.

Local Open Scope string_scope.

(** X6.  For a region other than v1 and v2 no layer positions are defined:
    the positions, the two grids and both interpolation steps fail with a
    NameError, whatever the data. *)
Theorem unknown_region_NameError (strRoi : string) (varNumDpth : nat)
    (aryEmpBold_row aryDecon5_row : list F) :
  strRoi <> "v1" -> strRoi <> "v2" ->
  vecPosMdl (F := F) strRoi = Raise NameError /\
  vecPosEmp (F := F) strRoi varNumDpth = Raise NameError /\
  vecIntpEqui (F := F) strRoi varNumDpth = Raise NameError /\
  downsample strRoi varNumDpth aryEmpBold_row = Raise NameError /\
  upsample strRoi varNumDpth aryDecon5_row = Raise NameError.
Proof.
  intros H1 H2.
  assert (E : vecPosMdl (F := F) strRoi = Raise NameError).
  { unfold vecPosMdl.
    destruct (String.eqb_spec strRoi "v1"); [contradiction |].
    destruct (String.eqb_spec strRoi "v2"); [contradiction | reflexivity]. }
  unfold vecPosEmp, vecIntpEqui, downsample, upsample; rewrite E.
  repeat split.
Qed.

End Huber2017_More.

Lemma unknown_region_NameError_witness :
  vecPosMdl (F := num) "v3" = Raise NameError /\
  vecPosEmp (F := num) "v3" 20 = Raise NameError /\
  vecIntpEqui (F := num) "v3" 20 = Raise NameError /\
  downsample "v3" 20 [Examples.q 1] = Raise NameError /\
  upsample "v3" 20 [Examples.q 1] = Raise NameError.
Proof.
  apply (unknown_region_NameError "v3" 20 [Examples.q 1] [Examples.q 1]);
    discriminate.
Defined.

(** *** No extrapolation *)

Lemma Q2Qc_of_nat_le (i m : nat) :
  i <= m ->
  (Q2Qc (inject_Z (Z.of_nat i)) <= Q2Qc (inject_Z (Z.of_nat m)))%Qc.
Proof.
  intros Him; unfold Qcle; cbn [this Q2Qc]; rewrite !Qred_correct.
  rewrite <- Zle_Qle; lia.
Qed.

Lemma Q2Qc_of_nat_pos (m : nat) :
  0 < m -> (Q2Qc 0 < Q2Qc (inject_Z (Z.of_nat m)))%Qc.
Proof.
  intros Hm; unfold Qclt; cbn [this Q2Qc]; rewrite !Qred_correct.
  change 0%Q with (inject_Z 0); rewrite <- Zlt_Qlt; lia.
Qed.

(** Every point of a grid of two or more points lies between its ends. *)
Lemma linspace_between (a b : Qc) (n i : nat) :
  (a <= b)%Qc -> 2 <= n -> i < n ->
  exists x, nth i (linspace (Some a) (Some b) n) None = Some x /\
            (a <= x)%Qc /\ (x <= b)%Qc.
Proof.
  intros Hab Hn Hi; rewrite linspace_nth by assumption.
  unfold of_nat; cbn [lit fsub fdiv fmul fadd num_Scalar num_lift2 num_div].
  destruct (Qc_eq_dec _ _) as [E | E];
    [exfalso; revert E; apply Q2Qc_of_nat_neq_0; lia |].
  cbn [num_lift2]; eexists; split; [reflexivity |].
  set (k := Q2Qc (inject_Z (Z.of_nat (n - 1)))) in *.
  set (t := Q2Qc (inject_Z (Z.of_nat i))).
  set (s := ((b - a) / k)%Qc).
  assert (Hk : (Q2Qc 0 < k)%Qc) by (apply Q2Qc_of_nat_pos; lia).
  assert (Ht0 : (Q2Qc 0 <= t)%Qc) by (apply (Q2Qc_of_nat_le 0 i); lia).
  assert (Htk : (t <= k)%Qc) by (apply Q2Qc_of_nat_le; lia).
  assert (Hsk : (s * k = b - a)%Qc) by (unfold s; field; exact E).
  assert (Hba : (Q2Qc 0 <= b - a)%Qc).
  { apply Qcle_minus_iff in Hab.
    replace (b - a)%Qc with (b + - a)%Qc by ring; exact Hab. }
  assert (Hs : (Q2Qc 0 <= s)%Qc).
  { apply (Qcmult_lt_0_le_reg_r _ _ k Hk).
    rewrite Hsk; replace (Q2Qc 0 * k)%Qc with (Q2Qc 0) by ring; exact Hba. }
  assert (Hts0 : (Q2Qc 0 <= t * s)%Qc).
  { replace (Q2Qc 0) with (Q2Qc 0 * s)%Qc by ring.
    now apply Qcmult_le_compat_r. }
  assert (Hts1 : (t * s <= b - a)%Qc).
  { rewrite <- Hsk, (Qcmult_comm s k); now apply Qcmult_le_compat_r. }
  split.
  - apply Qcle_trans with (Q2Qc 0 + a)%Qc.
    + replace (Q2Qc 0 + a)%Qc with a by ring; apply Qcle_refl.
    + apply Qcplus_le_compat; [exact Hts0 | apply Qcle_refl].
  - apply Qcle_trans with ((b - a) + a)%Qc.
    + apply Qcplus_le_compat; [exact Hts1 | apply Qcle_refl].
    + replace ((b - a) + a)%Qc with b by ring; apply Qcle_refl.
Qed.

Lemma linspace_ends (a b : Qc) (n : nat) :
  2 <= n ->
  In (Some a) (linspace (Some a) (Some b) n) /\
  In (Some b) (linspace (Some a) (Some b) n).
Proof.
  intros Hn.
  assert (E : Q2Qc (inject_Z (Z.of_nat (n - 1))) <> Q2Qc 0)
    by (apply Q2Qc_of_nat_neq_0; lia).
  split.
  - replace (Some a) with (nth 0 (linspace (Some a) (Some b) n) None) at 1.
    + apply nth_In; rewrite linspace_length; lia.
    + rewrite linspace_nth by lia.
      unfold of_nat; cbn [lit fsub fdiv fmul fadd num_Scalar num_lift2 num_div].
      destruct (Qc_eq_dec _ _) as [E' | _]; [contradiction |].
      cbn [num_lift2]; f_equal.
      change (Q2Qc (inject_Z (Z.of_nat 0))) with (Q2Qc 0); field; exact E.
  - replace (Some b)
      with (nth (n - 1) (linspace (Some a) (Some b) n) None) at 1.
    + apply nth_In; rewrite linspace_length; lia.
    + rewrite linspace_nth by lia.
      unfold of_nat; cbn [lit fsub fdiv fmul fadd num_Scalar num_lift2 num_div].
      destruct (Qc_eq_dec _ _) as [E' | _]; [contradiction |].
      cbn [num_lift2]; f_equal; field; exact E.
Qed.

(** A closed comparison of two rationals, by computation. *)
Ltac qc_le := apply Qle_bool_imp_le; vm_compute; reflexivity.

(** An entry of a concrete list of numbers lies between two bounds. *)
Ltac within_bounds Hin :=
  repeat (destruct Hin as [<- | Hin];
          [match goal with
           | |- exists a, ?x = Some a /\ _ =>
               exists (match x with Some v => v | None => Q2Qc 0 end)
           end;
           split; [apply num_eq_this; vm_compute; reflexivity
                  | split; qc_le] |]);
  destruct Hin.

(** X7.  Neither interpolation is asked to extrapolate.  For both regions
    and two or more depth levels, in exact arithmetic: the five layer
    positions and the grid of the empirical data (which is also the grid
    interpolated back to) have the same smallest and the same largest
    position, and every position of the one lies between two positions of
    the other.  So the positions either [griddata] call is asked for lie
    within the span of the positions it is given data at.  Whether
    [griddata] returns is no part of this. *)
Theorem resampling_never_extrapolates (strRoi : string) (varNumDpth : nat) :
  (strRoi = "v1" \/ strRoi = "v2")%string -> 2 <= varNumDpth ->
  exists (pos grid : list num) (lo hi : Qc),
    vecPosMdl strRoi = Ok pos /\
    vecPosEmp strRoi varNumDpth = Ok grid /\
    vecIntpEqui strRoi varNumDpth = Ok grid /\
    In (Some lo) pos /\ In (Some hi) pos /\
    In (Some lo) grid /\ In (Some hi) grid /\
    (forall x, In x pos ->
               exists a, x = Some a /\ (lo <= a)%Qc /\ (a <= hi)%Qc) /\
    (forall x, In x grid ->
               exists a, x = Some a /\ (lo <= a)%Qc /\ (a <= hi)%Qc).
Proof.
  intros Hroi Hn.
  assert (Hpos : exists pos a b,
             vecPosMdl (F := num) strRoi = Ok pos /\
             np_min pos = Ok (Some a) /\ np_max pos = Ok (Some b) /\
             In (Some a) pos /\ In (Some b) pos /\ (a <= b)%Qc /\
             forall x, In x pos ->
               exists v, x = Some v /\ (a <= v)%Qc /\ (v <= b)%Qc).
  { destruct Hroi as [-> | ->].
    - exists [lit 0.1%Q; lit 0.25%Q; lit 0.5%Q; lit 0.8%Q; lit 0.95%Q],
        (Q2Qc 0.1), (Q2Qc 0.95).
      split; [reflexivity |].
      split; [cbn [np_min np_max map]; f_equal; apply num_eq_this;
              vm_compute; reflexivity |].
      split; [cbn [np_min np_max map]; f_equal; apply num_eq_this;
              vm_compute; reflexivity |].
      split; [left; reflexivity |].
      split; [do 4 right; left; reflexivity |].
      split; [qc_le |].
      intros x Hin; within_bounds Hin.
    - eexists _, (Q2Qc (160 # 1700)), (Q2Qc (1620 # 1700)).
      split; [reflexivity |].
      split; [cbn [np_min np_max map]; f_equal; apply num_eq_this;
              vm_compute; reflexivity |].
      split; [cbn [np_min np_max map]; f_equal; apply num_eq_this;
              vm_compute; reflexivity |].
      split; [left; apply num_eq_this; vm_compute; reflexivity |].
      split; [do 4 right; left; apply num_eq_this; vm_compute; reflexivity |].
      split; [qc_le |].
      intros x Hin; cbn [map] in Hin; within_bounds Hin. }
  destruct Hpos as (pos & a & b & Hp & Hlo & Hhi & Ia & Ib & Hab & Hin).
  assert (Hgrid : vecPosEmp (F := num) strRoi varNumDpth
                  = Ok (linspace (Some a) (Some b) varNumDpth)).
  { unfold vecPosEmp; rewrite Hp; cbn [bind]; rewrite Hlo, Hhi;
      reflexivity. }
  exists pos, (linspace (Some a) (Some b) varNumDpth), a, b.
  split; [exact Hp |]. split; [exact Hgrid |].
  split; [rewrite vecIntpEqui_vecPosEmp; exact Hgrid |].
  destruct (linspace_ends a b varNumDpth Hn) as [Ga Gb].
  repeat (split; [assumption |]).
  intros x Hx; apply (In_nth _ _ None) in Hx.
  destruct Hx as (i & Hi & <-); rewrite linspace_length in Hi.
  now apply linspace_between.
Qed.

Lemma resampling_never_extrapolates_witness :
  exists (pos grid : list num) (lo hi : Qc),
    vecPosMdl "v2" = Ok pos /\
    vecPosEmp "v2" 8 = Ok grid /\
    vecIntpEqui "v2" 8 = Ok grid /\
    In (Some lo) pos /\ In (Some hi) pos /\
    In (Some lo) grid /\ In (Some hi) grid /\
    (forall x, In x pos ->
               exists a, x = Some a /\ (lo <= a)%Qc /\ (a <= hi)%Qc) /\
    (forall x, In x grid ->
               exists a, x = Some a /\ (lo <= a)%Qc /\ (a <= hi)%Qc).
Proof.
  apply (resampling_never_extrapolates "v2" 8);
    [right; reflexivity | lia].
Defined.

(** ** boot_plot: what a bound depends on *)

Section BootPlot_More.

Context {F : Type} `{Scalar F}.

(** X8.  The bounds and the median at one condition and depth level depend
    on the values of the subjects at that condition and depth level only:
    two inputs with the same number of subjects, bootstrapped with the same
    draws, iterations and percentiles, give the same three numbers wherever
    their subjects' values coincide. *)
Theorem boot_plot_columnwise (rng : nat -> nat -> nat)
    (aryDpth aryDpth' : ndarray3 F) (varNumIt : Z) (varConLw varConUp : F)
    (c d c' d' : nat) :
  0 < dim3_0 aryDpth -> dim3_0 aryDpth' = dim3_0 aryDpth ->
  (0 < varNumIt)%Z ->
  out_of_range varConLw = false -> out_of_range varConUp = false ->
  (forall s, s < dim3_0 aryDpth ->
             data3 aryDpth' s c' d' = data3 aryDpth s c d) ->
  exists call call',
    boot_plot rng aryDpth varNumIt varConLw varConUp = Ok call /\
    boot_plot rng aryDpth' varNumIt varConLw varConUp = Ok call' /\
    data2 (aryCnfLw call') c' d' = data2 (aryCnfLw call) c d /\
    data2 (aryCnfUp call') c' d' = data2 (aryCnfUp call) c d /\
    data2 (aryData call') c' d' = data2 (aryData call) c d.
Proof.
  intros Hsub Hsame Hit Hlw Hup Hcol.
  assert (Hsub' : 0 < dim3_0 aryDpth') by lia.
  destruct (boot_plot_Ok rng aryDpth varNumIt varConLw varConUp
              Hit Hlw Hup) as (call & Hcall & _ & _ & _ & Hd).
  destruct (boot_plot_Ok rng aryDpth' varNumIt varConLw varConUp
              Hit Hlw Hup) as (call' & Hcall' & _ & _ & _ & Hd').
  exists call, call'; split; [assumption |]; split; [assumption |].
  cbv zeta in Hd, Hd'.
  destruct (Hd c d) as (L & U & M), (Hd' c' d') as (L' & U' & M').
  rewrite L, U, M, L', U', M', Hsame.
  assert (Emed : forall it,
             np_median
               (map (fun s => data3 aryDpth'
                                (rng it s mod dim3_0 aryDpth) c' d')
                    (seq 0 (dim3_0 aryDpth)))
             = np_median
                 (map (fun s => data3 aryDpth
                                  (rng it s mod dim3_0 aryDpth) c d)
                      (seq 0 (dim3_0 aryDpth)))).
  { intros it; f_equal; apply map_ext; intros s; apply Hcol.
    apply Nat.mod_upper_bound; lia. }
  assert (Eit : map (fun it =>
                       np_median
                         (map (fun s => data3 aryDpth'
                                          (rng it s mod dim3_0 aryDpth) c' d')
                              (seq 0 (dim3_0 aryDpth))))
                  (seq 0 (Z.to_nat varNumIt))
                = map (fun it =>
                         np_median
                           (map (fun s => data3 aryDpth
                                            (rng it s mod dim3_0 aryDpth) c d)
                                (seq 0 (dim3_0 aryDpth))))
                    (seq 0 (Z.to_nat varNumIt))).
  { apply map_ext; exact Emed. }
  rewrite Eit; repeat split.
  f_equal; apply map_ext_in; intros s Hs; apply in_seq in Hs.
  apply Hcol; lia.
Qed.

End BootPlot_More.

Lemma boot_plot_columnwise_witness :
  exists call call',
    boot_plot Examples.rng Examples.aryDpth 4 (Examples.q 2.5)
      (Examples.q 97.5) = Ok call /\
    boot_plot Examples.rng MoreExamples.aryDpthB 4 (Examples.q 2.5)
      (Examples.q 97.5) = Ok call' /\
    data2 (aryCnfLw call') 0 1 = data2 (aryCnfLw call) 0 0 /\
    data2 (aryCnfUp call') 0 1 = data2 (aryCnfUp call) 0 0 /\
    data2 (aryData call') 0 1 = data2 (aryData call) 0 0.
Proof.
  apply (boot_plot_columnwise Examples.rng Examples.aryDpth
           MoreExamples.aryDpthB 4%Z (Examples.q 2.5) (Examples.q 97.5)
           0 0 0 1);
    try (vm_compute; lia); try (vm_compute; reflexivity).
  intros s Hs; destruct s as [| [| [| s]]];
    [reflexivity | reflexivity | reflexivity | vm_compute in Hs; lia].
Defined.

(** ** boot_plot: subjects that agree *)

Lemma map_seq_const {A : Type} (f : nat -> A) (x : A) (a n : nat) :
  (forall s, a <= s < a + n -> f s = x) -> map f (seq a n) = repeat x n.
Proof.
  revert a; induction n as [| n IH]; intros a Hf; [reflexivity |].
  cbn [seq map repeat]; f_equal; [apply Hf; lia |].
  apply IH; intros s Hs; apply Hf; lia.
Qed.

Lemma nth_repeat_lt {A : Type} (x d : A) (n k : nat) :
  k < n -> nth k (repeat x n) d = x.
Proof.
  revert k; induction n as [| n IH]; intros [| k] Hk; cbn [repeat nth];
    try lia; [reflexivity | apply IH; lia].
Qed.








Lemma out_of_range_bounds (q : Qc) :
  out_of_range (Some q) = false -> (Q2Qc 0 <= q /\ q <= Q2Qc 100)%Qc.
Proof.
  unfold out_of_range; cbn [fisnan fltb lit num_Scalar num_isnan num_ltb orb].
  destruct (Qclt_le_dec q (Q2Qc 0)); [discriminate |].
  destruct (Qclt_le_dec (Q2Qc 100) q); [discriminate |].
  intros _; split; assumption.
Qed.




(** ** funcSlctVrtcs: the inclusion vector and the rows kept *)

Lemma mapM_Ok_inv {A B : Type} (f : A -> result B) (l : list A)
    (ys : list B) :
  mapM f l = Ok ys ->
  List.length ys = List.length l /\
  forall i x, nth_error l i = Some x ->
              exists y, f x = Ok y /\ nth_error ys i = Some y.
Proof.
  revert ys; induction l as [| x l IH]; intros ys Hm.
  - injection Hm as <-; split; [reflexivity |].
    intros [| i] x Hx; discriminate.
  - cbn [mapM] in Hm.
    bind_as Hm y Hy. bind_as Hm ys' Hys. injection Hm as <-.
    destruct (IH _ Hys) as [Hl Hn].
    split; [cbn [List.length]; now rewrite Hl |].
    intros [| i] x' Hx; cbn [nth_error] in *.
    + injection Hx as <-; eauto.
    + apply Hn; exact Hx.
Qed.

Lemma mapM_total {A B : Type} (f : A -> result B) (l : list A) :
  (forall x, In x l -> exists y, f x = Ok y) -> exists ys, mapM f l = Ok ys.
Proof.
  induction l as [| x l IH]; intros Hf; [now exists [] |].
  destruct (Hf x (or_introl eq_refl)) as (y & Hy).
  destruct IH as (ys & Hys); [intros x' Hx'; apply Hf; now right |].
  exists (y :: ys); cbn [mapM]; rewrite Hy; cbn [bind]; now rewrite Hys.
Qed.

Lemma nth_list_set_true (l : list bool) (i j : nat) :
  nth j (list_set l i true) false
  = nth j l false || ((i =? j) && (j <? List.length l)).
Proof.
  revert i j; induction l as [| y l IH]; intros i j.
  - destruct i, j; cbn [list_set nth]; now rewrite ?andb_false_r.
  - destruct i as [| i], j as [| j]; cbn [list_set nth].
    + now rewrite orb_true_r.
    + now rewrite orb_false_r.
    + now rewrite orb_false_r.
    + rewrite IH; reflexivity.
Qed.

(** Setting entries to true: an entry is true afterwards when it was true
    before or its position is one of those set. *)
Lemma nth_fold_set_true (js : list nat) (v : list bool) (i : nat) :
  nth i (fold_left (fun v j => list_set v j true) js v) false = true <->
  nth i v false = true \/ (In i js /\ i < List.length v).
Proof.
  revert v; induction js as [| j js IH]; intros v; cbn [fold_left In].
  - intuition.
  - rewrite IH, nth_list_set_true, length_list_set.
    rewrite orb_true_iff, andb_true_iff, Nat.eqb_eq, Nat.ltb_lt.
    intuition.
Qed.

Lemma nth_and_combine (a b : list bool) (i : nat) :
  List.length a = List.length b ->
  nth i (map (fun p => fst p && snd p) (combine a b)) false
  = nth i a false && nth i b false.
Proof.
  revert b i; induction a as [| x a IH]; intros [| y b] i Hl;
    try discriminate Hl.
  - now destruct i.
  - destruct i; cbn [combine map nth fst snd]; [reflexivity |].
    apply IH; now injection Hl.
Qed.

(** On vectors of one length, [np.logical_and] is the entrywise AND. *)
Lemma np_logical_and_pointwise (a b r : list bool) :
  List.length a = List.length b -> np_logical_and a b = Ok r ->
  List.length r = List.length a /\
  forall i, nth i r false = nth i a false && nth i b false.
Proof.
  intros Hl; unfold np_logical_and; rewrite Hl, Nat.eqb_refl.
  intros [= <-]; split.
  - rewrite length_map, length_combine; lia.
  - intros i; now apply nth_and_combine.
Qed.

Lemma flatnonzero_from_In (v : list bool) (k i : nat) :
  In i (flatnonzero_from k v) <-> k <= i /\ nth (i - k) v false = true.
Proof.
  revert k; induction v as [| b v IH]; intros k.
  - cbn [flatnonzero_from In]; destruct (i - k); cbn [nth];
      intuition discriminate.
  - assert (Hrest : In i (flatnonzero_from (S k) v)
                    <-> k < i /\ nth (i - k) (b :: v) false = true).
    { rewrite IH; destruct (Nat.lt_ge_cases k i) as [Hki | Hki];
        [| lia].
      replace (i - k) with (S (i - S k)) by lia; cbn [nth]; intuition. }
    cbn [flatnonzero_from].
    destruct (Nat.eq_dec i k) as [-> | Hik].
    + rewrite Nat.sub_diag in *; cbn [nth] in *.
      destruct b; cbn [In]; rewrite ?Hrest; intuition (lia || discriminate).
    + destruct b; cbn [In]; rewrite Hrest; intuition lia.
Qed.

Lemma flatnonzero_from_sorted (v : list bool) (k : nat) :
  StronglySorted lt (flatnonzero_from k v).
Proof.
  revert k; induction v as [| b v IH]; intros k; cbn [flatnonzero_from];
    [constructor |].
  destruct b; [| apply IH].
  constructor; [apply IH |].
  apply Forall_forall; intros i Hi.
  apply flatnonzero_from_In in Hi; lia.
Qed.

Lemma flatnonzero_repeat_true (n k : nat) :
  flatnonzero_from k (repeat true n) = seq k n.
Proof.
  revert k; induction n as [| n IH]; intros k; [reflexivity |].
  cbn [repeat flatnonzero_from seq]; now rewrite IH.
Qed.

Section SlctVrtcs_More.

Context {F : Type} `{Scalar F}.

(** The loop through the conditions [k, k + m): it ends only when the list
    has these positions; the arrays there are replaced by their included
    rows and the others are left as they are. *)
Lemma apply_inclusion_inv (vecInc : list bool) (m : nat) :
  forall (k : nat) (l l' : list (ndarray2 F)),
    apply_inclusion vecInc l (seq k m) = Ok l' ->
    List.length l' = List.length l /\
    (0 < m -> k + m <= List.length l) /\
    (forall j, k <= j < k + m ->
       exists a a', nth_error l j = Some a /\ nth_error l' j = Some a' /\
                    mask_rows a vecInc = Ok a') /\
    (forall j, ~ (k <= j < k + m) -> nth_error l' j = nth_error l j).
Proof.
  induction m as [| m IH]; intros k l l' Hrun.
  - cbn in Hrun; injection Hrun as <-; repeat split; intros; lia || auto.
  - cbn [seq apply_inclusion] in Hrun.
    destruct (nth_error l k) as [a |] eqn:Hk; [| discriminate].
    bind_as Hrun a1 Hmask.
    assert (Hkl : k < List.length l) by (apply nth_error_Some; congruence).
    apply IH in Hrun; destruct Hrun as (Hl & Hb & Hin & Hout).
    rewrite length_list_set in Hl, Hb.
    split; [exact Hl |]. split; [destruct m; lia |]. split.
    + intros j Hj; destruct (Nat.eq_dec j k) as [-> | Hjk].
      * exists a, a1; split; [exact Hk |]. split; [| exact Hmask].
        rewrite Hout by lia. now apply nth_error_list_set_eq.
      * destruct (Hin j) as (b & b' & Hb1 & Hb2 & Hb3); [lia |].
        rewrite nth_error_list_set_neq in Hb1 by lia. eauto.
    + intros j Hj; rewrite Hout by lia.
      apply nth_error_list_set_neq; lia.
Qed.

Lemma apply_inclusion_total (vecInc : list bool) (m : nat) :
  forall (k : nat) (l : list (ndarray2 F)),
    k + m <= List.length l ->
    (forall j a, k <= j < k + m -> nth_error l j = Some a ->
                 fst (shape2 a) = List.length vecInc) ->
    exists l', apply_inclusion vecInc l (seq k m) = Ok l'.
Proof.
  induction m as [| m IH]; intros k l Hlen Hrows; [now exists l |].
  cbn [seq apply_inclusion].
  destruct (nth_error l k) as [a |] eqn:Hk;
    [| apply nth_error_None in Hk; lia].
  unfold mask_rows at 1.
  rewrite <- (Hrows k a) by (lia || assumption).
  rewrite Nat.eqb_refl; cbn [bind].
  apply IH; [rewrite length_list_set; lia |].
  intros j b Hj Hb; rewrite nth_error_list_set_neq in Hb by lia.
  apply (Hrows j); [lia | exact Hb].
Qed.

Lemma nth_error_map_seq {A : Type} (f : nat -> A) (n k : nat) :
  k < n -> nth_error (map f (seq 0 n)) k = Some (f k).
Proof.
  intros Hk.
  rewrite (nth_error_nth' _ (f 0)) by (rewrite length_map, length_seq; lia).
  f_equal; now apply nth_map_seq.
Qed.

Lemma norm_index_Ok (n : nat) (z : Z) (j : nat) :
  norm_index n z = Ok j -> (- Z.of_nat n <= z < Z.of_nat n)%Z /\ j < n.
Proof.
  unfold norm_index.
  destruct (Z.leb_spec 0 z), (Z.ltb_spec z (Z.of_nat n)); cbn [andb];
    try (intros [= <-]; lia);
    destruct (Z.leb_spec (- Z.of_nat n) z), (Z.ltb_spec z 0); cbn [andb];
    try discriminate; intros [= <-]; lia.
Qed.

Lemma norm_index_total (n : nat) (z : Z) :
  (- Z.of_nat n <= z < Z.of_nat n)%Z -> exists j, norm_index n z = Ok j.
Proof.
  intros Hz; unfold norm_index.
  destruct (Z.leb_spec 0 z), (Z.ltb_spec z (Z.of_nat n)); cbn [andb];
    try (eexists; reflexivity); try lia.
  destruct (Z.leb_spec (- Z.of_nat n) z), (Z.ltb_spec z 0); cbn [andb];
    try (eexists; reflexivity); lia.
Qed.

(** Criterion 1: the vertices included are those that an entry of the
    second column of the region array points to. *)
Lemma criterion1_included (N : nat) (roi : ndarray2 F) (v : list bool) :
  criterion1 N roi = Ok v ->
  List.length v = N /\
  1 < snd (shape2 roi) /\
  (forall k, k < fst (shape2 roi) ->
     (- Z.of_nat N <= astype_int64 (data2 roi k 1) < Z.of_nat N)%Z) /\
  forall i, i < N ->
    (nth i v false = true <->
     exists k, k < fst (shape2 roi) /\
               norm_index N (astype_int64 (data2 roi k 1)) = Ok i).
Proof.
  intros Hc; split; [now apply criterion1_length in Hc |].
  unfold criterion1 in Hc; bind_as Hc idx Hidx.
  unfold column1_int64 in Hidx.
  destruct (Nat.ltb_spec 1 (snd (shape2 roi))); [| discriminate].
  injection Hidx as <-.
  unfold set_true in Hc; bind_as Hc js Hjs; injection Hc as <-.
  rewrite repeat_length in Hjs.
  apply mapM_Ok_inv in Hjs; destruct Hjs as [Hl Hn].
  rewrite length_map, length_seq in Hl.
  split; [assumption |]. split.
  - intros k Hk.
    destruct (Hn k _ (nth_error_map_seq _ _ k Hk)) as (y & Hy & _).
    now apply norm_index_Ok in Hy.
  - intros i Hi; rewrite nth_fold_set_true, repeat_length; split.
    + intros [Hf | [Hin _]];
        [rewrite nth_repeat_lt in Hf by lia; discriminate |].
      apply In_nth_error in Hin; destruct Hin as [k Hk].
      assert (Hkr : k < fst (shape2 roi)).
      { rewrite <- Hl; apply nth_error_Some; congruence. }
      exists k; split; [assumption |].
      destruct (Hn k _ (nth_error_map_seq _ _ k Hkr)) as (y & Hy & Hyk).
      congruence.
    + intros (k & Hk & Hnorm); right; split; [| lia].
      destruct (Hn k _ (nth_error_map_seq _ _ k Hk)) as (y & Hy & Hyk).
      rewrite Hnorm in Hy; injection Hy as <-.
      eapply nth_error_In; eassumption.
Qed.

(** One of the criteria 2 to 4 on vectors of the length of the mesh: the
    vertices that stay included are those that pass its test. *)
Lemma and_stage (N : nat) (lgc : bool)
    (crit : list bool -> result (list bool)) (P : nat -> Prop)
    (st st' : list bool * list nat) :
  (lgc = true -> forall v v', List.length v = N -> crit v = Ok v' ->
     exists b, List.length b = N /\ np_logical_and v b = Ok v' /\
               forall i, i < N -> (nth i b false = true <-> P i)) ->
  apply_criterion lgc crit st = Ok st' ->
  List.length (fst st) = N ->
  List.length (fst st') = N /\
  forall i, i < N ->
    (nth i (fst st') false = true <->
     nth i (fst st) false = true /\ (lgc = true -> P i)).
Proof.
  intros Hcrit Hs Hlen; apply apply_criterion_Ok in Hs.
  destruct Hs as [[-> ->] | [-> (v & Hv & ->)]].
  - split; [assumption |]. intros i Hi; intuition discriminate.
  - cbn [fst]; destruct (Hcrit eq_refl _ _ Hlen Hv) as (b & Hb & Hand & HP).
    apply np_logical_and_pointwise in Hand; [| lia].
    destruct Hand as [Hl Hpt].
    split; [lia |].
    intros i Hi; rewrite Hpt, andb_true_iff, (HP i Hi); intuition.
Qed.

Lemma criterion2_test (N : nat) (a : ndarray2 F) (thr : F)
    (v v' : list bool) :
  fst (shape2 a) = N -> List.length v = N -> criterion2 v a thr = Ok v' ->
  exists b, List.length b = N /\ np_logical_and v b = Ok v' /\
            forall i, i < N ->
              (nth i b false = true <-> fltb thr (np_mean (row a i)) = true).
Proof.
  intros Ha Hv Hc; unfold criterion2 in Hc.
  eexists; split; [| split; [exact Hc |]].
  - unfold np_greater, mean_axis1; now rewrite !length_map, length_seq.
  - intros i Hi; unfold np_greater, mean_axis1.
    rewrite map_map, nth_map_seq by lia; reflexivity.
Qed.

Lemma criterion4_test (N : nat) (a : ndarray2 F) (thr : F)
    (v v' : list bool) :
  fst (shape2 a) = N -> List.length v = N -> criterion4 v a thr = Ok v' ->
  exists b, List.length b = N /\ np_logical_and v b = Ok v' /\
            forall i, i < N ->
              (nth i b false = true <-> fltb (np_mean (row a i)) thr = true).
Proof.
  intros Ha Hv Hc; unfold criterion4 in Hc.
  eexists; split; [| split; [exact Hc |]].
  - unfold np_less, mean_axis1; now rewrite !length_map, length_seq.
  - intros i Hi; unfold np_less, mean_axis1.
    rewrite map_map, nth_map_seq by lia; reflexivity.
Qed.

Lemma criterion3_test (N : nat) (a : ndarray2 F) (thr : F)
    (v v' : list bool) :
  fst (shape2 a) = N -> List.length v = N -> criterion3 v a thr = Ok v' ->
  0 < snd (shape2 a) /\
  exists b, List.length b = N /\ np_logical_and v b = Ok v' /\
            forall i, i < N ->
              (nth i b false = true <->
               exists m, np_min (row a i) = Ok m /\ fltb thr m = true).
Proof.
  intros Ha Hv Hc; unfold criterion3 in Hc; bind_as Hc ms Hms.
  unfold min_axis1 in Hms.
  destruct (Nat.eqb_spec (snd (shape2 a)) 0); [discriminate |].
  split; [lia |].
  apply mapM_Ok_inv in Hms; destruct Hms as [Hl Hn].
  rewrite length_seq in Hl.
  eexists; split; [| split; [exact Hc |]].
  - unfold np_greater; rewrite length_map; lia.
  - intros i Hi.
    destruct (Hn i i) as (y & Hy & Hyi).
    { rewrite (nth_error_nth' _ 0) by (rewrite length_seq; lia).
      now rewrite seq_nth by lia. }
    unfold np_greater.
    rewrite (nth_error_nth _ _ false
               (map_nth_error (fun x => fltb thr x) _ _ Hyi)).
    split; [eauto |].
    intros (m & Hm & Ht); congruence.
Qed.

(** X10.  Which vertices are included.  In a call that returns, with the
    arrays of the criteria switched on having one row per vertex of the
    mesh, vertex [i] is included exactly when: (1) if criterion 1 is on,
    some entry of the second column of the region array, read as an
    integer index (a negative one counting from the end), is [i]; (2) if
    criterion 2 is on, the mean of row [i] of its array is greater than
    its threshold; (3) if criterion 3 is on, the minimum of row [i] of its
    array is greater than its threshold; (4) if criterion 4 is on, the
    mean of row [i] of its array is less than its threshold. *)
Theorem funcSlctVrtcs_included_iff (varNumCon : Z)
    (lstDpthData01 : list (ndarray2 F))
    (lgcSlct01 : bool) (aryRoiVrtx : ndarray2 F)
    (lgcSlct02 : bool) (arySlct02 : ndarray2 F) (varThrSlct02 : F)
    (lgcSlct03 : bool) (arySlct03 : ndarray2 F) (varThrSlct03 : F)
    (lgcSlct04 : bool) (arySlct04 : ndarray2 F) (varThrSlct04 : F)
    (idxPrc : Z) (r : slct_result F) (i : nat) :
  let N := fst (shape2 (hd zeros2_0 lstDpthData01)) in
  funcSlctVrtcs varNumCon lstDpthData01 lgcSlct01 aryRoiVrtx
    lgcSlct02 arySlct02 varThrSlct02 lgcSlct03 arySlct03 varThrSlct03
    lgcSlct04 arySlct04 varThrSlct04 idxPrc = Ok r ->
  (lgcSlct02 = true -> fst (shape2 arySlct02) = N) ->
  (lgcSlct03 = true -> fst (shape2 arySlct03) = N) ->
  (lgcSlct04 = true -> fst (shape2 arySlct04) = N) ->
  i < N ->
  (nth i (ret_vecInc r) false = true <->
   (lgcSlct01 = true ->
    exists k, k < fst (shape2 aryRoiVrtx) /\
              norm_index N (astype_int64 (data2 aryRoiVrtx k 1)) = Ok i) /\
   (lgcSlct02 = true ->
    fltb varThrSlct02 (np_mean (row arySlct02 i)) = true) /\
   (lgcSlct03 = true ->
    exists m, np_min (row arySlct03 i) = Ok m /\
              fltb varThrSlct03 m = true) /\
   (lgcSlct04 = true ->
    fltb (np_mean (row arySlct04 i)) varThrSlct04 = true)).
Proof.
  intros N Hrun R2 R3 R4 Hi.
  unfold funcSlctVrtcs in Hrun.
  destruct lstDpthData01 as [| a0 rest]; [discriminate |].
  cbn [bind hd] in Hrun, N; fold N in Hrun.
  bind_as Hrun st1 H1. bind_as Hrun st2 H2. bind_as Hrun st3 H3.
  bind_as Hrun st4 H4. bind_as Hrun lst' Hl.
  injection Hrun as <-; cbn [ret_vecInc].
  assert (S1 : List.length (fst st1) = N /\
               forall i, i < N ->
                 (nth i (fst st1) false = true <->
                  (lgcSlct01 = true ->
                   exists k, k < fst (shape2 aryRoiVrtx) /\
                             norm_index N
                               (astype_int64 (data2 aryRoiVrtx k 1))
                             = Ok i))).
  { apply apply_criterion_Ok in H1; cbn [fst snd] in H1.
    destruct H1 as [[-> ->] | [-> (v & Hv & ->)]]; cbn [fst].
    - split; [apply repeat_length |].
      intros j Hj; rewrite nth_repeat_lt by lia.
      intuition discriminate.
    - destruct (criterion1_included _ _ _ Hv) as (Hlen & _ & _ & Hv').
      split; [assumption |].
      intros j Hj; rewrite (Hv' j Hj); intuition. }
  destruct S1 as [L1 I1].
  destruct (and_stage N lgcSlct02 _
              (fun i => fltb varThrSlct02 (np_mean (row arySlct02 i)) = true)
              st1 st2
              (fun E v v' => criterion2_test N arySlct02 varThrSlct02 v v'
                               (R2 E)) H2 L1) as [L2 I2].
  destruct (and_stage N lgcSlct03 _
              (fun i => exists m, np_min (row arySlct03 i) = Ok m /\
                                  fltb varThrSlct03 m = true)
              st2 st3
              (fun E v v' Hv Hc =>
                 proj2 (criterion3_test N arySlct03 varThrSlct03 v v'
                          (R3 E) Hv Hc)) H3 L2) as [L3 I3].
  destruct (and_stage N lgcSlct04 _
              (fun i => fltb (np_mean (row arySlct04 i)) varThrSlct04 = true)
              st3 st4
              (fun E v v' => criterion4_test N arySlct04 varThrSlct04 v v'
                               (R4 E)) H4 L3) as [L4 I4].
  rewrite (I4 i Hi), (I3 i Hi), (I2 i Hi), (I1 i Hi); tauto.
Qed.

(** X11.  Which rows are returned.  In a call that returns, the arrays of
    the first [varNumCon] conditions keep their columns and hold the rows
    of the included vertices, in ascending order of the vertex index; the
    arrays after these are returned as they were passed. *)
Theorem funcSlctVrtcs_rows (varNumCon : Z)
    (lstDpthData01 : list (ndarray2 F))
    (lgcSlct01 : bool) (aryRoiVrtx : ndarray2 F)
    (lgcSlct02 : bool) (arySlct02 : ndarray2 F) (varThrSlct02 : F)
    (lgcSlct03 : bool) (arySlct03 : ndarray2 F) (varThrSlct03 : F)
    (lgcSlct04 : bool) (arySlct04 : ndarray2 F) (varThrSlct04 : F)
    (idxPrc : Z) (r : slct_result F) :
  funcSlctVrtcs varNumCon lstDpthData01 lgcSlct01 aryRoiVrtx
    lgcSlct02 arySlct02 varThrSlct02 lgcSlct03 arySlct03 varThrSlct03
    lgcSlct04 arySlct04 varThrSlct04 idxPrc = Ok r ->
  exists sel : list nat,
    StronglySorted lt sel /\
    (forall i, In i sel <-> nth i (ret_vecInc r) false = true) /\
    List.length (ret_lstDpthData01 r) = List.length lstDpthData01 /\
    forall j a, nth_error lstDpthData01 j = Some a ->
      (j < Z.to_nat varNumCon ->
       exists a', nth_error (ret_lstDpthData01 r) j = Some a' /\
                  shape2 a' = (List.length sel, snd (shape2 a)) /\
                  forall k c, data2 a' k c = data2 a (nth k sel 0) c) /\
      (Z.to_nat varNumCon <= j ->
       nth_error (ret_lstDpthData01 r) j = Some a).
Proof.
  intros Hrun; unfold funcSlctVrtcs in Hrun.
  bind_as Hrun n0 Hn0.
  bind_as Hrun st1 H1. bind_as Hrun st2 H2. bind_as Hrun st3 H3.
  bind_as Hrun st4 H4. bind_as Hrun lst' Hl.
  injection Hrun as <-; cbn [ret_vecInc ret_lstDpthData01].
  apply apply_inclusion_inv in Hl; destruct Hl as (Hlen & _ & Hin & Hout).
  exists (flatnonzero (fst st4)); split; [apply flatnonzero_from_sorted |].
  split.
  { intros i; unfold flatnonzero; rewrite flatnonzero_from_In, Nat.sub_0_r.
    intuition lia. }
  split; [exact Hlen |].
  intros j a Ha; split.
  - intros Hj; destruct (Hin j) as (b & b' & Hb & Hb' & Hmask); [lia |].
    assert (b = a) by congruence; subst b.
    exists b'; split; [exact Hb' |].
    unfold mask_rows in Hmask.
    destruct (List.length (fst st4) =? fst (shape2 a)); [| discriminate].
    injection Hmask as <-; split; reflexivity.
  - intros Hj; rewrite Hout by lia; exact Ha.
Qed.

(** X12.  What a call that returns has passed.  The list of arrays is not
    empty and has at least [varNumCon] entries, each of the first
    [varNumCon] with one row per entry of the inclusion vector; with
    criterion 1 on, the region array has a second column and every index
    in it lies within the mesh, from minus the number of vertices up to
    but excluding the number of vertices; with criterion 3 on, its array
    has at least one column.  On inputs without these the function
    raises. *)
Theorem funcSlctVrtcs_returns_only_if (varNumCon : Z)
    (lstDpthData01 : list (ndarray2 F))
    (lgcSlct01 : bool) (aryRoiVrtx : ndarray2 F)
    (lgcSlct02 : bool) (arySlct02 : ndarray2 F) (varThrSlct02 : F)
    (lgcSlct03 : bool) (arySlct03 : ndarray2 F) (varThrSlct03 : F)
    (lgcSlct04 : bool) (arySlct04 : ndarray2 F) (varThrSlct04 : F)
    (idxPrc : Z) (r : slct_result F) :
  let N := fst (shape2 (hd zeros2_0 lstDpthData01)) in
  funcSlctVrtcs varNumCon lstDpthData01 lgcSlct01 aryRoiVrtx
    lgcSlct02 arySlct02 varThrSlct02 lgcSlct03 arySlct03 varThrSlct03
    lgcSlct04 arySlct04 varThrSlct04 idxPrc = Ok r ->
  lstDpthData01 <> [] /\
  (varNumCon <= Z.of_nat (List.length lstDpthData01))%Z /\
  (forall j a, j < Z.to_nat varNumCon ->
               nth_error lstDpthData01 j = Some a ->
               fst (shape2 a) = List.length (ret_vecInc r)) /\
  (lgcSlct01 = true ->
   1 < snd (shape2 aryRoiVrtx) /\
   forall k, k < fst (shape2 aryRoiVrtx) ->
     (- Z.of_nat N <= astype_int64 (data2 aryRoiVrtx k 1)
      < Z.of_nat N)%Z) /\
  (lgcSlct03 = true -> 0 < snd (shape2 arySlct03)).
Proof.
  intros N Hrun; unfold funcSlctVrtcs in Hrun.
  destruct lstDpthData01 as [| a0 rest]; [discriminate |].
  cbn [bind hd] in Hrun, N; fold N in Hrun.
  bind_as Hrun st1 H1. bind_as Hrun st2 H2. bind_as Hrun st3 H3.
  bind_as Hrun st4 H4. bind_as Hrun lst' Hl.
  injection Hrun as <-; cbn [ret_vecInc].
  apply apply_inclusion_inv in Hl; destruct Hl as (_ & Hb & Hin & _).
  split; [discriminate |]. split; [lia |]. split.
  { intros j a Hj Ha; destruct (Hin j) as (b & b' & Hb1 & _ & Hm); [lia |].
    assert (b = a) by congruence; subst b.
    apply mask_rows_Ok in Hm; symmetry; apply Hm. }
  split.
  { intros ->; apply apply_criterion_Ok in H1.
    destruct H1 as [[E _] | [_ (v & Hv & _)]]; [discriminate |].
    apply criterion1_included in Hv; tauto. }
  intros ->; apply apply_criterion_Ok in H3.
  destruct H3 as [[E _] | [_ (v & Hv & _)]]; [discriminate |].
  unfold criterion3 in Hv; bind_as Hv ms Hms.
  unfold min_axis1 in Hms.
  destruct (Nat.eqb_spec (snd (shape2 arySlct03)) 0); [discriminate |].
  lia.
Qed.

Lemma apply_criterion_total (N : nat) (lgc : bool)
    (crit : list bool -> result (list bool)) (st : list bool * list nat) :
  (lgc = true ->
   exists v', crit (fst st) = Ok v' /\ List.length v' = N) ->
  List.length (fst st) = N ->
  exists st', apply_criterion lgc crit st = Ok st' /\
              List.length (fst st') = N.
Proof.
  unfold apply_criterion; destruct lgc; intros Hc Hl; [| eauto].
  destruct (Hc eq_refl) as (v' & Hv & Hlv).
  rewrite Hv; cbn [bind]; eexists; split; [reflexivity | exact Hlv].
Qed.

Lemma np_logical_and_total (a b : list bool) :
  List.length a = List.length b ->
  exists r, np_logical_and a b = Ok r /\ List.length r = List.length a.
Proof.
  intros Hl; unfold np_logical_and; rewrite Hl, Nat.eqb_refl.
  eexists; split; [reflexivity |].
  rewrite length_map, length_combine; lia.
Qed.

Lemma criterion1_total (N : nat) (roi : ndarray2 F) :
  1 < snd (shape2 roi) ->
  (forall k, k < fst (shape2 roi) ->
     (- Z.of_nat N <= astype_int64 (data2 roi k 1) < Z.of_nat N)%Z) ->
  exists v, criterion1 N roi = Ok v /\ List.length v = N.
Proof.
  intros Hcol Hidx.
  assert (Hex : exists v, criterion1 N roi = Ok v).
  { unfold criterion1, column1_int64.
    destruct (Nat.ltb_spec 1 (snd (shape2 roi))); [| lia].
    cbn [bind]; unfold set_true; rewrite repeat_length.
    destruct (mapM_total (norm_index N)
                (map (fun i => astype_int64 (data2 roi i 1))
                     (seq 0 (fst (shape2 roi))))) as (js & Hjs).
    { intros x Hx; apply in_map_iff in Hx; destruct Hx as (k & <- & Hk).
      apply in_seq in Hk; apply norm_index_total, Hidx; lia. }
    rewrite Hjs; cbn [bind]; eauto. }
  destruct Hex as (v & Hv); exists v; split; [exact Hv |].
  now apply criterion1_length in Hv.
Qed.

Lemma criterion2_total (N : nat) (a : ndarray2 F) (thr : F)
    (v : list bool) :
  fst (shape2 a) = N -> List.length v = N ->
  exists v', criterion2 v a thr = Ok v' /\ List.length v' = N.
Proof.
  intros Ha Hv; unfold criterion2.
  destruct (np_logical_and_total v
              (np_greater (mean_axis1 a) thr)) as (r & Hr & Hl).
  { unfold np_greater, mean_axis1; rewrite !length_map, length_seq; lia. }
  exists r; split; [exact Hr | lia].
Qed.

Lemma criterion4_total (N : nat) (a : ndarray2 F) (thr : F)
    (v : list bool) :
  fst (shape2 a) = N -> List.length v = N ->
  exists v', criterion4 v a thr = Ok v' /\ List.length v' = N.
Proof.
  intros Ha Hv; unfold criterion4.
  destruct (np_logical_and_total v
              (np_less (mean_axis1 a) thr)) as (r & Hr & Hl).
  { unfold np_less, mean_axis1; rewrite !length_map, length_seq; lia. }
  exists r; split; [exact Hr | lia].
Qed.

Lemma criterion3_total (N : nat) (a : ndarray2 F) (thr : F)
    (v : list bool) :
  fst (shape2 a) = N -> 0 < snd (shape2 a) -> List.length v = N ->
  exists v', criterion3 v a thr = Ok v' /\ List.length v' = N.
Proof.
  intros Ha Hcol Hv; unfold criterion3, min_axis1.
  destruct (Nat.eqb_spec (snd (shape2 a)) 0); [lia |].
  destruct (mapM_total (fun i => np_min (row a i))
              (seq 0 (fst (shape2 a)))) as (ms & Hms).
  { intros x _; unfold row.
    destruct (snd (shape2 a)) as [| c]; [lia |].
    cbn [seq map np_min]; eauto. }
  rewrite Hms; cbn [bind].
  apply mapM_Ok_inv in Hms; destruct Hms as [Hl _].
  rewrite length_seq in Hl.
  destruct (np_logical_and_total v (np_greater ms thr)) as (r & Hr & Hlr).
  { unfold np_greater; rewrite length_map; lia. }
  exists r; split; [exact Hr | lia].
Qed.

(** X13.  When the function returns.  It returns whenever: the list of
    arrays is not empty and has at least [varNumCon] entries, each of the
    first [varNumCon] with as many rows as the first array; the region
    array, if criterion 1 is on, has a second column whose indices lie
    within the mesh; and the arrays of the criteria 2 to 4 that are on
    have one row per vertex of the mesh, that of criterion 3 with at least
    one column. *)
Theorem funcSlctVrtcs_returns (varNumCon : Z)
    (lstDpthData01 : list (ndarray2 F))
    (lgcSlct01 : bool) (aryRoiVrtx : ndarray2 F)
    (lgcSlct02 : bool) (arySlct02 : ndarray2 F) (varThrSlct02 : F)
    (lgcSlct03 : bool) (arySlct03 : ndarray2 F) (varThrSlct03 : F)
    (lgcSlct04 : bool) (arySlct04 : ndarray2 F) (varThrSlct04 : F)
    (idxPrc : Z) :
  let N := fst (shape2 (hd zeros2_0 lstDpthData01)) in
  lstDpthData01 <> [] ->
  (varNumCon <= Z.of_nat (List.length lstDpthData01))%Z ->
  (forall j a, j < Z.to_nat varNumCon ->
               nth_error lstDpthData01 j = Some a -> fst (shape2 a) = N) ->
  (lgcSlct01 = true ->
   1 < snd (shape2 aryRoiVrtx) /\
   forall k, k < fst (shape2 aryRoiVrtx) ->
     (- Z.of_nat N <= astype_int64 (data2 aryRoiVrtx k 1)
      < Z.of_nat N)%Z) ->
  (lgcSlct02 = true -> fst (shape2 arySlct02) = N) ->
  (lgcSlct03 = true ->
   fst (shape2 arySlct03) = N /\ 0 < snd (shape2 arySlct03)) ->
  (lgcSlct04 = true -> fst (shape2 arySlct04) = N) ->
  exists r,
    funcSlctVrtcs varNumCon lstDpthData01 lgcSlct01 aryRoiVrtx
      lgcSlct02 arySlct02 varThrSlct02 lgcSlct03 arySlct03 varThrSlct03
      lgcSlct04 arySlct04 varThrSlct04 idxPrc = Ok r.
Proof.
  intros N Hne Hcon Hrows R1 R2 R3 R4.
  unfold funcSlctVrtcs.
  destruct lstDpthData01 as [| a0 rest]; [congruence |].
  cbn [bind hd] in N |- *; fold N.
  destruct (apply_criterion_total N lgcSlct01
              (fun _ => criterion1 N aryRoiVrtx)
              (repeat true N, [np_sum_bool (repeat true N)]))
    as (st1 & H1 & L1).
  { intros E; destruct (R1 E) as [Hc Hi]; now apply criterion1_total. }
  { apply repeat_length. }
  rewrite H1; cbn [bind].
  destruct (apply_criterion_total N lgcSlct02
              (fun vecInc => criterion2 vecInc arySlct02 varThrSlct02) st1)
    as (st2 & H2 & L2);
    [intros E; apply criterion2_total; auto | exact L1 |].
  rewrite H2; cbn [bind].
  destruct (apply_criterion_total N lgcSlct03
              (fun vecInc => criterion3 vecInc arySlct03 varThrSlct03) st2)
    as (st3 & H3 & L3);
    [intros E; destruct (R3 E); apply criterion3_total; auto | exact L2 |].
  rewrite H3; cbn [bind].
  destruct (apply_criterion_total N lgcSlct04
              (fun vecInc => criterion4 vecInc arySlct04 varThrSlct04) st3)
    as (st4 & H4 & L4);
    [intros E; apply criterion4_total; auto | exact L3 |].
  rewrite H4; cbn [bind].
  destruct (apply_inclusion_total (fst st4) (Z.to_nat varNumCon) 0
              (a0 :: rest)) as (l' & Hl').
  { cbn [List.length] in *; lia. }
  { intros j a Hj Ha; rewrite L4; apply (Hrows j); [lia | exact Ha]. }
  rewrite Hl'; cbn [bind]; eauto.
Qed.

(** X14.  With no criterion switched on the function selects nothing away:
    on a non-empty list of at least [varNumCon] arrays, the first
    [varNumCon] with as many rows as the first, it returns, every vertex
    is included, the count is the number of vertices of the mesh, and
    every array comes back with its shape and its entries. *)
Theorem funcSlctVrtcs_no_criterion (varNumCon : Z)
    (lstDpthData01 : list (ndarray2 F))
    (aryRoiVrtx : ndarray2 F)
    (arySlct02 : ndarray2 F) (varThrSlct02 : F)
    (arySlct03 : ndarray2 F) (varThrSlct03 : F)
    (arySlct04 : ndarray2 F) (varThrSlct04 : F)
    (idxPrc : Z) :
  let N := fst (shape2 (hd zeros2_0 lstDpthData01)) in
  lstDpthData01 <> [] ->
  (varNumCon <= Z.of_nat (List.length lstDpthData01))%Z ->
  (forall j a, j < Z.to_nat varNumCon ->
               nth_error lstDpthData01 j = Some a -> fst (shape2 a) = N) ->
  exists r,
    funcSlctVrtcs varNumCon lstDpthData01 false aryRoiVrtx
      false arySlct02 varThrSlct02 false arySlct03 varThrSlct03
      false arySlct04 varThrSlct04 idxPrc = Ok r /\
    ret_varNumInc r = N /\
    ret_vecInc r = repeat true N /\
    List.length (ret_lstDpthData01 r) = List.length lstDpthData01 /\
    forall j a, nth_error lstDpthData01 j = Some a ->
      exists a', nth_error (ret_lstDpthData01 r) j = Some a' /\
                 shape2 a' = shape2 a /\
                 forall k c, k < fst (shape2 a) ->
                             data2 a' k c = data2 a k c.
Proof.
  intros N Hne Hcon Hrows.
  unfold funcSlctVrtcs.
  destruct lstDpthData01 as [| a0 rest]; [congruence |].
  cbn [bind hd apply_criterion fst snd] in N |- *; fold N.
  destruct (apply_inclusion_total (repeat true N) (Z.to_nat varNumCon) 0
              (a0 :: rest)) as (l' & Hl').
  { cbn [List.length] in *; lia. }
  { intros j a Hj Ha; rewrite repeat_length; apply (Hrows j);
      [lia | exact Ha]. }
  rewrite Hl'; cbn [bind]; eexists; split; [reflexivity |].
  cbn [ret_varNumInc ret_vecInc ret_lstDpthData01 last].
  split; [apply np_sum_bool_repeat_true |]. split; [reflexivity |].
  apply apply_inclusion_inv in Hl'; destruct Hl' as (Hlen & _ & Hin & Hout).
  split; [exact Hlen |].
  intros j a Ha.
  destruct (Nat.lt_ge_cases j (Z.to_nat varNumCon)) as [Hj | Hj].
  - destruct (Hin j) as (b & b' & Hb & Hb' & Hmask); [lia |].
    assert (b = a) by congruence; subst b.
    exists b'; split; [exact Hb' |].
    pose proof (Hrows j a Hj Ha) as Hr.
    unfold mask_rows in Hmask.
    destruct (List.length (repeat true N) =? fst (shape2 a));
      [| discriminate].
    injection Hmask as <-; cbn [shape2 data2]; unfold flatnonzero.
    rewrite flatnonzero_repeat_true, length_seq; split.
    + rewrite <- Hr; now destruct (shape2 a).
    + intros k c Hk; rewrite seq_nth by lia; reflexivity.
  - exists a; split; [rewrite Hout by lia; exact Ha |].
    split; reflexivity.
Qed.

End SlctVrtcs_More.

Lemma funcSlctVrtcs_included_iff_witness :
  nth 0 (ret_vecInc SlctExample.ret) false = true <->
  (true = true ->
   exists k, k < fst (shape2 SlctExample.aryRoiVrtx) /\
             norm_index 4
               (astype_int64 (data2 SlctExample.aryRoiVrtx k 1)) = Ok 0) /\
  (true = true ->
   fltb (Examples.q 1) (np_mean (row SlctExample.arySlct02 0)) = true) /\
  (true = true ->
   exists m, np_min (row SlctExample.arySlct03 0) = Ok m /\
             fltb (Examples.q 1) m = true) /\
  (false = true ->
   fltb (np_mean (row SlctExample.arySlct03 0)) (Examples.q 0) = true).
Proof.
  apply (funcSlctVrtcs_included_iff 2 SlctExample.lstDpthData01
           true SlctExample.aryRoiVrtx
           true SlctExample.arySlct02 (Examples.q 1)
           true SlctExample.arySlct03 (Examples.q 1)
           false SlctExample.arySlct03 (Examples.q 0) 0
           SlctExample.ret 0);
    try (intros _; reflexivity); try (vm_compute; reflexivity).
  vm_compute; lia.
Defined.

Lemma funcSlctVrtcs_rows_witness :
  exists sel : list nat,
    StronglySorted lt sel /\
    (forall i, In i sel <-> nth i (ret_vecInc SlctExample.ret) false = true)
    /\
    List.length (ret_lstDpthData01 SlctExample.ret)
    = List.length SlctExample.lstDpthData01 /\
    forall j a, nth_error SlctExample.lstDpthData01 j = Some a ->
      (j < Z.to_nat 2 ->
       exists a', nth_error (ret_lstDpthData01 SlctExample.ret) j = Some a'
                  /\ shape2 a' = (List.length sel, snd (shape2 a)) /\
                  forall k c, data2 a' k c = data2 a (nth k sel 0) c) /\
      (Z.to_nat 2 <= j ->
       nth_error (ret_lstDpthData01 SlctExample.ret) j = Some a).
Proof.
  apply (funcSlctVrtcs_rows 2 SlctExample.lstDpthData01
           true SlctExample.aryRoiVrtx
           true SlctExample.arySlct02 (Examples.q 1)
           true SlctExample.arySlct03 (Examples.q 1)
           false SlctExample.arySlct03 (Examples.q 0) 0 SlctExample.ret).
  vm_compute; reflexivity.
Defined.

Lemma funcSlctVrtcs_returns_only_if_witness :
  SlctExample.lstDpthData01 <> [] /\
  (2 <= Z.of_nat (List.length SlctExample.lstDpthData01))%Z /\
  (forall j a, j < Z.to_nat 2 ->
               nth_error SlctExample.lstDpthData01 j = Some a ->
               fst (shape2 a) = List.length (ret_vecInc SlctExample.ret)) /\
  (true = true ->
   1 < snd (shape2 SlctExample.aryRoiVrtx) /\
   forall k, k < fst (shape2 SlctExample.aryRoiVrtx) ->
     (- Z.of_nat 4 <= astype_int64 (data2 SlctExample.aryRoiVrtx k 1)
      < Z.of_nat 4)%Z) /\
  (true = true -> 0 < snd (shape2 SlctExample.arySlct03)).
Proof.
  apply (funcSlctVrtcs_returns_only_if 2 SlctExample.lstDpthData01
           true SlctExample.aryRoiVrtx
           true SlctExample.arySlct02 (Examples.q 1)
           true SlctExample.arySlct03 (Examples.q 1)
           false SlctExample.arySlct03 (Examples.q 0) 0 SlctExample.ret).
  vm_compute; reflexivity.
Defined.

Lemma funcSlctVrtcs_returns_witness :
  exists r,
    funcSlctVrtcs 2 SlctExample.lstDpthData01
      true SlctExample.aryRoiVrtx
      true SlctExample.arySlct02 (Examples.q 1)
      true SlctExample.arySlct03 (Examples.q 1)
      false SlctExample.arySlct03 (Examples.q 0) 0 = Ok r.
Proof.
  apply (funcSlctVrtcs_returns 2 SlctExample.lstDpthData01
           true SlctExample.aryRoiVrtx
           true SlctExample.arySlct02 (Examples.q 1)
           true SlctExample.arySlct03 (Examples.q 1)
           false SlctExample.arySlct03 (Examples.q 0) 0).
  - discriminate.
  - vm_compute; discriminate.
  - intros j a Hj Ha.
    destruct j as [| [| j]]; [| | vm_compute in Hj; lia];
      injection Ha as <-; reflexivity.
  - intros _; split; [vm_compute; lia |].
    intros k Hk.
    destruct k as [| [| [| k]]]; [| | | vm_compute in Hk; lia];
      (vm_compute; split; [discriminate | reflexivity]).
  - intros _; reflexivity.
  - intros _; split; [reflexivity | vm_compute; lia].
  - discriminate.
Defined.

Lemma funcSlctVrtcs_no_criterion_witness :
  exists r,
    funcSlctVrtcs 1 SlctExample.lstDpthData01 false SlctExample.aryRoiVrtx
      false SlctExample.arySlct02 (Examples.q 1)
      false SlctExample.arySlct03 (Examples.q 1)
      false SlctExample.arySlct03 (Examples.q 0) 0 = Ok r /\
    ret_varNumInc r = 4 /\
    ret_vecInc r = repeat true 4 /\
    List.length (ret_lstDpthData01 r)
    = List.length SlctExample.lstDpthData01 /\
    forall j a, nth_error SlctExample.lstDpthData01 j = Some a ->
      exists a', nth_error (ret_lstDpthData01 r) j = Some a' /\
                 shape2 a' = shape2 a /\
                 forall k c, k < fst (shape2 a) ->
                             data2 a' k c = data2 a k c.
Proof.
  apply (funcSlctVrtcs_no_criterion 1 SlctExample.lstDpthData01
           SlctExample.aryRoiVrtx
           SlctExample.arySlct02 (Examples.q 1)
           SlctExample.arySlct03 (Examples.q 1)
           SlctExample.arySlct03 (Examples.q 0) 0).
  - discriminate.
  - vm_compute; discriminate.
  - intros j a Hj Ha.
    destruct j as [| j]; [| vm_compute in Hj; lia].
    injection Ha as <-; reflexivity.
Defined.

(** ** boot_plot: order and range of the bounds *)

Lemma Qc_sub_of_le (a b : Qc) : (a <= b -> Q2Qc 0 <= b - a)%Qc.
Proof. unfold Qcminus; apply Qcle_minus_iff. Qed.

Lemma Qc_le_of_sub (a b : Qc) : (Q2Qc 0 <= b - a -> a <= b)%Qc.
Proof. unfold Qcminus; apply Qcle_minus_iff. Qed.

Lemma Qc_mul_nonneg (a b : Qc) :
  (Q2Qc 0 <= a -> Q2Qc 0 <= b -> Q2Qc 0 <= a * b)%Qc.
Proof.
  intros Ha Hb; rewrite <- (Qcmult_0_l b).
  now apply Qcmult_le_compat_r.
Qed.

(** A weighted mean of two ordered values lies between them, and grows
    with the weight of the larger one. *)
Lemma convex_between (a b w : Qc) :
  (a <= b -> Q2Qc 0 <= w -> w <= Q2Qc 1 ->
   a <= a * (Q2Qc 1 - w) + b * w /\ a * (Q2Qc 1 - w) + b * w <= b)%Qc.
Proof.
  intros Hab H0 H1; split.
  - apply Qc_le_of_sub.
    assert (E : (a * (Q2Qc 1 - w) + b * w - a = w * (b - a))%Qc) by ring.
    rewrite E.
    apply Qc_mul_nonneg; [assumption | now apply Qc_sub_of_le].
  - apply Qc_le_of_sub.
    assert (E : (b - (a * (Q2Qc 1 - w) + b * w)
                 = (Q2Qc 1 - w) * (b - a))%Qc) by ring.
    rewrite E.
    apply Qc_mul_nonneg; now apply Qc_sub_of_le.
Qed.

Lemma convex_mono (a b w1 w2 : Qc) :
  (a <= b -> w1 <= w2 ->
   a * (Q2Qc 1 - w1) + b * w1 <= a * (Q2Qc 1 - w2) + b * w2)%Qc.
Proof.
  intros Hab Hw; apply Qc_le_of_sub.
  assert (E : (a * (Q2Qc 1 - w2) + b * w2 - (a * (Q2Qc 1 - w1) + b * w1)
               = (w2 - w1) * (b - a))%Qc) by ring.
  rewrite E.
  apply Qc_mul_nonneg; now apply Qc_sub_of_le.
Qed.

(** Sorting finite values: the result holds the same values in ascending
    order. *)
Lemma insert_finite (x : Qc) (sl : list Qc) :
  StronglySorted Qcle sl ->
  exists sl', insert (Some x) (map Some sl) = map Some sl' /\
              StronglySorted Qcle sl' /\
              List.length sl' = S (List.length sl) /\
              (forall y, In y sl' <-> y = x \/ In y sl) /\
              Permutation sl' (x :: sl).
Proof.
  induction sl as [| y sl IH]; intros Hs.
  - exists [x]; split; [reflexivity |].
    split; [constructor; constructor |]. split; [reflexivity |].
    split; [| apply Permutation_refl].
    intros z; cbn [In]; intuition.
  - cbn [map insert fltb fisnan num_Scalar num_ltb num_isnan].
    inversion Hs as [| ? ? Hs' Hall]; subst.
    rewrite Forall_forall in Hall.
    destruct (Qclt_le_dec y x) as [L | L]; cbn [orb].
    + destruct (IH Hs') as (sl' & E & S' & Len & Hin & Hperm).
      exists (y :: sl'); rewrite E; cbn [map]; split; [reflexivity |].
      split.
      { constructor; [assumption |].
        apply Forall_forall; intros z Hz; apply Hin in Hz.
        destruct Hz as [-> | Hz]; [now apply Qclt_le_weak | auto]. }
      split; [cbn [List.length]; lia |].
      split; [intros z; cbn [In]; rewrite Hin; intuition |].
      apply perm_trans with (y :: x :: sl);
        [now apply perm_skip | apply perm_swap].
    + exists (x :: y :: sl); split; [reflexivity |]. split.
      { constructor; [assumption |].
        constructor; [assumption |].
        apply Forall_forall; intros z Hz.
        apply Qcle_trans with y; auto. }
      split; [reflexivity |].
      split; [intros z; cbn [In]; intuition | apply Permutation_refl].
Qed.

Lemma np_sort_finite (ql : list Qc) :
  exists sl, np_sort (map Some ql) = map Some sl /\
             StronglySorted Qcle sl /\
             List.length sl = List.length ql /\
             (forall y, In y sl <-> In y ql) /\
             Permutation sl ql.
Proof.
  induction ql as [| x ql IH].
  - exists []; split; [reflexivity |]. split; [constructor |].
    split; [reflexivity |]. split; [intuition | constructor].
  - destruct IH as (sl & E & Hs & Len & Hin & Hperm).
    destruct (insert_finite x sl Hs)
      as (sl' & E' & Hs' & Len' & Hin' & Hperm').
    exists sl'; unfold np_sort in *; cbn [map fold_right].
    rewrite E, E'; split; [reflexivity |]. split; [assumption |].
    split; [cbn [List.length]; lia |].
    split; [intros y; rewrite Hin', Hin; cbn [In]; intuition |].
    apply perm_trans with (x :: sl); [assumption | now apply perm_skip].
Qed.

Lemma sorted_nth_le (sl : list Qc) (d : Qc) :
  StronglySorted Qcle sl ->
  forall i j, i <= j -> j < List.length sl ->
              (nth i sl d <= nth j sl d)%Qc.
Proof.
  induction 1 as [| x sl Hs IH Hall]; intros i j Hij Hj;
    [cbn in Hj; lia |].
  rewrite Forall_forall in Hall; cbn [List.length] in Hj.
  destruct i, j; cbn [nth]; try lia.
  - apply Qcle_refl.
  - apply Hall, nth_In; lia.
  - apply IH; lia.
Qed.

Lemma existsb_isnan_finite (ql : list Qc) :
  existsb fisnan (map Some ql) = false.
Proof. induction ql; [reflexivity | exact IHql]. Qed.

Lemma nth_map_Some (sl : list Qc) (i : nat) (d : num) :
  i < List.length sl ->
  nth i (map Some sl) d = Some (nth i sl (Q2Qc 0)).
Proof.
  intros Hi; rewrite (nth_indep _ d (Some (Q2Qc 0)))
    by now rewrite length_map.
  apply map_nth.
Qed.

Lemma firstn_skipn_one {A : Type} (l : list A) (k : nat) (d : A) :
  k < List.length l -> firstn 1 (skipn k l) = [nth k l d].
Proof.
  revert k; induction l as [| x l IH]; intros k Hk; [cbn in Hk; lia |].
  destruct k; [reflexivity |].
  cbn [skipn nth]; apply IH; cbn in Hk; lia.
Qed.

Lemma firstn_skipn_two {A : Type} (l : list A) (k : nat) (d : A) :
  S k < List.length l ->
  firstn 2 (skipn k l) = [nth k l d; nth (S k) l d].
Proof.
  revert k; induction l as [| x l IH]; intros k Hk; [cbn in Hk; lia |].
  destruct k.
  - destruct l; [cbn in Hk; lia | reflexivity].
  - cbn [skipn]; rewrite (IH k) by (cbn in Hk; lia); reflexivity.
Qed.

(** The median of finite values is finite and lies between two of them. *)
Lemma np_median_finite (ql : list Qc) :
  0 < List.length ql ->
  exists m x y, np_median (map Some ql) = Some m /\
                In x ql /\ In y ql /\ (x <= m /\ m <= y)%Qc.
Proof.
  intros Hn; unfold np_median; cbv zeta.
  rewrite existsb_isnan_finite, length_map.
  destruct (np_sort_finite ql) as (sl & E & Hs & Len & Hin & _); rewrite E.
  set (n := List.length ql) in *.
  assert (Hh : n / 2 < n) by (apply Nat.div_lt; lia).
  unfold slice; rewrite skipn_map, firstn_map, skipn_map, firstn_map.
  destruct (Nat.odd n) eqn:Eo.
  - replace (n / 2 + 1 - n / 2) with 1 by lia.
    rewrite (firstn_skipn_one sl (n / 2) (Q2Qc 0)) by lia.
    exists (nth (n / 2) sl (Q2Qc 0)), (nth (n / 2) sl (Q2Qc 0)),
      (nth (n / 2) sl (Q2Qc 0)).
    assert (Hi : In (nth (n / 2) sl (Q2Qc 0)) ql)
      by (apply Hin, nth_In; lia).
    split; [| split; [exact Hi | split; [exact Hi |
                                          split; apply Qcle_refl]]].
    unfold np_mean, np_sum, of_nat;
      cbn [map fold_left List.length lit fadd fdiv num_Scalar num_lift2
             num_div].
    destruct (Qc_eq_dec _ _) as [E1 | E1];
      [exfalso; revert E1; apply Q2Qc_of_nat_neq_0; lia |].
    change (Q2Qc (inject_Z (Z.of_nat 1))) with 1%Qc.
    f_equal; field; exact E1.
  - assert (H2 : 1 <= n / 2).
    { destruct n as [| [| n']]; [lia | discriminate |].
      apply Nat.div_le_lower_bound; lia. }
    replace (n / 2 + 1 - (n / 2 - 1)) with 2 by lia.
    rewrite (firstn_skipn_two sl (n / 2 - 1) (Q2Qc 0)) by lia.
    replace (S (n / 2 - 1)) with (n / 2) by lia.
    set (a := nth (n / 2 - 1) sl (Q2Qc 0)).
    set (b := nth (n / 2) sl (Q2Qc 0)).
    assert (Hab : (a <= b)%Qc) by (apply sorted_nth_le; (assumption || lia)).
    exists (a * (Q2Qc 1 - Q2Qc (1 # 2)) + b * Q2Qc (1 # 2))%Qc, a, b.
    split; [| split; [apply Hin, nth_In; lia |
                      split; [apply Hin, nth_In; lia |]]].
    + unfold np_mean, np_sum, of_nat;
        cbn [map fold_left List.length lit fadd fdiv num_Scalar num_lift2
               num_div].
      destruct (Qc_eq_dec _ _) as [E1 | E1];
        [exfalso; revert E1; apply Q2Qc_of_nat_neq_0; lia |].
      replace (Q2Qc (inject_Z (Z.of_nat 2))) with (1 + 1)%Qc
        by (apply Qc_is_canon; reflexivity).
      replace (Q2Qc (1 # 2)) with (/ (1 + 1))%Qc
        by (apply Qc_is_canon; reflexivity).
      f_equal; field.
      intros E2; apply (f_equal this) in E2; discriminate E2.
    + apply convex_between; [exact Hab | |];
        apply Qle_bool_imp_le; vm_compute; reflexivity.
Qed.

Lemma Qc_floor_frac (t : Qc) :
  (Q2Qc 0 <= t)%Qc ->
  (Q2Qc 0 <= t - Q2Qc (inject_Z (Z.of_nat (Z.to_nat (Qfloor (this t)))))
   /\ t - Q2Qc (inject_Z (Z.of_nat (Z.to_nat (Qfloor (this t)))))
      <= Q2Qc 1)%Qc.
Proof.
  intros Ht.
  assert (Hf : (0 <= Qfloor (this t))%Z).
  { change 0%Z with (Qfloor 0); apply Qfloor_resp_le; exact Ht. }
  rewrite Z2Nat.id by exact Hf.
  pose proof (Qfloor_le (this t)) as Hlo.
  pose proof (Qlt_floor (this t)) as Hhi.
  rewrite inject_Z_plus in Hhi.
  split.
  - apply Qc_sub_of_le; unfold Qcle; cbn [this Q2Qc].
    rewrite Qred_correct; exact Hlo.
  - unfold Qcle, Qcminus, Qcplus, Qcopp; cbn [this Q2Qc].
    rewrite !Qred_correct.
    change (Qred 1) with 1%Q; change (inject_Z 1) with 1%Q in Hhi.
    lra.
Qed.

Lemma Qc_floor_mono (t1 t2 : Qc) :
  (t1 <= t2)%Qc ->
  Z.to_nat (Qfloor (this t1)) <= Z.to_nat (Qfloor (this t2)).
Proof.
  intros Ht; pose proof (Qfloor_resp_le (this t1) (this t2) Ht); lia.
Qed.

(** The fractional index of a percentile. *)
Lemma percentile_index (q : Qc) (n : nat) :
  out_of_range (Some q) = false ->
  let k := Q2Qc (inject_Z (Z.of_nat (n - 1))) in
  let t := (q / Q2Qc 100 * k)%Qc in
  (Q2Qc 0 <= t)%Qc /\ Z.to_nat (Qfloor (this t)) <= n - 1.
Proof.
  intros Hq k t; apply out_of_range_bounds in Hq; destruct Hq as [Hq0 Hq1].
  assert (Hk : (Q2Qc 0 <= k)%Qc).
  { change (Q2Qc 0) with (Q2Qc (inject_Z (Z.of_nat 0))).
    apply Q2Qc_of_nat_le; lia. }
  assert (H100 : (Q2Qc 0 <= / Q2Qc 100)%Qc)
    by (apply Qle_bool_imp_le; vm_compute; reflexivity).
  split.
  - apply Qc_mul_nonneg; [| exact Hk].
    unfold Qcdiv; now apply Qc_mul_nonneg.
  - assert (Hy : (t <= k)%Qc).
    { unfold t.
      apply Qcle_trans with (Q2Qc 1 * k)%Qc;
        [| rewrite Qcmult_1_l; apply Qcle_refl].
      apply Qcmult_le_compat_r; [| exact Hk].
      assert (E1 : (Q2Qc 1 = Q2Qc 100 / Q2Qc 100)%Qc)
        by (apply Qc_is_canon; reflexivity).
      rewrite E1; unfold Qcdiv.
      apply Qcmult_le_compat_r; [exact Hq1 | exact H100]. }
    assert (Hfl : (Qfloor (this t) <= Z.of_nat (n - 1))%Z).
    { rewrite <- (Qfloor_Z (Z.of_nat (n - 1))).
      apply Qfloor_resp_le.
      unfold Qcle in Hy; unfold k in Hy; cbn [this Q2Qc] in Hy.
      rewrite Qred_correct in Hy; exact Hy. }
    lia.
Qed.

(** A percentile of finite values is the weighted mean of two neighbours
    among the sorted values. *)
Lemma percentile1_finite (ql sl : list Qc) (q : Qc) :
  np_sort (map Some ql) = map Some sl ->
  List.length sl = List.length ql ->
  0 < List.length ql -> out_of_range (Some q) = false ->
  let n := List.length ql in
  let t := (q / Q2Qc 100 * Q2Qc (inject_Z (Z.of_nat (n - 1))))%Qc in
  let lo := Z.to_nat (Qfloor (this t)) in
  let w := (t - Q2Qc (inject_Z (Z.of_nat lo)))%Qc in
  percentile1 (map Some ql) (Some q)
  = Some (nth lo sl (Q2Qc 0) * (Q2Qc 1 - w)
          + nth (Nat.min (lo + 1) (n - 1)) sl (Q2Qc 0) * w)%Qc.
Proof.
  intros E Len Hn Hq n t lo w.
  destruct (percentile_index q n Hq) as [Ht Hlo]; fold t in Ht, Hlo.
  fold lo in Hlo.
  unfold percentile1; cbv zeta.
  rewrite existsb_isnan_finite, E, length_map; fold n.
  unfold of_nat.
  cbn [lit fdiv fmul fsub fadd ffloor num_Scalar num_div].
  destruct (Qc_eq_dec (Q2Qc 100) (Q2Qc 0)) as [E0 | E0];
    [exfalso; apply Q2Qc_eq_iff in E0; unfold Qeq in E0; simpl in E0; lia |].
  cbn [num_lift2 num_floor]; fold t; fold lo.
  rewrite !nth_map_Some by lia.
  cbn [num_lift2]; reflexivity.
Qed.

(** A percentile of finite values lies between two of them. *)
Lemma percentile1_within (ql : list Qc) (q : Qc) :
  0 < List.length ql -> out_of_range (Some q) = false ->
  exists v x y, percentile1 (map Some ql) (Some q) = Some v /\
                In x ql /\ In y ql /\ (x <= v /\ v <= y)%Qc.
Proof.
  intros Hn Hq.
  destruct (np_sort_finite ql) as (sl & E & Hs & Len & Hin & _).
  rewrite (percentile1_finite ql sl q E Len Hn Hq); cbv zeta.
  destruct (percentile_index q (List.length ql) Hq) as [Ht Hlo].
  cbv zeta in Ht, Hlo.
  destruct (Qc_floor_frac _ Ht) as [W0 W1].
  eexists; exists
    (nth (Z.to_nat (Qfloor (this (q / Q2Qc 100
            * Q2Qc (inject_Z (Z.of_nat (List.length ql - 1))))%Qc)))
         sl (Q2Qc 0)),
    (nth (Nat.min
            (Z.to_nat (Qfloor (this (q / Q2Qc 100
               * Q2Qc (inject_Z (Z.of_nat (List.length ql - 1))))%Qc)) + 1)
            (List.length ql - 1))
         sl (Q2Qc 0)).
  split; [reflexivity |].
  split; [apply Hin, nth_In; lia |].
  split; [apply Hin, nth_In; lia |].
  apply convex_between; [| exact W0 | exact W1].
  apply sorted_nth_le; [exact Hs | lia | lia].
Qed.

(** Percentiles of finite values grow with the percentage. *)
Lemma percentile1_mono (ql : list Qc) (q1 q2 : Qc) :
  0 < List.length ql ->
  out_of_range (Some q1) = false -> out_of_range (Some q2) = false ->
  (q1 <= q2)%Qc ->
  exists v1 v2, percentile1 (map Some ql) (Some q1) = Some v1 /\
                percentile1 (map Some ql) (Some q2) = Some v2 /\
                (v1 <= v2)%Qc.
Proof.
  intros Hn Hq1 Hq2 Hq.
  destruct (np_sort_finite ql) as (sl & E & Hs & Len & Hin & _).
  rewrite (percentile1_finite ql sl q1 E Len Hn Hq1),
    (percentile1_finite ql sl q2 E Len Hn Hq2); cbv zeta.
  destruct (percentile_index q1 (List.length ql) Hq1) as [Ht1 Hlo1].
  destruct (percentile_index q2 (List.length ql) Hq2) as [Ht2 Hlo2].
  cbv zeta in Ht1, Hlo1, Ht2, Hlo2.
  set (n := List.length ql) in *.
  set (k := Q2Qc (inject_Z (Z.of_nat (n - 1)))) in *.
  set (t1 := (q1 / Q2Qc 100 * k)%Qc) in *.
  set (t2 := (q2 / Q2Qc 100 * k)%Qc) in *.
  assert (Hk : (Q2Qc 0 <= k)%Qc).
  { change (Q2Qc 0) with (Q2Qc (inject_Z (Z.of_nat 0))).
    apply Q2Qc_of_nat_le; lia. }
  assert (Ht : (t1 <= t2)%Qc).
  { unfold t1, t2, Qcdiv.
    apply Qcmult_le_compat_r; [| exact Hk].
    apply Qcmult_le_compat_r; [exact Hq |].
    apply Qle_bool_imp_le; vm_compute; reflexivity. }
  pose proof (Qc_floor_mono t1 t2 Ht) as Hlo.
  destruct (Qc_floor_frac t1 Ht1) as [W10 W11].
  destruct (Qc_floor_frac t2 Ht2) as [W20 W21].
  set (lo1 := Z.to_nat (Qfloor (this t1))) in *.
  set (lo2 := Z.to_nat (Qfloor (this t2))) in *.
  do 2 eexists; split; [reflexivity |]. split; [reflexivity |].
  assert (S1 : (nth lo1 sl (Q2Qc 0)
                <= nth (Nat.min (lo1 + 1) (n - 1)) sl (Q2Qc 0))%Qc)
    by (apply sorted_nth_le; [exact Hs | lia | lia]).
  assert (S2 : (nth lo2 sl (Q2Qc 0)
                <= nth (Nat.min (lo2 + 1) (n - 1)) sl (Q2Qc 0))%Qc)
    by (apply sorted_nth_le; [exact Hs | lia | lia]).
  destruct (Nat.eq_dec lo1 lo2) as [Elo | Nlo].
  - rewrite <- Elo in *.
    apply convex_mono; [exact S1 |].
    unfold Qcminus; apply Qcplus_le_compat; [exact Ht | apply Qcle_refl].
  - apply Qcle_trans with (nth (Nat.min (lo1 + 1) (n - 1)) sl (Q2Qc 0));
      [apply (convex_between _ _ _ S1 W10 W11) |].
    apply Qcle_trans with (nth lo2 sl (Q2Qc 0));
      [apply sorted_nth_le; [exact Hs | lia | lia] |].
    apply (convex_between _ _ _ S2 W20 W21).
Qed.

(** The bootstrap at a condition and depth level where every subject has a
    finite value: the medians of the resamples are finite and lie between
    two of the subjects' values, and so does the empirical median. *)
Lemma boot_plot_finite_column (rng : nat -> nat -> nat)
    (aryDpth : ndarray3 num) (varNumIt : Z) (varConLw varConUp : Qc)
    (c d : nat) (val : nat -> Qc) :
  0 < dim3_0 aryDpth -> (0 < varNumIt)%Z ->
  out_of_range (Some varConLw) = false ->
  out_of_range (Some varConUp) = false ->
  (forall s, s < dim3_0 aryDpth -> data3 aryDpth s c d = Some (val s)) ->
  exists call (med : nat -> Qc) (m : Qc),
    boot_plot rng aryDpth varNumIt (Some varConLw) (Some varConUp) = Ok call /\
    data2 (aryCnfLw call) c d
    = percentile1 (map Some (map med (seq 0 (Z.to_nat varNumIt))))
        (Some varConLw) /\
    data2 (aryCnfUp call) c d
    = percentile1 (map Some (map med (seq 0 (Z.to_nat varNumIt))))
        (Some varConUp) /\
    data2 (aryData call) c d = Some m /\
    (forall it, exists s s', s < dim3_0 aryDpth /\ s' < dim3_0 aryDpth /\
                             (val s <= med it /\ med it <= val s')%Qc) /\
    (exists s s', s < dim3_0 aryDpth /\ s' < dim3_0 aryDpth /\
                  (val s <= m /\ m <= val s')%Qc).
Proof.
  intros Hsub Hit Hlw Hup Hfin.
  destruct (boot_plot_Ok rng aryDpth varNumIt (Some varConLw) (Some varConUp)
              Hit Hlw Hup) as (call & Hcall & _ & _ & _ & Hd).
  cbv zeta in Hd; destruct (Hd c d) as (L & U & M); clear Hd.
  set (n := dim3_0 aryDpth) in *.
  assert (Hbetween : forall (idx : nat -> nat),
             (forall s, s < n -> idx s < n) ->
             exists m s s',
               np_median (map (fun s => data3 aryDpth (idx s) c d) (seq 0 n))
               = Some m /\
               s < n /\ s' < n /\ (val s <= m /\ m <= val s')%Qc).
  { intros idx Hidx.
    assert (E : map (fun s => data3 aryDpth (idx s) c d) (seq 0 n)
                = map Some (map (fun s => val (idx s)) (seq 0 n))).
    { rewrite map_map; apply map_ext_in; intros s Hs; apply in_seq in Hs.
      apply Hfin, Hidx; lia. }
    rewrite E.
    destruct (np_median_finite (map (fun s => val (idx s)) (seq 0 n)))
      as (m & x & y & Hm & Hx & Hy & Hxy).
    { now rewrite length_map, length_seq. }
    apply in_map_iff in Hx; destruct Hx as (s & <- & Hs).
    apply in_map_iff in Hy; destruct Hy as (s' & <- & Hs').
    apply in_seq in Hs, Hs'.
    exists m, (idx s), (idx s'); split; [exact Hm |].
    split; [apply Hidx; lia |]. split; [apply Hidx; lia | exact Hxy]. }
  pose (resample it :=
          map (fun s => data3 aryDpth (rng it s mod n) c d) (seq 0 n)).
  set (med it := match np_median (resample it) with
                 | Some m => m
                 | None => Q2Qc 0
                 end).
  assert (Hmed : forall it,
             np_median (resample it) = Some (med it) /\
             exists s s', s < n /\ s' < n /\
                          (val s <= med it /\ med it <= val s')%Qc).
  { intros it.
    destruct (Hbetween (fun s => rng it s mod n)) as (m & s & s' & Hm & H1).
    { intros s _; apply Nat.mod_upper_bound; lia. }
    change (np_median (resample it) = Some m) in Hm.
    unfold med; rewrite Hm; eauto. }
  assert (E : map (fun it =>
                     np_median
                       (map (fun s => data3 aryDpth (rng it s mod n) c d)
                            (seq 0 n)))
                (seq 0 (Z.to_nat varNumIt))
              = map Some (map med (seq 0 (Z.to_nat varNumIt)))).
  { rewrite map_map; apply map_ext; intros it; apply (Hmed it). }
  rewrite E in L, U.
  destruct (Hbetween (fun s => s)) as (m & s & s' & Hm & H1); [auto |].
  rewrite Hm in M.
  exists call, med, m.
  split; [exact Hcall |]. split; [exact L |]. split; [exact U |].
  split; [exact M |]. split; [intros it; apply Hmed |].
  exists s, s'; exact H1.
Qed.

(** X15.  The bounds are in order.  Where every subject has a finite value
    at a condition and depth level, and the lower percentage is not above
    the upper one, the lower bound handed to the plot is not above the
    upper bound, for any draws and any positive number of iterations. *)
Theorem boot_plot_bounds_ordered (rng : nat -> nat -> nat)
    (aryDpth : ndarray3 num) (varNumIt : Z) (varConLw varConUp : Qc)
    (c d : nat) (val : nat -> Qc) :
  0 < dim3_0 aryDpth -> (0 < varNumIt)%Z ->
  out_of_range (Some varConLw) = false ->
  out_of_range (Some varConUp) = false ->
  (varConLw <= varConUp)%Qc ->
  (forall s, s < dim3_0 aryDpth -> data3 aryDpth s c d = Some (val s)) ->
  exists call (lo hi : Qc),
    boot_plot rng aryDpth varNumIt (Some varConLw) (Some varConUp) = Ok call /\
    data2 (aryCnfLw call) c d = Some lo /\
    data2 (aryCnfUp call) c d = Some hi /\
    (lo <= hi)%Qc.
Proof.
  intros Hsub Hit Hlw Hup Hle Hfin.
  destruct (boot_plot_finite_column rng aryDpth varNumIt varConLw varConUp
              c d val Hsub Hit Hlw Hup Hfin)
    as (call & med & m & Hcall & L & U & _).
  destruct (percentile1_mono (map med (seq 0 (Z.to_nat varNumIt)))
              varConLw varConUp) as (lo & hi & Hlo & Hhi & Hlohi);
    try assumption.
  { rewrite length_map, length_seq; lia. }
  exists call, lo, hi; rewrite L, U; auto.
Qed.

(** X16.  The bounds stay within the data.  Where every subject has a
    finite value at a condition and depth level, the lower bound, the
    upper bound and the median handed to the plot each lie between the
    values of two subjects at that condition and depth level. *)
Theorem boot_plot_bounds_within_data (rng : nat -> nat -> nat)
    (aryDpth : ndarray3 num) (varNumIt : Z) (varConLw varConUp : Qc)
    (c d : nat) (val : nat -> Qc) :
  0 < dim3_0 aryDpth -> (0 < varNumIt)%Z ->
  out_of_range (Some varConLw) = false ->
  out_of_range (Some varConUp) = false ->
  (forall s, s < dim3_0 aryDpth -> data3 aryDpth s c d = Some (val s)) ->
  exists call,
    boot_plot rng aryDpth varNumIt (Some varConLw) (Some varConUp) = Ok call /\
    forall x,
      x = data2 (aryCnfLw call) c d \/ x = data2 (aryCnfUp call) c d \/
      x = data2 (aryData call) c d ->
      exists (v : Qc) (s s' : nat),
        x = Some v /\ s < dim3_0 aryDpth /\ s' < dim3_0 aryDpth /\
        (val s <= v /\ v <= val s')%Qc.
Proof.
  intros Hsub Hit Hlw Hup Hfin.
  destruct (boot_plot_finite_column rng aryDpth varNumIt varConLw varConUp
              c d val Hsub Hit Hlw Hup Hfin)
    as (call & med & m & Hcall & L & U & M & Hmed & Hm).
  exists call; split; [exact Hcall |].
  assert (Hlen : 0 < List.length (map med (seq 0 (Z.to_nat varNumIt))))
    by (rewrite length_map, length_seq; lia).
  assert (Hp : forall q, out_of_range (Some q) = false ->
             exists (v : Qc) (s s' : nat),
               percentile1 (map Some (map med (seq 0 (Z.to_nat varNumIt))))
                 (Some q) = Some v /\
               s < dim3_0 aryDpth /\ s' < dim3_0 aryDpth /\
               (val s <= v /\ v <= val s')%Qc).
  { intros q Hq.
    destruct (percentile1_within _ q Hlen Hq)
      as (v & x & y & Hv & Hx & Hy & Hxv & Hvy).
    apply in_map_iff in Hx; destruct Hx as (it1 & <- & _).
    apply in_map_iff in Hy; destruct Hy as (it2 & <- & _).
    destruct (Hmed it1) as (s1 & _ & Hs1 & _ & Hv1 & _).
    destruct (Hmed it2) as (_ & s2 & _ & Hs2 & _ & Hv2).
    exists v, s1, s2; repeat split; try assumption.
    - apply Qcle_trans with (med it1); assumption.
    - apply Qcle_trans with (med it2); assumption. }
  intros x [-> | [-> | ->]].
  - rewrite L; now apply Hp.
  - rewrite U; now apply Hp.
  - destruct Hm as (s & s' & Hm); exists m, s, s'; auto.
Qed.

Lemma boot_plot_bounds_ordered_witness :
  exists call (lo hi : Qc),
    boot_plot Examples.rng Examples.aryDpth 4
      (Some (Q2Qc 2.5)) (Some (Q2Qc 97.5)) = Ok call /\
    data2 (aryCnfLw call) 0 1 = Some lo /\
    data2 (aryCnfUp call) 0 1 = Some hi /\
    (lo <= hi)%Qc.
Proof.
  apply (boot_plot_bounds_ordered Examples.rng Examples.aryDpth 4%Z
           (Q2Qc 2.5) (Q2Qc 97.5) 0 1
           (fun s => match s with
                     | 0 => Q2Qc 5
                     | 1 => Q2Qc 3
                     | _ => Q2Qc 9
                     end));
    try (vm_compute; lia); try (vm_compute; reflexivity).
  - apply Qle_bool_imp_le; vm_compute; reflexivity.
  - intros s Hs; destruct s as [| [| [| s]]];
      [reflexivity | reflexivity | reflexivity | vm_compute in Hs; lia].
Defined.

Lemma boot_plot_bounds_within_data_witness :
  exists call,
    boot_plot Examples.rng Examples.aryDpth 4
      (Some (Q2Qc 2.5)) (Some (Q2Qc 97.5)) = Ok call /\
    forall x,
      x = data2 (aryCnfLw call) 0 1 \/ x = data2 (aryCnfUp call) 0 1 \/
      x = data2 (aryData call) 0 1 ->
      exists (v : Qc) (s s' : nat),
        x = Some v /\ s < dim3_0 Examples.aryDpth /\
        s' < dim3_0 Examples.aryDpth /\
        (match s with 0 => Q2Qc 5 | 1 => Q2Qc 3 | _ => Q2Qc 9 end <= v /\
         v <= match s' with 0 => Q2Qc 5 | 1 => Q2Qc 3 | _ => Q2Qc 9 end)%Qc.
Proof.
  apply (boot_plot_bounds_within_data Examples.rng Examples.aryDpth 4%Z
           (Q2Qc 2.5) (Q2Qc 97.5) 0 1
           (fun s => match s with
                     | 0 => Q2Qc 5
                     | 1 => Q2Qc 3
                     | _ => Q2Qc 9
                     end));
    try (vm_compute; lia); try (vm_compute; reflexivity).
  intros s Hs; destruct s as [| [| [| s]]];
    [reflexivity | reflexivity | reflexivity | vm_compute in Hs; lia].
Defined.

(** ** The call of deconv_04 in the script *)

(** X17.  The script's call for model 4.  The noise array is drawn with the
    number of depth levels of the data; with a profile of five depth levels
    per condition, [deconv_04] returns for it exactly when the data have at
    least five depth levels, and the result then has the shape of the slice
    of [aryDecon5] it is assigned to: iterations, conditions, five depth
    levels. *)
Theorem model4_call_returns_iff (draws : nat -> nat -> nat -> num)
    (varNumCon : Z) (aryEmp5 : ndarray2 num)
    (varNumIt varNumDpth : nat) (varNseRndSd : num) :
  snd (shape2 aryEmp5) = 5 ->
  let aryNseRnd :=
    aryNseRnd_model4 draws varNumIt (fst (shape2 aryEmp5)) varNumDpth
      varNseRndSd in
  ((exists out, deconv_04 varNumCon aryEmp5 aryNseRnd = Ok out)
   <-> 5 <= varNumDpth) /\
  (forall out, deconv_04 varNumCon aryEmp5 aryNseRnd = Ok out ->
               shape3 out = (varNumIt, fst (shape2 aryEmp5), 5)).
Proof.
  intros H5 nse.
  assert (Sn : shape3 nse = (varNumIt, fst (shape2 aryEmp5), varNumDpth))
    by reflexivity.
  split; [split |].
  - intros (out & Hout).
    destruct (deconv_04_Ok_inv _ _ _ _ Hout) as (_ & _ & Hn & _).
    unfold dim3_2 in Hn; rewrite Sn in Hn; cbn [snd] in Hn; lia.
  - intros Hd; apply deconv_04_total.
    + lia.
    + unfold dim3_2; rewrite Sn; cbn [snd]; lia.
    + left; unfold dim3_1; now rewrite Sn.
  - intros out Hout.
    destruct (deconv_04_Ok_inv _ _ _ _ Hout) as (Hs & _).
    rewrite Hs; unfold dim3_0; rewrite Sn, H5; reflexivity.
Qed.

Lemma model4_call_returns_iff_witness :
  ((exists out,
      deconv_04 2 Examples.aryEmp5
        (aryNseRnd_model4 Examples.draws 3 (fst (shape2 Examples.aryEmp5)) 11
           (Examples.q 0.15)) = Ok out)
   <-> 5 <= 11) /\
  (forall out,
      deconv_04 2 Examples.aryEmp5
        (aryNseRnd_model4 Examples.draws 3 (fst (shape2 Examples.aryEmp5)) 11
           (Examples.q 0.15)) = Ok out ->
      shape3 out = (3, fst (shape2 Examples.aryEmp5), 5)).
Proof.
  apply (model4_call_returns_iff Examples.draws 2 Examples.aryEmp5 3 11
           (Examples.q 0.15)).
  reflexivity.
Defined.

(** ** permutation_peak.py: rows of the data frame *)

Lemma fold_counter {T : Type} (w : nat) (blk : nat -> nat -> list T)
    (step : nat * list T -> nat -> nat * list T) (n : nat) :
  (forall j st, step st j = (fst st + w, snd st ++ blk j (fst st))) ->
  forall st,
    fold_left step (seq 0 n) st
    = (fst st + n * w,
       snd st ++ flat_map (fun j => blk j (fst st + j * w)) (seq 0 n)).
Proof.
  intros Hstep; induction n as [| n IH]; intros [s rows]; cbn [fst snd].
  - cbn; now rewrite Nat.add_0_r, app_nil_r.
  - rewrite seq_S, fold_left_app, IH; cbn [fold_left fst snd Nat.add].
    rewrite Hstep; cbn [fst snd].
    rewrite flat_map_app; cbn [flat_map]; rewrite app_nil_r, app_assoc.
    f_equal; lia.
Qed.

Lemma map_fst_blocks {T : Type} (w : nat) (blk : nat -> nat -> list (nat * T))
    (n s : nat) :
  (forall j s', map fst (blk j s') = seq s' w) ->
  map fst (flat_map (fun j => blk j (s + j * w)) (seq 0 n)) = seq s (n * w).
Proof.
  intros Hblk; induction n as [| n IH]; [reflexivity |].
  rewrite seq_S, flat_map_app, map_app, IH; cbn [flat_map Nat.add].
  rewrite app_nil_r, Hblk.
  replace (S n * w) with (n * w + w) by lia.
  now rewrite seq_app.
Qed.

(** X18.  The counter of the loop through the comparisons.  After the four
    nested loops the counter equals the number of rows the data frame was
    created with; the passes through the body write to the rows 0, 1, ...,
    each row once and none beyond the frame; and the pass for
    metacondition [m], model [d], ROI [r] and comparison [k] writes to the
    row [((m * models + d) * ROIs + r) * comparisons + k]. *)
Theorem peak_loop_rows (lenMetaCon lenMdl lenRoi lenDiff : nat) :
  let n := varNumSmpl lenMetaCon lenMdl lenRoi lenDiff in
  fst (peak_loop lenMetaCon lenMdl lenRoi lenDiff) = n /\
  map fst (snd (peak_loop lenMetaCon lenMdl lenRoi lenDiff)) = seq 0 n /\
  forall i m d r k,
    In (i, (m, d, r, k)) (snd (peak_loop lenMetaCon lenMdl lenRoi lenDiff))
    <-> (m < lenMetaCon /\ d < lenMdl /\ r < lenRoi /\ k < lenDiff /\
         i = ((m * lenMdl + d) * lenRoi + r) * lenDiff + k).
Proof.
  intros n; unfold peak_loop; cbv zeta.
  pose (blk4 (m d r k s : nat) := [(s, (m, d, r, k))]).
  pose (blk3 (m d r s : nat) :=
          flat_map (fun k => blk4 m d r k (s + k * 1)) (seq 0 lenDiff)).
  pose (blk2 (m d s : nat) :=
          flat_map (fun r => blk3 m d r (s + r * (lenDiff * 1)))
            (seq 0 lenRoi)).
  pose (blk1 (m s : nat) :=
          flat_map (fun d => blk2 m d (s + d * (lenRoi * (lenDiff * 1))))
            (seq 0 lenMdl)).
  assert (F4 : forall m d r st,
             fold_left
               (fun st idxDiff =>
                  (fst st + 1, snd st ++ [(fst st, (m, d, r, idxDiff))]))
               (seq 0 lenDiff) st
             = (fst st + lenDiff * 1, snd st ++ blk3 m d r (fst st))).
  { intros m d r st.
    apply (fold_counter 1 (blk4 m d r)); intros j st'; reflexivity. }
  assert (F3 : forall m d st,
             fold_left
               (fun st idxRoi =>
                  fold_left
                    (fun st idxDiff =>
                       (fst st + 1,
                        snd st ++ [(fst st, (m, d, idxRoi, idxDiff))]))
                    (seq 0 lenDiff) st)
               (seq 0 lenRoi) st
             = (fst st + lenRoi * (lenDiff * 1),
                snd st ++ blk2 m d (fst st))).
  { intros m d st.
    apply (fold_counter (lenDiff * 1) (blk3 m d)); intros j st'; apply F4. }
  assert (F2 : forall m st,
             fold_left
               (fun st idxMdl =>
                  fold_left
                    (fun st idxRoi =>
                       fold_left
                         (fun st idxDiff =>
                            (fst st + 1,
                             snd st
                             ++ [(fst st, (m, idxMdl, idxRoi, idxDiff))]))
                         (seq 0 lenDiff) st)
                    (seq 0 lenRoi) st)
               (seq 0 lenMdl) st
             = (fst st + lenMdl * (lenRoi * (lenDiff * 1)),
                snd st ++ blk1 m (fst st))).
  { intros m st.
    apply (fold_counter (lenRoi * (lenDiff * 1)) (blk2 m));
      intros j st'; apply F3. }
  rewrite (fold_counter (lenMdl * (lenRoi * (lenDiff * 1))) blk1 _
             lenMetaCon F2 (0, [])).
  cbn [fst snd app Nat.add].
  assert (B4 : forall m d r k s, map fst (blk4 m d r k s) = seq s 1)
    by reflexivity.
  assert (B3 : forall m d r s, map fst (blk3 m d r s) = seq s (lenDiff * 1))
    by (intros; apply map_fst_blocks; apply B4).
  assert (B2 : forall m d s,
             map fst (blk2 m d s) = seq s (lenRoi * (lenDiff * 1)))
    by (intros; apply map_fst_blocks; apply B3).
  assert (B1 : forall m s,
             map fst (blk1 m s)
             = seq s (lenMdl * (lenRoi * (lenDiff * 1))))
    by (intros; apply map_fst_blocks; apply B2).
  assert (En : lenMetaCon * (lenMdl * (lenRoi * (lenDiff * 1))) = n)
    by (unfold n, varNumSmpl; ring).
  split; [exact En |]. split.
  - rewrite <- En.
    apply (map_fst_blocks (lenMdl * (lenRoi * (lenDiff * 1))) blk1
             lenMetaCon 0 B1).
  - intros i m d r k; unfold blk1, blk2, blk3, blk4.
    rewrite in_flat_map; split.
    + intros (m' & Hm & H1); apply in_flat_map in H1.
      destruct H1 as (d' & Hd & H1); apply in_flat_map in H1.
      destruct H1 as (r' & Hr & H1); apply in_flat_map in H1.
      destruct H1 as (k' & Hk & [H1 | []]).
      injection H1 as <- <- <- <- <-.
      apply in_seq in Hm, Hd, Hr, Hk.
      repeat (split; [lia |]); ring.
    + intros (Hm & Hd & Hr & Hk & ->).
      exists m; split; [apply in_seq; lia |].
      apply in_flat_map; exists d; split; [apply in_seq; lia |].
      apply in_flat_map; exists r; split; [apply in_seq; lia |].
      apply in_flat_map; exists k; split; [apply in_seq; lia |].
      left; f_equal; ring.
Qed.

(** ** deconv_04 is linear in the profile *)

Lemma num_term (p q : Q) (o n : Qc) :
  ~ (q == 0)%Q ->
  fmul (fmul (fdiv (lit p) (lit q)) (Some o)) (Some n)
  = Some (Q2Qc p / Q2Qc q * o * n)%Qc.
Proof.
  intros Hq; cbn [lit fdiv fmul num_Scalar num_div].
  destruct (Qc_eq_dec (Q2Qc q) (Q2Qc 0)) as [E | E];
    [exfalso; apply Q2Qc_eq_iff in E; contradiction |].
  reflexivity.
Qed.

(** The five corrected layers of a run on finite values. *)
Lemma deconv_04_finite_Ok (varNumCon : Z) (aryEmp5 : ndarray2 num)
    (aryNseRnd out : ndarray3 num) (i c : nat) (x z : nat -> Qc) :
  deconv_04 varNumCon aryEmp5 aryNseRnd = Ok out ->
  i < dim3_0 aryNseRnd -> c < fst (shape2 aryEmp5) ->
  (forall d, d <= 4 -> data2 aryEmp5 c d = Some (x d)) ->
  (forall d, 1 <= d <= 4 -> noise_factor aryNseRnd i c d = Some (z d)) ->
  let r06 := (Q2Qc 0.6 / Q2Qc 1.9)%Qc in
  let r03 := (Q2Qc 0.3 / Q2Qc 1.5)%Qc in
  let r13 := (Q2Qc 1.3 / Q2Qc 2.2)%Qc in
  let r05 := (Q2Qc 0.5 / Q2Qc 1.9)%Qc in
  let r07 := (Q2Qc 0.7 / Q2Qc 1.7)%Qc in
  let o0 := x 0 in
  let o1 := (x 1%nat - r06 * o0 * z 1%nat)%Qc in
  let o2 := (x 2%nat - r03 * o1 * z 2%nat - r06 * o0 * z 2%nat)%Qc in
  let o3 := (x 3%nat - r13 * o2 * z 3%nat - r03 * o1 * z 3%nat
             - r05 * o0 * z 3%nat)%Qc in
  let o4 := (x 4%nat - r07 * o3 * z 4%nat - r13 * o2 * z 4%nat
             - r03 * o1 * z 4%nat - r05 * o0 * z 4%nat)%Qc in
  data3 out i c 0 = Some o0 /\ data3 out i c 1 = Some o1 /\
  data3 out i c 2 = Some o2 /\ data3 out i c 3 = Some o3 /\
  data3 out i c 4 = Some o4 /\
  forall d, 4 < d -> data3 out i c d = Some (Q2Qc 0).
Proof.
  intros Hout Hi Hc Hx Hz.
  destruct (deconv_04_Ok_inv _ _ _ _ Hout) as (_ & _ & _ & _ & Hinv).
  destruct (Hinv i c Hi Hc) as (E0 & E1 & E2 & E3 & E4 & Ez); clear Hinv.
  cbv zeta.
  rewrite (Hx 0) in E0 by lia.
  rewrite (Hx 1), (Hz 1), E0, num_term in E1 by (lia || discriminate).
  rewrite (Hx 2), (Hz 2), E0, E1, !num_term in E2 by (lia || discriminate).
  rewrite (Hx 3), (Hz 3), E0, E1, E2, !num_term in E3
    by (lia || discriminate).
  rewrite (Hx 4), (Hz 4), E0, E1, E2, E3, !num_term in E4
    by (lia || discriminate).
  repeat split; assumption.
Qed.

(** X19.  Linearity.  For a fixed noise array, the corrected profile of a
    weighted sum of two finite profiles is the same weighted sum of their
    corrected profiles, in exact arithmetic: the correction commutes with
    scaling and with adding profiles. *)
Theorem deconv_04_linear (varNumCon : Z) (emp1 emp2 emp : ndarray2 num)
    (aryNseRnd : ndarray3 num) (a b : Qc) (x y : nat -> nat -> Qc)
    (z : nat -> nat -> nat -> Qc) :
  4 < snd (shape2 emp) -> 4 < dim3_2 aryNseRnd ->
  dim3_1 aryNseRnd = fst (shape2 emp) \/ dim3_1 aryNseRnd = 1 ->
  shape2 emp1 = shape2 emp -> shape2 emp2 = shape2 emp ->
  (forall c d, c < fst (shape2 emp) -> d <= 4 ->
     data2 emp1 c d = Some (x c d) /\ data2 emp2 c d = Some (y c d) /\
     data2 emp c d = Some (a * x c d + b * y c d)%Qc) ->
  (forall i c d, i < dim3_0 aryNseRnd -> c < fst (shape2 emp) ->
                 1 <= d <= 4 ->
                 noise_factor aryNseRnd i c d = Some (z i c d)) ->
  exists out1 out2 out,
    deconv_04 varNumCon emp1 aryNseRnd = Ok out1 /\
    deconv_04 varNumCon emp2 aryNseRnd = Ok out2 /\
    deconv_04 varNumCon emp aryNseRnd = Ok out /\
    forall i c d, i < dim3_0 aryNseRnd -> c < fst (shape2 emp) ->
      exists u v : Qc,
        data3 out1 i c d = Some u /\ data3 out2 i c d = Some v /\
        data3 out i c d = Some (a * u + b * v)%Qc.
Proof.
  intros He Hn Hc S1 S2 Hlin Hz.
  destruct (deconv_04_total varNumCon emp aryNseRnd He Hn Hc)
    as (out & Hout).
  destruct (deconv_04_total varNumCon emp1 aryNseRnd) as (out1 & Hout1);
    [now rewrite S1 | assumption | now rewrite S1 |].
  destruct (deconv_04_total varNumCon emp2 aryNseRnd) as (out2 & Hout2);
    [now rewrite S2 | assumption | now rewrite S2 |].
  exists out1, out2, out; repeat (split; [assumption |]).
  intros i c d Hi Hci.
  destruct (deconv_04_finite_Ok varNumCon emp1 aryNseRnd out1 i c
              (x c) (z i c) Hout1 Hi)
    as (A0 & A1 & A2 & A3 & A4 & Az);
    [now rewrite S1 | intros; now apply Hlin | intros; now apply Hz |].
  destruct (deconv_04_finite_Ok varNumCon emp2 aryNseRnd out2 i c
              (y c) (z i c) Hout2 Hi)
    as (B0 & B1 & B2 & B3 & B4 & Bz);
    [now rewrite S2 | intros; now apply Hlin | intros; now apply Hz |].
  destruct (deconv_04_finite_Ok varNumCon emp aryNseRnd out i c
              (fun d => (a * x c d + b * y c d)%Qc) (z i c) Hout Hi Hci)
    as (C0 & C1 & C2 & C3 & C4 & Cz);
    [intros; now apply Hlin | intros; now apply Hz |].
  set (r06 := (Q2Qc 0.6 / Q2Qc 1.9)%Qc) in *.
  set (r03 := (Q2Qc 0.3 / Q2Qc 1.5)%Qc) in *.
  set (r13 := (Q2Qc 1.3 / Q2Qc 2.2)%Qc) in *.
  set (r05 := (Q2Qc 0.5 / Q2Qc 1.9)%Qc) in *.
  set (r07 := (Q2Qc 0.7 / Q2Qc 1.7)%Qc) in *.
  destruct d as [| [| [| [| [| d]]]]].
  - do 2 eexists; split; [exact A0 |]; split; [exact B0 |].
    rewrite C0; f_equal.
  - do 2 eexists; split; [exact A1 |]; split; [exact B1 |].
    rewrite C1; f_equal; ring.
  - do 2 eexists; split; [exact A2 |]; split; [exact B2 |].
    rewrite C2; f_equal; ring.
  - do 2 eexists; split; [exact A3 |]; split; [exact B3 |].
    rewrite C3; f_equal; ring.
  - do 2 eexists; split; [exact A4 |]; split; [exact B4 |].
    rewrite C4; f_equal; ring.
  - do 2 eexists; split; [apply Az; lia |]; split; [apply Bz; lia |].
    rewrite Cz by lia; f_equal; ring.
Qed.

Lemma deconv_04_linear_witness :
  exists out1 out2 out,
    deconv_04 2 Examples.aryEmp5 Examples.aryNseRnd = Ok out1 /\
    deconv_04 2 Examples.aryEmp5 Examples.aryNseRnd = Ok out2 /\
    deconv_04 2 MoreExamples.aryEmp5_times3 Examples.aryNseRnd = Ok out /\
    forall i c d,
      i < dim3_0 Examples.aryNseRnd ->
      c < fst (shape2 MoreExamples.aryEmp5_times3) ->
      exists u v : Qc,
        data3 out1 i c d = Some u /\ data3 out2 i c d = Some v /\
        data3 out i c d = Some (Q2Qc 2 * u + Q2Qc 1 * v)%Qc.
Proof.
  apply (deconv_04_linear 2 Examples.aryEmp5 Examples.aryEmp5
           MoreExamples.aryEmp5_times3 Examples.aryNseRnd
           (Q2Qc 2) (Q2Qc 1)
           (fun c d => MoreExamples.value (data2 Examples.aryEmp5 c d))
           (fun c d => MoreExamples.value (data2 Examples.aryEmp5 c d))
           (fun i c d =>
              MoreExamples.value (noise_factor Examples.aryNseRnd i c d)));
    try (vm_compute; lia); try (left; reflexivity); try reflexivity.
  - intros c d Hc Hd.
    destruct c as [| [| c]]; [| | vm_compute in Hc; lia];
      (do 5 (destruct d as [| d];
             [split; [reflexivity |]; split; [reflexivity |];
              apply num_eq_this; vm_compute; reflexivity |]); lia).
  - intros i c d Hi Hc Hd.
    destruct i as [| [| i]]; [| | vm_compute in Hi; lia];
      (destruct c as [| [| c]]; [| | vm_compute in Hc; lia]);
      (do 5 (destruct d as [| d]; [reflexivity |]); lia).
Defined.

(** ** The bootstrap samples for the peak positions *)

Lemma Q2Qc_of_nat_succ (n : nat) :
  Q2Qc (inject_Z (Z.of_nat (S n)))
  = (Q2Qc (inject_Z (Z.of_nat n)) + Q2Qc 1)%Qc.
Proof.
  apply Qc_is_canon; unfold Qcplus; cbn [this Q2Qc].
  rewrite !Qred_correct, Nat2Z.inj_succ, <- Z.add_1_r, inject_Z_plus.
  reflexivity.
Qed.

Lemma np_sum_repeat (v a : Qc) (n : nat) :
  fold_left fadd (repeat (Some v) n) (Some a)
  = Some (a + Q2Qc (inject_Z (Z.of_nat n)) * v)%Qc.
Proof.
  revert a; induction n as [| n IH]; intros a.
  - cbn [repeat fold_left]; f_equal.
    change (Q2Qc (inject_Z (Z.of_nat 0))) with (Q2Qc 0); ring.
  - cbn [repeat fold_left fadd num_Scalar num_lift2].
    rewrite IH, Q2Qc_of_nat_succ; f_equal; ring.
Qed.

(** The mean of equal finite values is that value. *)
Lemma np_mean_repeat (v : Qc) (n : nat) :
  0 < n -> np_mean (repeat (Some v) n) = Some v.
Proof.
  intros Hn; unfold np_mean, np_sum, of_nat.
  cbn [lit num_Scalar]; rewrite np_sum_repeat, repeat_length.
  cbn [fdiv num_Scalar num_div].
  destruct (Qc_eq_dec _ _) as [E | E];
    [exfalso; revert E; apply Q2Qc_of_nat_neq_0; lia |].
  f_equal; field; exact E.
Qed.

(** X20.  Bootstrap samples of subjects that agree, in exact arithmetic.
    Where the subjects have one and the same finite value at a condition
    and depth level, every bootstrap sample of the peak-position bootstrap,
    the mean of the values drawn, has that value there, whatever the
    draws.  This is a statement over the exact rationals: in binary64 the
    mean of several equal values can differ from them in the last place
    (three times 0.1, divided by 3, is not 0.1). *)
Theorem fill_aryBoo_agreeing_subjects (rng : nat -> nat -> nat)
    (ary : ndarray3 num) (varNumSub : nat) (varNumIt : Z) (idxCon d : nat)
    (aryBoo : ndarray2 num) (v : Qc) :
  0 < varNumSub -> varNumSub <= dim3_0 ary -> (0 <= varNumIt)%Z ->
  idxCon < dim3_1 ary -> d < dim3_2 ary ->
  shape2 aryBoo = (Z.to_nat varNumIt, dim3_2 ary) ->
  (forall s, s < varNumSub -> data3 ary s idxCon d = Some v) ->
  exists aryRnd out,
    randint rng varNumSub (varNumIt, varNumSub) = Ok aryRnd /\
    fill_aryBoo aryRnd ary varNumSub (Z.to_nat varNumIt) idxCon aryBoo
    = Ok out /\
    shape2 out = shape2 aryBoo /\
    forall idxIt, idxIt < Z.to_nat varNumIt -> data2 out idxIt d = Some v.
Proof.
  intros Hsub Hle Hit Hcon Hd Hshape Hagree.
  rewrite randint_subjects by exact Hit.
  set (aryRnd := {| shape2 := (Z.to_nat varNumIt, varNumSub);
                    data2 := fun i s => rng i s mod varNumSub |}).
  assert (Hmean : forall idxIt,
             exists vec,
               mean_resampled ary varNumSub (data2 aryRnd idxIt) idxCon
               = Ok vec /\
               List.length vec = dim3_2 ary /\
               nth d vec (lit 0%Q) = Some v).
  { intros idxIt; unfold mean_resampled.
    assert (Hall : forallb (fun s => data2 aryRnd idxIt s <? dim3_0 ary)
                     (seq 0 varNumSub) = true).
    { apply forallb_forall; intros s _; apply Nat.ltb_lt.
      cbn [aryRnd data2].
      pose proof (Nat.mod_upper_bound (rng idxIt s) varNumSub); lia. }
    rewrite Hall; cbn [andb].
    destruct (Nat.ltb_spec idxCon (dim3_1 ary)); [| lia].
    eexists; split; [reflexivity |].
    split; [now rewrite length_map, length_seq |].
    rewrite nth_map_seq by exact Hd.
    rewrite (map_seq_const _ (Some v)).
    - now apply np_mean_repeat.
    - intros s _; apply Hagree; cbn [aryRnd data2].
      apply Nat.mod_upper_bound; lia. }
  assert (Hk : forall k, k <= Z.to_nat varNumIt ->
             exists out,
               fold_left
                 (fun acc idxIt =>
                    aryBoo <- acc ;;
                    v <- mean_resampled ary varNumSub (data2 aryRnd idxIt)
                           idxCon ;;
                    set_row aryBoo idxIt v)
                 (seq 0 k) (Ok aryBoo) = Ok out /\
               shape2 out = shape2 aryBoo /\
               forall idxIt, idxIt < k -> data2 out idxIt d = Some v).
  { induction k as [| k IH]; intros Hkk.
    - exists aryBoo; repeat split; intros; lia.
    - destruct IH as (out & Hout & Hs & Hv); [lia |].
      destruct (Hmean k) as (vec & Hvec & Hlen & Hnth).
      rewrite seq_S, fold_left_app, Hout; cbn [fold_left bind Nat.add].
      rewrite Hvec; cbn [bind]; unfold set_row.
      rewrite Hs, Hshape; cbn [fst snd].
      destruct (Nat.ltb_spec k (Z.to_nat varNumIt)); [| lia].
      cbn [negb]; rewrite Hlen, Nat.eqb_refl; cbn [orb].
      eexists; split; [reflexivity |]. cbn [shape2 data2].
      split; [reflexivity |].
      intros idxIt Hi.
      destruct (Nat.eqb_spec idxIt k) as [-> | Hne].
      + unfold bidx.
        destruct (Nat.eqb_spec (dim3_2 ary) 1) as [E1 | E1];
          [| exact Hnth].
        replace d with 0 in Hnth by lia; exact Hnth.
      + apply Hv; lia. }
  destruct (Hk (Z.to_nat varNumIt) (le_n _)) as (out & Hout & Hs & Hv).
  exists aryRnd, out; split; [reflexivity |].
  split; [exact Hout |]. split; assumption.
Qed.

Lemma fill_aryBoo_agreeing_subjects_witness :
  exists aryRnd out,
    randint Examples.rng 3 (4%Z, 3) = Ok aryRnd /\
    fill_aryBoo aryRnd MoreExamples.aryDpthB 3 (Z.to_nat 4) 0
      {| shape2 := (4, 2); data2 := fun _ _ => Examples.q 0 |}
    = Ok out /\
    shape2 out = (4, 2) /\
    forall idxIt, idxIt < Z.to_nat 4 -> data2 out idxIt 0 = Some (Q2Qc 7).
Proof.
  apply (fill_aryBoo_agreeing_subjects Examples.rng MoreExamples.aryDpthB
           3 4%Z 0 0
           {| shape2 := (4, 2); data2 := fun _ _ => Examples.q 0 |}
           (Q2Qc 7));
    try (vm_compute; lia); try reflexivity.
  - vm_compute; discriminate.
  - intros s Hs; destruct s as [| [| [| s]]];
      [reflexivity | reflexivity | reflexivity | lia].
Defined.

(** ** boot_plot: the medians and the percentiles *)

(** What [np_median] computes on numbers is their median. *)
Lemma np_median_spec (ql : list Qc) :
  0 < List.length ql ->
  exists m, np_median (map Some ql) = Some m /\ median_of ql m.
Proof.
  intros Hn; unfold np_median, median_of; cbv zeta.
  rewrite existsb_isnan_finite, length_map.
  destruct (np_sort_finite ql) as (sl & E & Hs & Len & _ & Hperm); rewrite E.
  set (n := List.length ql) in *.
  assert (Hh : n / 2 < n) by (apply Nat.div_lt; lia).
  unfold slice; rewrite skipn_map, firstn_map, skipn_map, firstn_map.
  destruct (Nat.odd n) eqn:Eo.
  - replace (n / 2 + 1 - n / 2) with 1 by lia.
    rewrite (firstn_skipn_one sl (n / 2) (Q2Qc 0)) by lia.
    exists (nth (n / 2) sl (Q2Qc 0)); split.
    + unfold np_mean, np_sum, of_nat;
        cbn [map fold_left List.length lit fadd fdiv num_Scalar num_lift2
               num_div].
      destruct (Qc_eq_dec _ _) as [E1 | E1];
        [exfalso; revert E1; apply Q2Qc_of_nat_neq_0; lia |].
      change (Q2Qc (inject_Z (Z.of_nat 1))) with 1%Qc.
      f_equal; field; exact E1.
    + exists sl; split; [exact Hperm |]. split; [exact Hs | reflexivity].
  - assert (H2 : 1 <= n / 2).
    { destruct n as [| [| n']]; [lia | discriminate |].
      apply Nat.div_le_lower_bound; lia. }
    replace (n / 2 + 1 - (n / 2 - 1)) with 2 by lia.
    rewrite (firstn_skipn_two sl (n / 2 - 1) (Q2Qc 0)) by lia.
    replace (S (n / 2 - 1)) with (n / 2) by lia.
    eexists; split.
    + unfold np_mean, np_sum, of_nat;
        cbn [map fold_left List.length lit fadd fdiv num_Scalar num_lift2
               num_div].
      destruct (Qc_eq_dec _ _) as [E1 | E1];
        [exfalso; revert E1; apply Q2Qc_of_nat_neq_0; lia |].
      reflexivity.
    + exists sl; split; [exact Hperm |]. split; [exact Hs |].
      change (Q2Qc (inject_Z (Z.of_nat 2))) with (Q2Qc 2).
      assert (E2 : Q2Qc 2 <> Q2Qc 0)
        by (intros E2; apply (f_equal this) in E2; discriminate E2).
      field; exact E2.
Qed.

(** What [percentile1] computes on numbers is their percentile. *)
Lemma percentile1_spec (ql : list Qc) (q : Qc) :
  0 < List.length ql -> out_of_range (Some q) = false ->
  exists v, percentile1 (map Some ql) (Some q) = Some v /\
            percentile_of ql q v.
Proof.
  intros Hn Hq.
  destruct (np_sort_finite ql) as (sl & E & Hs & Len & _ & Hperm).
  rewrite (percentile1_finite ql sl q E Len Hn Hq); cbv zeta.
  eexists; split; [reflexivity |].
  exists sl; split; [exact Hperm |]. split; [exact Hs | reflexivity].
Qed.

Lemma np_median_nil : np_median (F := num) [] = None.
Proof. vm_compute; reflexivity. Qed.

Lemma percentile1_nan (l : list num) (q : num) :
  In None l -> percentile1 l q = None.
Proof.
  intros Hin; unfold percentile1; cbv zeta.
  assert (E : existsb fisnan l = true)
    by (apply existsb_exists; exists None; split; [exact Hin | reflexivity]).
  rewrite E; vm_compute; reflexivity.
Qed.

(** C4.  With one iteration or more and percentiles that are numbers from 0
    to 100 the function returns, and hands to the plotting function, for
    every condition and depth level, three values.  In each of the
    [varNumIt] iterations it draws as many subject indices as there are
    subjects, each an index of a subject (so with replacement).  Where the
    subjects' values are numbers: each iteration gives the median of the
    values of the subjects drawn; the lower and the upper bound are the
    two percentiles, by linear interpolation, of these medians across the
    iterations; and the third value is the median of the subjects' own
    values.  In general the three values are what [np.median] and
    [np.percentile] give on these lists.  Without any subject all three
    are NaN. *)
Theorem boot_plot_percentile_bootstrap (rng : nat -> nat -> nat)
    (aryDpth : ndarray3 num) (varNumIt : Z) (varConLw varConUp : Qc) :
  (0 < varNumIt)%Z ->
  out_of_range (Some varConLw) = false ->
  out_of_range (Some varConUp) = false ->
  exists call (aryRnd : nat -> nat -> nat),
    boot_plot rng aryDpth varNumIt (Some varConLw) (Some varConUp)
    = Ok call /\
    let varNumSub := dim3_0 aryDpth in
    let its := seq 0 (Z.to_nat varNumIt) in
    (forall it s, s < varNumSub ->
       aryRnd it s = rng it s mod varNumSub /\ aryRnd it s < varNumSub) /\
    shape2 (aryData call) = (dim3_1 aryDpth, dim3_2 aryDpth) /\
    shape2 (aryCnfLw call) = (dim3_1 aryDpth, dim3_2 aryDpth) /\
    shape2 (aryCnfUp call) = (dim3_1 aryDpth, dim3_2 aryDpth) /\
    (forall c d (val : nat -> Qc),
       0 < varNumSub ->
       (forall s, s < varNumSub -> data3 aryDpth s c d = Some (val s)) ->
       exists (med : nat -> Qc) (lw up m : Qc),
         (forall it,
            median_of (map (fun s => val (aryRnd it s)) (seq 0 varNumSub))
              (med it)) /\
         percentile_of (map med its) varConLw lw /\
         percentile_of (map med its) varConUp up /\
         median_of (map val (seq 0 varNumSub)) m /\
         data2 (aryCnfLw call) c d = Some lw /\
         data2 (aryCnfUp call) c d = Some up /\
         data2 (aryData call) c d = Some m) /\
    (forall c d,
       let resampled it :=
         map (fun s => data3 aryDpth (aryRnd it s) c d) (seq 0 varNumSub) in
       let across_iterations :=
         map (fun it => np_median (resampled it)) its in
       data2 (aryCnfLw call) c d
       = percentile1 across_iterations (Some varConLw) /\
       data2 (aryCnfUp call) c d
       = percentile1 across_iterations (Some varConUp) /\
       data2 (aryData call) c d
       = np_median (map (fun s => data3 aryDpth s c d) (seq 0 varNumSub))) /\
    (varNumSub = 0 ->
     forall c d,
       data2 (aryCnfLw call) c d = None /\
       data2 (aryCnfUp call) c d = None /\
       data2 (aryData call) c d = None).
Proof.
  intros Hit Hlw Hup.
  destruct (boot_plot_Ok rng aryDpth varNumIt (Some varConLw) (Some varConUp)
              Hit Hlw Hup) as (call & Hcall & Hs0 & Hs1 & Hs2 & Hd).
  cbv zeta in Hd.
  exists call, (fun it s => rng it s mod dim3_0 aryDpth).
  split; [exact Hcall |]. cbv zeta.
  set (n := dim3_0 aryDpth) in *.
  set (nIt := Z.to_nat varNumIt) in *.
  assert (HnIt : 0 < nIt) by (unfold nIt; lia).
  split.
  { intros it s Hs; split; [reflexivity |].
    apply Nat.mod_upper_bound; lia. }
  split; [exact Hs0 |]. split; [exact Hs1 |]. split; [exact Hs2 |].
  split; [| split; [exact Hd |]].
  - intros c d val Hn Hfin.
    destruct (Hd c d) as (L & U & M).
    assert (Hres : forall idx : nat -> nat,
               (forall s, s < n -> idx s < n) ->
               map (fun s => data3 aryDpth (idx s) c d) (seq 0 n)
               = map Some (map (fun s => val (idx s)) (seq 0 n))).
    { intros idx Hidx; rewrite map_map; apply map_ext_in.
      intros s Hs; apply in_seq in Hs; apply Hfin, Hidx; lia. }
    assert (Hlen : forall idx : nat -> nat,
               0 < List.length (map (fun s => val (idx s)) (seq 0 n)))
      by (intros idx; now rewrite length_map, length_seq).
    pose (med it :=
            MoreExamples.value
              (np_median
                 (map Some (map (fun s => val (rng it s mod n)) (seq 0 n))))).
    assert (Hmed : forall it,
               np_median
                 (map (fun s => data3 aryDpth (rng it s mod n) c d)
                      (seq 0 n)) = Some (med it) /\
               median_of (map (fun s => val (rng it s mod n)) (seq 0 n))
                 (med it)).
    { intros it.
      rewrite (Hres (fun s => rng it s mod n))
        by (intros s _; apply Nat.mod_upper_bound; lia).
      destruct (np_median_spec _ (Hlen (fun s => rng it s mod n)))
        as (m & Hm & Hmo).
      unfold med; rewrite Hm; cbn [MoreExamples.value]; auto. }
    assert (E : map (fun it =>
                       np_median
                         (map (fun s => data3 aryDpth (rng it s mod n) c d)
                              (seq 0 n)))
                  (seq 0 nIt)
                = map Some (map med (seq 0 nIt))).
    { rewrite map_map; apply map_ext; intros it; apply (Hmed it). }
    rewrite E in L, U.
    assert (Hml : 0 < List.length (map med (seq 0 nIt)))
      by now rewrite length_map, length_seq.
    destruct (percentile1_spec _ varConLw Hml Hlw) as (lw & Elw & Plw).
    destruct (percentile1_spec _ varConUp Hml Hup) as (up & Eup & Pup).
    rewrite (Hres (fun s => s)) in M by auto.
    destruct (np_median_spec _ (Hlen (fun s => s))) as (m & Em & Pm).
    exists med, lw, up, m.
    split; [intros it; apply (Hmed it) |].
    split; [exact Plw |]. split; [exact Pup |]. split; [exact Pm |].
    rewrite L, U, M; auto.
  - intros Hn0 c d; destruct (Hd c d) as (L & U & M).
    rewrite L, U, M, Hn0; cbn [seq map].
    rewrite np_median_nil.
    assert (Hin : In None (map (fun _ : nat => @None Qc) (seq 0 nIt))).
    { apply in_map_iff; exists 0; split; [reflexivity |].
      apply in_seq; lia. }
    rewrite !(percentile1_nan _ _ Hin); auto.
Qed.

Lemma boot_plot_percentile_bootstrap_witness :
  ((0 < 4)%Z /\
   out_of_range (Some (Q2Qc 2.5)) = false /\
   out_of_range (Some (Q2Qc 97.5)) = false) /\
  exists call,
    boot_plot Examples.rng Examples.aryDpth 4
      (Some (Q2Qc 2.5)) (Some (Q2Qc 97.5)) = Ok call /\
    data2 (aryCnfLw call) 0 0 = Some (Q2Qc 1.075) /\
    data2 (aryCnfLw call) 0 1 = Some (Q2Qc 3) /\
    data2 (aryCnfUp call) 0 0 = Some (Q2Qc 3.85) /\
    data2 (aryCnfUp call) 0 1 = Some (Q2Qc 8.7) /\
    data2 (aryData call) 0 0 = Some (Q2Qc 2) /\
    data2 (aryData call) 0 1 = Some (Q2Qc 5).
Proof.
  assert (H1 : (0 < 4)%Z) by lia.
  assert (H2 : out_of_range (Some (Q2Qc 2.5)) = false)
    by (vm_compute; reflexivity).
  assert (H3 : out_of_range (Some (Q2Qc 97.5)) = false)
    by (vm_compute; reflexivity).
  split; [auto |].
  destruct (boot_plot_percentile_bootstrap Examples.rng Examples.aryDpth 4
              (Q2Qc 2.5) (Q2Qc 97.5) H1 H2 H3)
    as (call & aryRnd & Hcall & Hrnd & _ & _ & _ & _ & Hd & _).
  exists call; split; [exact Hcall |].
  cbv zeta in Hd, Hrnd.
  assert (Hm : forall it c d,
             map (fun s => data3 Examples.aryDpth (aryRnd it s) c d)
                 (seq 0 (dim3_0 Examples.aryDpth))
             = map (fun s => data3 Examples.aryDpth
                               (Examples.rng it s mod 3) c d)
                   (seq 0 3)).
  { intros it c d; apply map_ext_in; intros s Hs; apply in_seq in Hs.
    now rewrite (proj1 (Hrnd it s ltac:(cbn in *; lia))). }
  destruct (Hd 0 0) as (L0 & U0 & M0), (Hd 0 1) as (L1 & U1 & M1).
  rewrite L0, L1, U0, U1, M0, M1.
  rewrite !(map_ext _ _ (fun it => f_equal np_median (Hm it 0 0))).
  rewrite !(map_ext _ _ (fun it => f_equal np_median (Hm it 0 1))).
  repeat split; apply num_eq_this; vm_compute; reflexivity.
Defined.

(** ** funcSlctVrtcs: the criteria in turn (C10) *)

(** What [np_logical_and] returns is the AND of its operands. *)
Lemma np_logical_and_anded (a b r : list bool) :
  np_logical_and a b = Ok r -> anded a b r.
Proof.
  unfold np_logical_and, anded.
  destruct (Nat.eqb_spec (List.length a) (List.length b)) as [E | E].
  - intros [= <-].
    assert (Hl : List.length (map (fun p => fst p && snd p) (combine a b))
                 = List.length a)
      by (rewrite length_map, length_combine; lia).
    split.
    + rewrite Hl; destruct (Nat.eqb_spec (List.length a) 1); lia.
    + intros i Hi; rewrite Hl in Hi.
      rewrite nth_and_combine by exact E.
      unfold bidx; rewrite <- E.
      destruct (Nat.eqb_spec (List.length a) 1) as [E1 | E1];
        [| reflexivity].
      now replace i with 0 by lia.
  - destruct (Nat.eqb_spec (List.length a) 1) as [E1 | E1].
    + intros [= <-]; rewrite length_map; split; [reflexivity |].
      intros i Hi; unfold bidx; rewrite E1; cbn [Nat.eqb].
      destruct (Nat.eqb_spec (List.length b) 1); [lia |].
      rewrite (nth_indep _ false (andb (hd false a) false))
        by now rewrite length_map.
      rewrite map_nth.
      destruct a as [| x [| y a]]; cbn in E1; try lia; reflexivity.
    + destruct (Nat.eqb_spec (List.length b) 1) as [E2 | E2];
        [| discriminate].
      intros [= <-]; rewrite length_map; split; [reflexivity |].
      intros i Hi; unfold bidx; rewrite E2; cbn [Nat.eqb].
      destruct (Nat.eqb_spec (List.length a) 1); [contradiction |].
      rewrite (nth_indep _ false (false && hd false b))
        by now rewrite length_map.
      rewrite (map_nth (fun x => x && hd false b)).
      destruct b as [| y [| z b]]; cbn in E2; try lia; reflexivity.
Qed.

Section SlctVrtcs_Criteria.

Context {F : Type} `{Scalar F}.

(** One criterion, switched on or off: the vector it leaves and the count
    it adds to the history. *)
Lemma apply_criterion_hist (lgcSlct : bool)
    (crit : list bool -> result (list bool))
    (st st' : list bool * list nat) :
  apply_criterion lgcSlct crit st = Ok st' ->
  snd st' = snd st ++ (if lgcSlct then [np_sum_bool (fst st')] else []) /\
  (if lgcSlct then crit (fst st) = Ok (fst st') else fst st' = fst st).
Proof.
  intros Hs; apply apply_criterion_Ok in Hs.
  destruct Hs as [[-> ->] | [-> (v & Hv & ->)]]; cbn [fst snd].
  - now rewrite app_nil_r.
  - auto.
Qed.

(** C10, as amended.  In a call that returns: each of the criteria 2, 3
    and 4 that is switched on replaces the inclusion vector by its
    logical AND with the test of the criterion, as numpy forms it (entry
    by entry, a vector of length 1 standing in for every entry); the
    counts the function takes in turn are the number of vertices of the
    mesh and then, for every criterion switched on, the number of true
    entries of the vector it leaves; these counts never go up as long as
    the vector returned has one entry per vertex of the mesh, which it
    has whenever at least one array is cut ([varNumCon] is 1 or more) or
    the mesh does not have exactly one vertex; the count returned is the
    number of true entries of the vector returned; each of the first
    [varNumCon] arrays returned has exactly that many rows, and the
    arrays after these are returned as they were passed. *)
Theorem funcSlctVrtcs_inclusion_invariants (varNumCon : Z)
    (lstDpthData01 : list (ndarray2 F))
    (lgcSlct01 : bool) (aryRoiVrtx : ndarray2 F)
    (lgcSlct02 : bool) (arySlct02 : ndarray2 F) (varThrSlct02 : F)
    (lgcSlct03 : bool) (arySlct03 : ndarray2 F) (varThrSlct03 : F)
    (lgcSlct04 : bool) (arySlct04 : ndarray2 F) (varThrSlct04 : F)
    (idxPrc : Z) (r : slct_result F) :
  funcSlctVrtcs varNumCon lstDpthData01 lgcSlct01 aryRoiVrtx
    lgcSlct02 arySlct02 varThrSlct02 lgcSlct03 arySlct03 varThrSlct03
    lgcSlct04 arySlct04 varThrSlct04 idxPrc = Ok r ->
  let N := fst (shape2 (hd zeros2_0 lstDpthData01)) in
  exists v1 v2 v3 : list bool,
    List.length v1 = N /\
    (if lgcSlct02
     then anded v1 (np_greater (mean_axis1 arySlct02) varThrSlct02) v2
     else v2 = v1) /\
    (if lgcSlct03
     then exists vecMneSlct03,
            min_axis1 arySlct03 = Ok vecMneSlct03 /\
            anded v2 (np_greater vecMneSlct03 varThrSlct03) v3
     else v3 = v2) /\
    (if lgcSlct04
     then anded v3 (np_less (mean_axis1 arySlct04) varThrSlct04)
            (ret_vecInc r)
     else ret_vecInc r = v3) /\
    hist_varNumInc r
    = [N] ++ (if lgcSlct01 then [np_sum_bool v1] else [])
          ++ (if lgcSlct02 then [np_sum_bool v2] else [])
          ++ (if lgcSlct03 then [np_sum_bool v3] else [])
          ++ (if lgcSlct04 then [np_sum_bool (ret_vecInc r)] else []) /\
    (List.length (ret_vecInc r) = N ->
     non_increasing (hist_varNumInc r)) /\
    ((0 < varNumCon)%Z \/ N <> 1 -> List.length (ret_vecInc r) = N) /\
    ret_varNumInc r = last (hist_varNumInc r) 0 /\
    ret_varNumInc r = np_sum_bool (ret_vecInc r) /\
    List.length (ret_lstDpthData01 r) = List.length lstDpthData01 /\
    (forall j a', j < Z.to_nat varNumCon ->
                  nth_error (ret_lstDpthData01 r) j = Some a' ->
                  fst (shape2 a') = ret_varNumInc r) /\
    (forall j, Z.to_nat varNumCon <= j ->
               nth_error (ret_lstDpthData01 r) j
               = nth_error lstDpthData01 j).
Proof.
  intros Hrun N; unfold funcSlctVrtcs in Hrun.
  destruct lstDpthData01 as [| a0 rest]; [discriminate |].
  cbn [bind hd] in Hrun, N; fold N in Hrun.
  rewrite np_sum_bool_repeat_true in Hrun.
  bind_as Hrun st1 H1. bind_as Hrun st2 H2. bind_as Hrun st3 H3.
  bind_as Hrun st4 H4. bind_as Hrun lst' Hl.
  injection Hrun as <-; cbn [hist_varNumInc ret_varNumInc ret_vecInc
                               ret_lstDpthData01].
  (* criterion 1 *)
  assert (I1 : count_ok st1 /\ List.length (fst st1) = N /\
               non_increasing (snd st1)).
  { pose proof H1 as H1'; apply apply_criterion_Ok in H1'.
    cbn [fst snd] in H1'.
    destruct H1' as [[_ ->] | [_ (v & Hv & ->)]]; unfold count_ok;
      cbn [fst snd].
    - rewrite np_sum_bool_repeat_true, repeat_length; cbn.
      repeat split; congruence.
    - apply criterion1_length in Hv.
      pose proof (np_sum_bool_le_length v).
      cbn; repeat split; try congruence; lia. }
  destruct I1 as (C1 & L1 & N1).
  destruct (apply_criterion_hist _ _ _ _ H1) as [E1 _].
  destruct (apply_criterion_hist _ _ _ _ H2) as [E2 A2].
  destruct (apply_criterion_hist _ _ _ _ H3) as [E3 A3].
  destruct (apply_criterion_hist _ _ _ _ H4) as [E4 A4].
  cbn [fst snd] in E1.
  (* criteria 2 to 4 *)
  destruct (and_step _ _ _ _
              (criterion2_and_like arySlct02 varThrSlct02) H2 C1)
    as (C2 & L2 & N2).
  destruct (and_step _ _ _ _
              (criterion3_and_like arySlct03 varThrSlct03) H3 C2)
    as (C3 & L3 & N3).
  destruct (and_step _ _ _ _
              (criterion4_and_like arySlct04 varThrSlct04) H4 C3)
    as (C4 & L4 & N4).
  (* the loop through the conditions *)
  apply apply_inclusion_inv in Hl.
  destruct Hl as (Hlen & _ & Hin & Hout).
  exists (fst st1), (fst st2), (fst st3).
  split; [exact L1 |].
  split.
  { destruct lgcSlct02; [| exact A2].
    unfold criterion2 in A2; now apply np_logical_and_anded. }
  split.
  { destruct lgcSlct03; [| exact A3].
    unfold criterion3 in A3; bind_as A3 m Hm.
    exists m; split; [exact Hm | now apply np_logical_and_anded]. }
  split.
  { destruct lgcSlct04; [| exact A4].
    unfold criterion4 in A4; now apply np_logical_and_anded. }
  split.
  { rewrite E4, E3, E2, E1, <- !app_assoc; reflexivity. }
  split; [intros L; apply N4, N3, N2; (assumption || lia) |].
  split.
  { intros [Hcon | HN]; [| lia].
    destruct (Hin 0) as (a & a' & Ha & _ & Hmask); [lia |].
    injection Ha as <-.
    apply mask_rows_Ok in Hmask; apply Hmask. }
  split; [reflexivity |].
  split; [apply C4 |].
  split; [exact Hlen |].
  split.
  - intros j a' Hj Ha'.
    destruct (Hin j) as (a & a2 & _ & Ha2 & Hmask); [lia |].
    assert (a2 = a') by congruence; subst a2.
    apply mask_rows_Ok in Hmask; rewrite (proj2 C4); apply Hmask.
  - intros j Hj; apply Hout; lia.
Qed.

End SlctVrtcs_Criteria.

Lemma SlctExample_others :
  SlctExample.call_one = Ok (SlctExample.returned SlctExample.call_one) /\
  SlctExample.call_broadcast
  = Ok (SlctExample.returned SlctExample.call_broadcast).
Proof. split; vm_compute; reflexivity. Qed.

(** C10 as stated fails in two ways.  With [varNumCon] smaller than the
    number of arrays the arrays after the first [varNumCon] are not cut:
    the count is 1 and the second array comes back with its four rows.
    And on a mesh of one vertex with no array to cut, the AND with the
    test of criterion 2 on four rows is broadcast: the count goes from 1
    up to 3. *)
Lemma funcSlctVrtcs_rows_and_count_counterexample :
  (exists r,
     funcSlctVrtcs 1 SlctExample.lstDpthData01 true SlctExample.aryRoiVrtx
       true SlctExample.arySlct02 (Examples.q 1)
       true SlctExample.arySlct03 (Examples.q 1)
       false SlctExample.arySlct03 (Examples.q 0) 0 = Ok r /\
     ret_varNumInc r = 1 /\
     map (fun a => fst (shape2 a)) (ret_lstDpthData01 r) = [1; 4] /\
     ~ Forall (fun a => fst (shape2 a) = ret_varNumInc r)
         (ret_lstDpthData01 r)) /\
  (exists r,
     funcSlctVrtcs 0 SlctExample.lstOneVertex false SlctExample.aryRoiVrtx
       true SlctExample.arySlct02 (Examples.q 1)
       false SlctExample.arySlct03 (Examples.q 1)
       false SlctExample.arySlct03 (Examples.q 0) 0 = Ok r /\
     hist_varNumInc r = [1; 3] /\
     ~ non_increasing (hist_varNumInc r)).
Proof.
  destruct SlctExample_others as [E1 E2]; split.
  - exists (SlctExample.returned SlctExample.call_one).
    split; [exact E1 |].
    assert (Hrows : map (fun a => fst (shape2 a))
                      (ret_lstDpthData01
                         (SlctExample.returned SlctExample.call_one))
                    = [1; 4]) by (vm_compute; reflexivity).
    assert (Hcount : ret_varNumInc
                       (SlctExample.returned SlctExample.call_one) = 1)
      by (vm_compute; reflexivity).
    split; [exact Hcount |]. split; [exact Hrows |].
    intros Hall; rewrite Hcount in Hall.
    apply (Forall_map (fun a => fst (shape2 a)) (fun n => n = 1)) in Hall.
    rewrite Hrows in Hall.
    inversion Hall as [| ? ? _ Hall']; inversion Hall' as [| ? ? H4 _].
    discriminate H4.
  - exists (SlctExample.returned SlctExample.call_broadcast).
    split; [exact E2 |].
    assert (Hh : hist_varNumInc
                   (SlctExample.returned SlctExample.call_broadcast)
                 = [1; 3]) by (vm_compute; reflexivity).
    split; [exact Hh |].
    rewrite Hh; cbn [non_increasing]; lia.
Qed.

Lemma funcSlctVrtcs_inclusion_invariants_witness :
  funcSlctVrtcs 2 SlctExample.lstDpthData01 true SlctExample.aryRoiVrtx
    true SlctExample.arySlct02 (Examples.q 1)
    true SlctExample.arySlct03 (Examples.q 1)
    false SlctExample.arySlct03 (Examples.q 0) 0 = Ok SlctExample.ret /\
  hist_varNumInc SlctExample.ret = [4; 3; 2; 1] /\
  non_increasing (hist_varNumInc SlctExample.ret) /\
  ret_varNumInc SlctExample.ret = np_sum_bool (ret_vecInc SlctExample.ret) /\
  (forall j a', j < Z.to_nat 2 ->
                nth_error (ret_lstDpthData01 SlctExample.ret) j = Some a' ->
                fst (shape2 a') = ret_varNumInc SlctExample.ret).
Proof.
  assert (H0 : funcSlctVrtcs 2 SlctExample.lstDpthData01 true
                 SlctExample.aryRoiVrtx
                 true SlctExample.arySlct02 (Examples.q 1)
                 true SlctExample.arySlct03 (Examples.q 1)
                 false SlctExample.arySlct03 (Examples.q 0) 0
               = Ok SlctExample.ret) by (vm_compute; reflexivity).
  split; [exact H0 |].
  destruct (funcSlctVrtcs_inclusion_invariants 2
              SlctExample.lstDpthData01 true SlctExample.aryRoiVrtx
              true SlctExample.arySlct02 (Examples.q 1)
              true SlctExample.arySlct03 (Examples.q 1)
              false SlctExample.arySlct03 (Examples.q 0) 0
              SlctExample.ret H0)
    as (v1 & v2 & v3 & _ & _ & _ & _ & _ & Hni & Hlen & _ & Hsum & _
        & Hrows & _).
  split; [vm_compute; reflexivity |].
  split; [apply Hni, Hlen; left; lia |].
  split; [exact Hsum | exact Hrows].
Defined.

(** ** The bootstrap samples with a single subject *)

Section PeakBoot_Single.

Context {F : Type} `{Scalar F}.

Local Open Scope scalar_scope.

(** X21.  With a single subject, the number the script sets, every
    bootstrap sample of the peak-position bootstrap is the profile of
    that subject, whatever the draws.  This holds in every arithmetic in
    which adding a number to zero and dividing it by one give the number
    itself, which both the exact rationals and binary64 do. *)
Theorem fill_aryBoo_single_subject (rng : nat -> nat -> nat)
    (ary : ndarray3 F) (varNumIt : Z) (idxCon d : nat)
    (aryBoo : ndarray2 F) :
  (forall x : F, lit 0%Q + x = x) ->
  (forall x : F, x / of_nat 1 = x) ->
  1 <= dim3_0 ary -> (0 <= varNumIt)%Z ->
  idxCon < dim3_1 ary -> d < dim3_2 ary ->
  shape2 aryBoo = (Z.to_nat varNumIt, dim3_2 ary) ->
  exists aryRnd out,
    randint rng 1 (varNumIt, 1) = Ok aryRnd /\
    fill_aryBoo aryRnd ary 1 (Z.to_nat varNumIt) idxCon aryBoo = Ok out /\
    shape2 out = shape2 aryBoo /\
    forall idxIt, idxIt < Z.to_nat varNumIt ->
                  data2 out idxIt d = data3 ary 0 idxCon d.
Proof.
  intros Hadd Hdiv Hsub Hit Hcon Hd Hshape.
  rewrite randint_subjects by exact Hit.
  set (aryRnd := {| shape2 := (Z.to_nat varNumIt, 1);
                    data2 := fun i s => rng i s mod 1 |}).
  assert (Hmean : forall idxIt,
             exists vec,
               mean_resampled ary 1 (data2 aryRnd idxIt) idxCon = Ok vec /\
               List.length vec = dim3_2 ary /\
               nth d vec (lit 0%Q) = data3 ary 0 idxCon d).
  { intros idxIt; unfold mean_resampled.
    cbn [seq forallb aryRnd data2]; rewrite Nat.mod_1_r.
    destruct (Nat.ltb_spec 0 (dim3_0 ary)); [| lia].
    destruct (Nat.ltb_spec idxCon (dim3_1 ary)); [| lia].
    cbn [andb]; eexists; split; [reflexivity |].
    split; [now rewrite length_map, length_seq |].
    rewrite nth_map_seq by exact Hd.
    unfold np_mean, np_sum; cbn [map fold_left List.length].
    now rewrite Hadd, Hdiv. }
  assert (Hk : forall k, k <= Z.to_nat varNumIt ->
             exists out,
               fold_left
                 (fun acc idxIt =>
                    aryBoo <- acc ;;
                    v <- mean_resampled ary 1 (data2 aryRnd idxIt) idxCon ;;
                    set_row aryBoo idxIt v)
                 (seq 0 k) (Ok aryBoo) = Ok out /\
               shape2 out = shape2 aryBoo /\
               forall idxIt, idxIt < k ->
                             data2 out idxIt d = data3 ary 0 idxCon d).
  { induction k as [| k IH]; intros Hkk.
    - exists aryBoo; repeat split; intros; lia.
    - destruct IH as (out & Hout & Hs & Hv); [lia |].
      destruct (Hmean k) as (vec & Hvec & Hlen & Hnth).
      rewrite seq_S, fold_left_app, Hout; cbn [fold_left bind Nat.add].
      rewrite Hvec; cbn [bind]; unfold set_row.
      rewrite Hs, Hshape; cbn [fst snd].
      destruct (Nat.ltb_spec k (Z.to_nat varNumIt)); [| lia].
      cbn [negb]; rewrite Hlen, Nat.eqb_refl; cbn [orb].
      eexists; split; [reflexivity |]. cbn [shape2 data2].
      split; [reflexivity |].
      intros idxIt Hi.
      destruct (Nat.eqb_spec idxIt k) as [-> | Hne].
      + unfold bidx.
        destruct (Nat.eqb_spec (dim3_2 ary) 1) as [E1 | E1];
          [| exact Hnth].
        assert (d = 0) by lia; subst d; exact Hnth.
      + apply Hv; lia. }
  destruct (Hk (Z.to_nat varNumIt) (le_n _)) as (out & Hout & Hs & Hv).
  exists aryRnd, out; split; [reflexivity |].
  split; [exact Hout |]. split; assumption.
Qed.

End PeakBoot_Single.

Lemma fill_aryBoo_single_subject_witness :
  exists aryRnd out,
    randint Examples.rng 1 (4%Z, 1) = Ok aryRnd /\
    fill_aryBoo aryRnd MoreExamples.aryDpthB 1 (Z.to_nat 4) 0
      {| shape2 := (4, 2); data2 := fun _ _ => Examples.q 0 |}
    = Ok out /\
    shape2 out = (4, 2) /\
    forall idxIt, idxIt < Z.to_nat 4 ->
                  data2 out idxIt 1 = data3 MoreExamples.aryDpthB 0 0 1.
Proof.
  apply (fill_aryBoo_single_subject Examples.rng MoreExamples.aryDpthB
           4%Z 0 1
           {| shape2 := (4, 2); data2 := fun _ _ => Examples.q 0 |});
    try (vm_compute; lia); try reflexivity.
  - intros [x |]; [| reflexivity].
    cbn [lit fadd num_Scalar num_lift2]; f_equal; ring.
  - intros [x |]; [| reflexivity].
    unfold of_nat; cbn [lit fdiv num_Scalar num_div].
    destruct (Qc_eq_dec _ _) as [E | E];
      [exfalso; revert E; apply Q2Qc_of_nat_neq_0; lia |].
    change (Q2Qc (inject_Z (Z.of_nat 1))) with 1%Qc.
    f_equal; field; exact E.
  - vm_compute; discriminate.
Defined.
